(** * video_to_gif_gui: a shallow embedding of the time helpers, the ffmpeg
    drivers and the export workflow of [video_to_gif_gui.py].

    Python values are modelled as the code uses them:
    - [str] is [string]; its characters are code points below 256;
    - [float] is an IEEE 754 binary64 value, a [spec_float] operated on by the
      Standard Library's specification of binary64 arithmetic
      ([SFadd], [SFsub], [SFmul] at precision 53 and maximal exponent 1024);
    - [int] is [Z];
    - a call that may raise returns a [result]. *)

From Stdlib Require Import ZArith QArith Qabs Qpower Bool List String Ascii Lia Lqa.
From Stdlib Require Import Floats.SpecFloat DecimalString.
Import ListNotations.

Local Open Scope string_scope.
Local Open Scope list_scope.
Local Open Scope Z_scope.

(** ** Python's builtins, as far as the program uses them *)

Module Py.

(** The exceptions the modelled code can raise. *)
Inductive exn : Type :=
| ValueError
| OverflowError
| TypeError
| TclError
| NameError (name : string).

Inductive result (A : Type) : Type :=
| Ok (a : A)
| Raise (e : exn).
Arguments Ok {A} a.
Arguments Raise {A} e.

Definition bind {A B : Type} (r : result A) (k : A -> result B) : result B :=
  match r with
  | Ok a => k a
  | Raise e => Raise e
  end.

(** *** Floats: binary64 *)

Definition prec : Z := 53.
Definition emax : Z := 1024.

Definition float : Type := spec_float.

Definition fadd : float -> float -> float := SFadd prec emax.
Definition fsub : float -> float -> float := SFsub prec emax.
Definition fmul : float -> float -> float := SFmul prec emax.
(** [a <= b] on floats: false as soon as one side is NaN. *)
Definition fle : float -> float -> bool := SFleb.

(** [float(n)] for an int [n]: the nearest binary64 value, ties to even;
    an int too large for a float raises OverflowError. *)
Definition float_of_int (n : Z) : result float :=
  match binary_normalize prec emax n 0 false with
  | S754_infinity _ => Raise OverflowError
  | f => Ok f
  end.

(** The float nearest to [n * 10^e10], sign [neg] (ties to even): how a decimal
    literal is read.  The quotient or product is formed on unbounded integers
    and rounded once. *)
Definition decimal_to_float (neg : bool) (n : Z) (e10 : Z) : float :=
  match n with
  | Zpos p =>
      if 0 <=? e10
      then binary_round prec emax neg (p * Z.to_pos (10 ^ e10)) 0
      else
        let '(mz, ez, lz) :=
          SFdiv_core_binary prec emax (Zpos p) 0 (10 ^ (- e10)) 0 in
        binary_round_aux prec emax neg mz ez lz
  | _ => S754_zero neg
  end.

(** [math.floor(x)]: an int; NaN raises ValueError, an infinity OverflowError. *)
Definition floor (x : float) : result Z :=
  match x with
  | S754_nan => Raise ValueError
  | S754_infinity _ => Raise OverflowError
  | S754_zero _ => Ok 0
  | S754_finite s m e =>
      let v := if s then Zneg m else Zpos m in
      Ok (if 0 <=? e then v * 2 ^ e else v / 2 ^ (- e))
  end.

(** [int(x)] for a float: truncation toward zero. *)
Definition int_of_float (x : float) : result Z :=
  match x with
  | S754_nan => Raise ValueError
  | S754_infinity _ => Raise OverflowError
  | S754_zero _ => Ok 0
  | S754_finite s m e =>
      let a := if 0 <=? e then Zpos m * 2 ^ e else Zpos m / 2 ^ (- e) in
      Ok (if s then - a else a)
  end.

(** *** Strings *)

Definition code (c : ascii) : Z := Z.of_N (N_of_ascii c).

(** [str.isspace] on one character (code points below 256). *)
Definition isspace (c : ascii) : bool :=
  let n := code c in
  ((9 <=? n) && (n <=? 13)) || ((28 <=? n) && (n <=? 32))
  || (n =? 133) || (n =? 160).

Fixpoint lstrip (s : string) : string :=
  match s with
  | String c r => if isspace c then lstrip r else s
  | EmptyString => EmptyString
  end.

Fixpoint rstrip (s : string) : string :=
  match s with
  | String c r =>
      match rstrip r with
      | EmptyString => if isspace c then EmptyString else String c EmptyString
      | r' => String c r'
      end
  | EmptyString => EmptyString
  end.

(** [s.strip()] *)
Definition strip (s : string) : string := rstrip (lstrip s).

(** The white space [float()] and [int()] skip on either side of a number:
    the ASCII white space and, of the other code points below 256, U+0085 and
    U+00A0.  The separators U+001C to U+001F, which [str.strip] removes, are
    not among it. *)
Definition num_space (c : ascii) : bool :=
  let n := code c in
  ((9 <=? n) && (n <=? 13)) || (n =? 32) || (n =? 133) || (n =? 160).

Fixpoint num_lstrip (s : string) : string :=
  match s with
  | String c r => if num_space c then num_lstrip r else s
  | EmptyString => EmptyString
  end.

Fixpoint num_rstrip (s : string) : string :=
  match s with
  | String c r =>
      match num_rstrip r with
      | EmptyString => if num_space c then EmptyString else String c EmptyString
      | r' => String c r'
      end
  | EmptyString => EmptyString
  end.

Definition num_strip (s : string) : string := num_rstrip (num_lstrip s).

(** [s.split(sep)] for a one-character separator: never an empty list. *)
Fixpoint split (sep : ascii) (s : string) : list string :=
  match s with
  | EmptyString => [EmptyString]
  | String c r =>
      if Ascii.eqb c sep then EmptyString :: split sep r
      else match split sep r with
           | h :: t => String c h :: t
           | [] => [String c EmptyString]
           end
  end.

Definition digit_val (c : ascii) : option Z :=
  let n := code c in
  if (48 <=? n) && (n <=? 57) then Some (n - 48) else None.

(** digit (["_"] digit)* continued: the value and the number of digits read so
    far, and what is left. *)
Fixpoint digits_tail (acc cnt : Z) (s : string) : Z * Z * string :=
  match s with
  | String c r =>
      match digit_val c with
      | Some d => digits_tail (10 * acc + d) (cnt + 1) r
      | None =>
          if Ascii.eqb c "_" then
            match r with
            | String c' r' =>
                match digit_val c' with
                | Some d => digits_tail (10 * acc + d) (cnt + 1) r'
                | None => (acc, cnt, s)
                end
            | EmptyString => (acc, cnt, s)
            end
          else (acc, cnt, s)
      end
  | EmptyString => (acc, cnt, s)
  end.

(** digitpart ::= digit (["_"] digit)*, read after the digits [acc] ([cnt] of
    them). *)
Definition digitpart (acc cnt : Z) (s : string) : option (Z * Z * string) :=
  match s with
  | String c r =>
      match digit_val c with
      | Some d => Some (digits_tail (10 * acc + d) (cnt + 1) r)
      | None => None
      end
  | EmptyString => None
  end.

(** number ::= [digitpart] "." digitpart | digitpart ["."]: the digits as one
    integer and the number of digits after the point. *)
Definition number (s : string) : option (Z * Z * string) :=
  match digitpart 0 0 s with
  | Some (n, _, String "." r) =>
      match digitpart n 0 r with
      | Some (n', k, r') => Some (n', k, r')
      | None => Some (n, 0, r)
      end
  | Some (n, _, r) => Some (n, 0, r)
  | None =>
      match s with
      | String "." r => digitpart 0 0 r
      | _ => None
      end
  end.

(** exponent ::= ("e" | "E") [sign] digitpart, or nothing. *)
Definition exponent (s : string) : option (Z * string) :=
  match s with
  | String c r =>
      if Ascii.eqb c "e" || Ascii.eqb c "E" then
        let '(neg, r1) :=
          match r with
          | String "-" r1 => (true, r1)
          | String "+" r1 => (false, r1)
          | _ => (false, r)
          end in
        match digitpart 0 0 r1 with
        | Some (x, _, r2) => Some (if neg then - x else x, r2)
        | None => None
        end
      else Some (0, s)
  | EmptyString => Some (0, s)
  end.

(** floatnumber ::= number [exponent], the whole of [s]: the digits [n] and
    the power of ten [e10] of the value [n * 10^e10]. *)
Definition floatnumber (s : string) : option (Z * Z) :=
  match number s with
  | Some (n, k, r) =>
      match exponent r with
      | Some (x, EmptyString) => Some (n, x - k)
      | _ => None
      end
  | None => None
  end.

Definition lower (c : ascii) : ascii :=
  let n := code c in
  if (65 <=? n) && (n <=? 90) then ascii_of_N (Z.to_N (n + 32)) else c.

Fixpoint lowercase (s : string) : string :=
  match s with
  | String c r => String (lower c) (lowercase r)
  | EmptyString => EmptyString
  end.

(** [float(s)] for a str: [None] stands for ValueError, the only exception it
    raises.  floatvalue ::= [sign] (floatnumber | "inf" | "infinity" | "nan"),
    letters in either case, with white space ([num_space]) on either side. *)
Definition float_of_str (s : string) : option float :=
  let t := num_strip s in
  let '(neg, body) :=
    match t with
    | String "-" r => (true, r)
    | String "+" r => (false, r)
    | _ => (false, t)
    end in
  let l := lowercase body in
  if String.eqb l "inf" || String.eqb l "infinity" then Some (S754_infinity neg)
  else if String.eqb l "nan" then Some S754_nan
  else
    match floatnumber body with
    | Some (n, e10) => Some (decimal_to_float neg n e10)
    | None => None
    end.

End Py.

(** ** The time helpers *)

Import Py.

(** [[float(p) for p in parts]]: a field that is no number raises ValueError,
    which the caller turns into [None]. *)
Fixpoint floats_of_fields (parts : list string) : option (list float) :=
  match parts with
  | [] => Some []
  | p :: rest =>
      match float_of_str p with
      | None => None
      | Some f =>
          match floats_of_fields rest with
          | None => None
          | Some fs => Some (f :: fs)
          end
      end
  end.

Definition float_0 : float := S754_zero false.
Definition float_1 : float := S754_finite false 4503599627370496 (-52).
Definition float_60 : float := S754_finite false 8444249301319680 (-47).

(** The body of [for p in parts: seconds += p * multiplier; multiplier *= 60.0],
    on the pair (seconds, multiplier). *)
Definition accumulate_step (st : float * float) (p : float) : float * float :=
  let '(seconds, multiplier) := st in
  (fadd seconds (fmul p multiplier), fmul multiplier float_60).

(** [parse_time(t)]: seconds, or [None] on a parse error. *)
Definition parse_time (t : option string) : option float :=
  match t with
  | None => None
  | Some t =>
      let t := strip t in
      if String.eqb t "" then None
      else
        match float_of_str t with
        | Some f => Some f
        | None =>
            match floats_of_fields (split ":" t) with
            | None => None
            | Some [p] => Some p
            | Some parts =>
                Some (fst (fold_left accumulate_step (rev parts)
                                     (float_0, float_1)))
            end
        end
  end.

(** [format(n, "0<width>d")]: decimal, zero-padded to [width] characters, the
    sign of a negative number counted in the width. *)
Definition format_d (width : nat) (n : Z) : string :=
  let body := NilZero.string_of_uint (N.to_uint (Z.abs_N n)) in
  let sign := if n <? 0 then "-" else "" in
  let pad := (width - String.length sign - String.length body)%nat in
  (sign ++ string_of_list_ascii (repeat "0"%char pad) ++ body)%string.

(** [format_time_seconds(s)]: HH:MM:SS.mmm, or "Unknown" for [None].
    [math.floor] raises on NaN and on the infinities. *)
Definition format_time_seconds (s : option float) : result string :=
  match s with
  | None => Ok "Unknown"
  | Some s =>
      bind (floor s) (fun fl =>
      bind (float_of_int fl) (fun ffl =>
      bind (float_of_int 1000) (fun k =>
      bind (int_of_float (fmul (fsub s ffl) k)) (fun ms =>
      let total := fl in
      let sec := total mod 60 in
      let total := total / 60 in
      let minute := total mod 60 in
      let hour := total / 60 in
      Ok (format_d 2 hour ++ ":" ++ format_d 2 minute ++ ":"
          ++ format_d 2 sec ++ "." ++ format_d 3 ms)%string))))
  end.

(** The decimal digit [d], and the zero-padded fields of two and three
    digits. *)
Definition digit_char (d : Z) : ascii := ascii_of_N (Z.to_N (48 + d)).

Definition two_digits (n : Z) : string :=
  String (digit_char (n / 10)) (String (digit_char (n mod 10)) EmptyString).

Definition three_digits (n : Z) : string :=
  String (digit_char (n / 100)) (two_digits (n mod 100)).

(** The text "HH:MM:SS.mmm" for fields within two and three digits. *)
Definition time_text (h m s ms : Z) : string :=
  (two_digits h ++ ":" ++ two_digits m ++ ":" ++ two_digits s ++ "."
   ++ three_digits ms)%string.

(** The number a float stands for, as a rational (0 for what is no finite
    number). *)
Definition F2Q (x : float) : Q :=
  match x with
  | S754_finite s m e =>
      (if s then -1 else 1)%Q * (inject_Z (Zpos m) * (2 # 1) ^ e)%Q
  | _ => 0%Q
  end.

(** ** The environment of the program

    What the program gets from outside itself: the outcome of starting an
    external command, and Python's two renderings of a float that appear in
    messages only. *)

Definition cmd : Type := list string.

(** What [subprocess.run(cmd, ..., check=False)] does: the process exits with
    a return code and its captured output, or starting it raises. *)
Inductive spawned : Type :=
| Exited (returncode : Z) (stdout stderr : option string)
| SpawnError (message : string).

Class Runtime : Type := {
  (** the outcome of a command, given the commands run before it *)
  spawn : list cmd -> cmd -> spawned;
  (** [str(x)] for a float, as in [f"{start}"] *)
  float_str : float -> string;
  (** [f"{x:.3f}"] *)
  float_fmt3 : float -> string
}.

Definition nl : string := String (ascii_of_nat 10) EmptyString.

(** ** The window and the world it acts on *)

Inductive severity : Type := Info | Warning | Error.

(** A [messagebox.show*] call. *)
Record dialog : Type := Dialog {
  d_kind : severity;
  d_title : string;
  d_text : string
}.

(** [ExportOptions] *)
Record ExportOptions : Type := mkExportOptions {
  fps : Z;
  width : option Z;
  method : string
}.

(** The fields of [VideoToGifGUI] the export path reads or writes, with the
    parts of the world it changes: the log pane, the dialogs shown, the cursor,
    the lock, the temporary directories that exist and the commands run. *)
Record App : Type := mkApp {
  ffmpeg_ok : bool;
  input_path : option string;
  duration : option float;
  start_var : string;
  end_var : string;
  (** what [self.fps_var.get()] returns or raises *)
  fps_var : result Z;
  width_var : string;
  method_var : string;
  output_var : string;
  log_text : list string;
  dialogs : list dialog;
  cursor_busy : bool;
  lock_held : bool;
  tempdirs : list string;
  procs : list cmd
}.

Definition set_end_var (v : string) (a : App) : App :=
  mkApp (ffmpeg_ok a) (input_path a) (duration a) (start_var a) v (fps_var a)
        (width_var a) (method_var a) (output_var a) (log_text a) (dialogs a)
        (cursor_busy a) (lock_held a) (tempdirs a) (procs a).

Definition set_output_var (v : string) (a : App) : App :=
  mkApp (ffmpeg_ok a) (input_path a) (duration a) (start_var a) (end_var a)
        (fps_var a) (width_var a) (method_var a) v (log_text a) (dialogs a)
        (cursor_busy a) (lock_held a) (tempdirs a) (procs a).

Definition set_log_text (v : list string) (a : App) : App :=
  mkApp (ffmpeg_ok a) (input_path a) (duration a) (start_var a) (end_var a)
        (fps_var a) (width_var a) (method_var a) (output_var a) v (dialogs a)
        (cursor_busy a) (lock_held a) (tempdirs a) (procs a).

Definition set_dialogs (v : list dialog) (a : App) : App :=
  mkApp (ffmpeg_ok a) (input_path a) (duration a) (start_var a) (end_var a)
        (fps_var a) (width_var a) (method_var a) (output_var a) (log_text a) v
        (cursor_busy a) (lock_held a) (tempdirs a) (procs a).

Definition set_cursor_busy (v : bool) (a : App) : App :=
  mkApp (ffmpeg_ok a) (input_path a) (duration a) (start_var a) (end_var a)
        (fps_var a) (width_var a) (method_var a) (output_var a) (log_text a)
        (dialogs a) v (lock_held a) (tempdirs a) (procs a).

Definition set_lock_held (v : bool) (a : App) : App :=
  mkApp (ffmpeg_ok a) (input_path a) (duration a) (start_var a) (end_var a)
        (fps_var a) (width_var a) (method_var a) (output_var a) (log_text a)
        (dialogs a) (cursor_busy a) v (tempdirs a) (procs a).

Definition set_tempdirs (v : list string) (a : App) : App :=
  mkApp (ffmpeg_ok a) (input_path a) (duration a) (start_var a) (end_var a)
        (fps_var a) (width_var a) (method_var a) (output_var a) (log_text a)
        (dialogs a) (cursor_busy a) (lock_held a) v (procs a).

Definition set_procs (v : list cmd) (a : App) : App :=
  mkApp (ffmpeg_ok a) (input_path a) (duration a) (start_var a) (end_var a)
        (fps_var a) (width_var a) (method_var a) (output_var a) (log_text a)
        (dialogs a) (cursor_busy a) (lock_held a) (tempdirs a) v.

(** Code that changes the window or the world and may raise: the state it
    leaves, and its value or its exception. *)
Definition M (A : Type) : Type := App -> App * result A.

Definition ret {A : Type} (a : A) : M A := fun st => (st, Ok a).

Definition lift {A : Type} (r : result A) : M A := fun st => (st, r).

Definition mbind {A B : Type} (m : M A) (k : A -> M B) : M B :=
  fun st =>
    let '(st', r) := m st in
    match r with
    | Ok a => k a st'
    | Raise e => (st', Raise e)
    end.

Notation "x <- m ;; k" := (mbind m (fun x => k))
  (at level 61, m at next level, right associativity).
Notation "m ;; k" := (mbind m (fun _ => k))
  (at level 61, right associativity).

(** [try: body finally: fin]: [fin] runs whether [body] returned or raised; the
    exception of [body] goes on afterwards unless [fin] raises one itself. *)
Definition try_finally {A : Type} (body : M A) (fin : M unit) : M A :=
  fun st =>
    let '(st1, r) := body st in
    let '(st2, rf) := fin st1 in
    match rf with
    | Ok _ => (st2, r)
    | Raise e => (st2, Raise e)
    end.

Definition modify (f : App -> App) : M unit := fun st => (f st, Ok tt).

(** [self.log(msg)]: one more line in the log pane. *)
Definition log (msg : string) : M unit :=
  modify (fun a => set_log_text (log_text a ++ [rstrip msg]) a).

(** [self._thread_safe_log(msg)]: [self.log(msg)] queued on the UI thread, which
    runs the queued calls in order. *)
Definition _thread_safe_log (msg : string) : M unit := log msg.

(** [self._set_ui_busy(busy)] *)
Definition _set_ui_busy (b : bool) : M unit := modify (set_cursor_busy b).

Definition messagebox (k : severity) (title text : string) : M unit :=
  modify (fun a => set_dialogs (dialogs a ++ [Dialog k title text]) a).

Definition showinfo := messagebox Info.
Definition showwarning := messagebox Warning.
Definition showerror := messagebox Error.

(** [x or y] on strings. *)
Definition str_or (x y : string) : string :=
  if String.eqb x "" then y else x.

Definition opt_or_empty (x : option string) : string :=
  match x with
  | Some s => s
  | None => ""
  end.

Section WithRuntime.
Context {RT : Runtime}.

(** [run_subprocess(cmd)]: (returncode, stdout, stderr); an exception of
    [subprocess.run] becomes return code 1 with its text as stderr. *)
Definition run_subprocess (c : cmd) : M (Z * string * string) :=
  fun st =>
    let r :=
      match spawn (procs st) c with
      | Exited rc out err => (rc, opt_or_empty out, opt_or_empty err)
      | SpawnError msg => (1, "", msg)
      end in
    (set_procs (procs st ++ [c]) st, Ok r).

End WithRuntime.

(** ** More of the standard library the program calls *)

(** [str(n)] for an int. *)
Definition str_of_int (n : Z) : string := NilZero.string_of_int (Z.to_int n).

(** [int(s)] for a str, base 10: [None] stands for ValueError.  White space
    ([num_space]) on either side is skipped. *)
Definition int_of_str (s : string) : option Z :=
  let t := num_strip s in
  let '(neg, body) :=
    match t with
    | String "-" r => (true, r)
    | String "+" r => (false, r)
    | _ => (false, t)
    end in
  match digitpart 0 0 body with
  | Some (n, _, EmptyString) => Some (if neg then - n else n)
  | _ => None
  end.

(** The characters [shlex.quote] leaves alone: letters, digits and
    [_@%+=:,./-]. *)
Definition shell_safe (c : ascii) : bool :=
  let n := code c in
  ((48 <=? n) && (n <=? 57)) || ((65 <=? n) && (n <=? 90))
  || ((97 <=? n) && (n <=? 122))
  || existsb (Ascii.eqb c)
       ["_"; "@"; "%"; "+"; "="; ":"; ","; "."; "/"; "-"]%char.

Fixpoint all_chars (p : ascii -> bool) (s : string) : bool :=
  match s with
  | String c r => p c && all_chars p r
  | EmptyString => true
  end.

Definition dquote : ascii := ascii_of_nat 34.

(** [s.replace(q, q + d + q + d + q)] for the single quote [q] and the double
    quote [d]: how [shlex.quote] escapes a single quote. *)
Fixpoint escape_quotes (s : string) : string :=
  match s with
  | String c r =>
      if Ascii.eqb c "'" then
        String "'" (String dquote (String "'" (String dquote (String "'"
          (escape_quotes r)))))
      else String c (escape_quotes r)
  | EmptyString => EmptyString
  end.

(** [shlex.quote(s)] *)
Definition shlex_quote (s : string) : string :=
  if String.eqb s "" then "''"
  else if all_chars shell_safe s then s
  else ("'" ++ escape_quotes s ++ "'")%string.

(** [' '.join(shlex.quote(x) for x in cmd)] *)
Definition show_cmd (c : cmd) : string :=
  String.concat " " (map shlex_quote c).

Fixpoint ends_with_slash (s : string) : bool :=
  match s with
  | String c EmptyString => Ascii.eqb c "/"
  | String _ r => ends_with_slash r
  | EmptyString => false
  end.

(** [os.path.join(a, b)], POSIX flavour. *)
Definition path_join (a b : string) : string :=
  match b with
  | String "/" _ => b
  | _ =>
      if String.eqb a "" || ends_with_slash a then (a ++ b)%string
      else (a ++ "/" ++ b)%string
  end.

(** ** The ffmpeg drivers *)

Section Drivers.
Context {RT : Runtime}.

(** [f"scale={width}:-1:flags=lanczos" if width else "scale=iw:-1:flags=lanczos"] *)
Definition scale_filter (width : option Z) : string :=
  match width with
  | Some w =>
      if w =? 0 then "scale=iw:-1:flags=lanczos"
      else ("scale=" ++ str_of_int w ++ ":-1:flags=lanczos")%string
  | None => "scale=iw:-1:flags=lanczos"
  end.

(** [if progress_callback: progress_callback(msg)] *)
Definition progress (progress_callback : option (string -> M unit))
    (msg : string) : M unit :=
  match progress_callback with
  | Some f => f msg
  | None => ret tt
  end.

Definition palette_cmd (ss to input_path : string) (fps : Z)
    (scale palette_path : string) : cmd :=
  ["ffmpeg"; "-ss"; ss; "-to"; to; "-i"; input_path;
   "-vf"; ("fps=" ++ str_of_int fps ++ "," ++ scale ++ ",palettegen")%string;
   "-y"; palette_path].

Definition gif_cmd (ss to input_path palette_path : string) (fps : Z)
    (scale output_path : string) : cmd :=
  ["ffmpeg"; "-ss"; ss; "-to"; to; "-i"; input_path; "-i"; palette_path;
   "-lavfi";
   ("fps=" ++ str_of_int fps ++ "," ++ scale ++ " [x]; [x][1:v] paletteuse")%string;
   "-y"; output_path].

Definition single_cmd (ss to input_path : string) (fps : Z)
    (scale output_path : string) : cmd :=
  ["ffmpeg"; "-ss"; ss; "-to"; to; "-i"; input_path;
   "-vf"; ("fps=" ++ str_of_int fps ++ "," ++ scale)%string;
   "-y"; output_path].

(** [run_ffmpeg_palette]: (success, message). *)
Definition run_ffmpeg_palette (input_path : string) (start end_ : float)
    (fps : Z) (width : option Z) (output_path work_dir : string)
    (progress_callback : option (string -> M unit)) : M (bool * string) :=
  let palette_path := path_join work_dir "palette.png" in
  ss <- lift (format_time_seconds (Some start)) ;;
  to <- lift (format_time_seconds (Some end_)) ;;
  let scale := scale_filter width in
  let palette_cmd := palette_cmd ss to input_path fps scale palette_path in
  progress progress_callback
    ("Running palette generation:" ++ nl ++ show_cmd palette_cmd)%string ;;
  r <- run_subprocess palette_cmd ;;
  let '(rc, out, err) := r in
  if negb (rc =? 0) then
    ret (false, ("Palette generation failed: " ++ str_or err out)%string)
  else
    let gif_cmd :=
      gif_cmd ss to input_path palette_path fps scale output_path in
    progress progress_callback
      ("Running palette use:" ++ nl ++ show_cmd gif_cmd)%string ;;
    r2 <- run_subprocess gif_cmd ;;
    let '(rc2, out2, err2) := r2 in
    if negb (rc2 =? 0) then
      ret (false,
           ("Palette-based gif creation failed: " ++ str_or err2 out2)%string)
    else ret (true, "GIF created successfully (palette method).").

(** [run_ffmpeg_single]: (success, message). *)
Definition run_ffmpeg_single (input_path : string) (start end_ : float)
    (fps : Z) (width : option Z) (output_path : string)
    (progress_callback : option (string -> M unit)) : M (bool * string) :=
  ss <- lift (format_time_seconds (Some start)) ;;
  to <- lift (format_time_seconds (Some end_)) ;;
  let scale := scale_filter width in
  let cmd := single_cmd ss to input_path fps scale output_path in
  progress progress_callback
    ("Running single-step command:" ++ nl ++ show_cmd cmd)%string ;;
  r <- run_subprocess cmd ;;
  let '(rc, out, err) := r in
  if negb (rc =? 0) then
    ret (false, ("Single-step GIF creation failed: " ++ str_or err out)%string)
  else ret (true, "GIF created successfully (single-step method).").

End Drivers.

(** ** The export workflow *)

(** The arguments [on_export] hands to the worker thread. *)
Record WorkerArgs : Type := mkWorkerArgs {
  w_input_path : string;
  w_start : float;
  w_end : float;
  w_opts : ExportOptions;
  w_out_path : string;
  w_workdir : string
}.

Definition str_of_opt_int (w : option Z) : string :=
  match w with
  | Some n => str_of_int n
  | None => "None"
  end.

Section ExportFlow.
Context {RT : Runtime}.

(** [check_ffmpeg_available()]: both commands run with [-version] and exit
    with 0 ([check=True] raises otherwise, and so does a command that cannot
    be started). *)
Definition check_ffmpeg_available (ffmpeg_cmd ffprobe_cmd : string) : M bool :=
  fun st =>
    let c1 := [ffmpeg_cmd; "-version"] in
    let st1 := set_procs (procs st ++ [c1]) st in
    match spawn (procs st) c1 with
    | Exited 0 _ _ =>
        let c2 := [ffprobe_cmd; "-version"] in
        let st2 := set_procs (procs st1 ++ [c2]) st1 in
        match spawn (procs st1) c2 with
        | Exited 0 _ _ => (st2, Ok true)
        | _ => (st2, Ok false)
        end
    | _ => (st1, Ok false)
    end.

(** The window as [_build_ui] leaves it, in a world with no temporary
    directory of the program and no command run yet. *)
Definition fresh_window : App :=
  mkApp false None None "0" "" (Ok 10) "" "palette" "" ["Ready."] []
        false false [] [].

(** [VideoToGifGUI.__init__] *)
Definition VideoToGifGUI__init__ (ffmpeg_cmd ffprobe_cmd : string) : M unit :=
  ok <- check_ffmpeg_available ffmpeg_cmd ffprobe_cmd ;;
  modify (fun a =>
    mkApp ok (input_path a) (duration a) (start_var a) (end_var a) (fps_var a)
          (width_var a) (method_var a) (output_var a) (log_text a) (dialogs a)
          (cursor_busy a) (lock_held a) (tempdirs a) (procs a)) ;;
  if negb ok then
    showerror "ffmpeg not found"
      "ffmpeg or ffprobe not found on PATH. Please install ffmpeg and ensure ffmpeg and ffprobe are available."
  else ret tt.

(** The FPS field: [int(self.fps_var.get())] within 1..60, any exception or a
    value out of range being the same failure. *)
Definition read_fps (a : App) : option Z :=
  match fps_var a with
  | Ok n => if (1 <=? n) && (n <=? 60) then Some n else None
  | Raise _ => None
  end.

(** The width field, stripped: nothing, or an int above 0; [None] outside is
    the failure. *)
Definition read_width (width_val : string) : option (option Z) :=
  if String.eqb width_val "" then Some None
  else
    match int_of_str width_val with
    | Some w => if w <=? 0 then None else Some (Some w)
    | None => None
    end.

(** [tempfile.mkdtemp(prefix="v2g_work_")], the directory created being
    [fresh]. *)
Definition mkdtemp (fresh : string) : M string :=
  fun st => (set_tempdirs (tempdirs st ++ [fresh]) st, Ok fresh).

(** [shutil.rmtree(workdir, ignore_errors=True)] *)
Definition rmtree (workdir : string) : M unit :=
  modify (fun a =>
    set_tempdirs
      (filter (fun d => negb (String.eqb d workdir)) (tempdirs a)) a).

(** [on_export]: the worker thread it starts, if any.  [answer] is what the
    save dialog returns if it is shown (empty when cancelled), [fresh] the
    directory [mkdtemp] creates. *)
Definition on_export (answer fresh : string) : M (option WorkerArgs) :=
  fun app =>
  if negb (ffmpeg_ok app) then
    (showerror "ffmpeg missing"
       "ffmpeg or ffprobe not found. Install ffmpeg and try again." ;;
     ret None) app
  else
    match input_path app with
    | None | Some EmptyString =>
        (showwarning "No file" "Please choose a video file first." ;;
         ret None) app
    | Some input =>
        let start := parse_time (Some (start_var app)) in
        let end_ := parse_time (Some (end_var app)) in
        match start with
        | None =>
            (showwarning "Invalid start" "Start time invalid." ;; ret None) app
        | Some start =>
            let checked (end_ : float) : M (option WorkerArgs) :=
              if fle end_ start then
                showwarning "Invalid range"
                  "End time must be greater than start time." ;;
                ret None
              else
                match read_fps app with
                | None =>
                    showwarning "Invalid FPS"
                      "FPS must be an integer between 1 and 60." ;;
                    ret None
                | Some fps =>
                    match read_width (strip (width_var app)) with
                    | None =>
                        showwarning "Invalid width"
                          "Width must be a positive integer." ;;
                        ret None
                    | Some width =>
                        let start_worker (out_path : string)
                          : M (option WorkerArgs) :=
                          let options :=
                            mkExportOptions fps width (method_var app) in
                          workdir <- mkdtemp fresh ;;
                          log ("Working directory: " ++ workdir)%string ;;
                          ret (Some (mkWorkerArgs input start end_ options
                                                  out_path workdir)) in
                        let out_path := strip (output_var app) in
                        if String.eqb out_path "" then
                          if String.eqb answer "" then ret None
                          else
                            modify (set_output_var answer) ;;
                            start_worker answer
                        else start_worker out_path
                    end
                end in
            match end_ with
            | Some end_ => checked end_ app
            | None =>
                match duration app with
                | Some d =>
                    (modify (set_end_var (float_fmt3 d)) ;; checked d) app
                | None =>
                    (showwarning "Invalid end"
                       "End time invalid and video duration unknown." ;;
                     ret None) app
                end
            end
        end
    end.

(** [self._lock.acquire(blocking=False)] *)
Definition acquire_nonblocking : M bool :=
  fun st =>
    if lock_held st then (st, Ok false)
    else (set_lock_held true st, Ok true).

(** [self._lock.release()], by the holder. *)
Definition release : M unit := modify (set_lock_held false).

Definition busy_message : string :=
  "Another export is in progress. Please wait.".

(** The driver [opts.method] selects, with the worker's arguments. *)
Definition run_method (a : WorkerArgs) : M (bool * string) :=
  let opts := w_opts a in
  if String.eqb (method opts) "palette" then
    run_ffmpeg_palette (w_input_path a) (w_start a) (w_end a) (fps opts)
      (width opts) (w_out_path a) (w_workdir a) (Some _thread_safe_log)
  else
    run_ffmpeg_single (w_input_path a) (w_start a) (w_end a) (fps opts)
      (width opts) (w_out_path a) (Some _thread_safe_log).

(** The first two statements of the [try] block of [_export_worker]. *)
Definition worker_start (a : WorkerArgs) : M unit :=
  let opts := w_opts a in
  log ("Starting export: " ++ w_input_path a ++ " [" ++ float_str (w_start a)
       ++ " -> " ++ float_str (w_end a) ++ "] fps=" ++ str_of_int (fps opts)
       ++ " width=" ++ str_of_opt_int (width opts)
       ++ " method=" ++ method opts)%string ;;
  _set_ui_busy true.

(** The [try] block of [_export_worker]. *)
Definition worker_body (a : WorkerArgs) : M unit :=
  worker_start a ;;
  r <- run_method a ;;
  let '(ok, msg) := r in
  if ok : bool then
    _thread_safe_log ("Success: " ++ msg)%string ;;
    _thread_safe_log ("Output saved to: " ++ w_out_path a)%string ;;
    showinfo "Export complete" ("GIF exported to:" ++ nl ++ w_out_path a)%string
  else
    _thread_safe_log ("Failed: " ++ msg)%string ;;
    showerror "Export failed" msg.

(** The [finally] block of [_export_worker]. *)
Definition worker_finally (a : WorkerArgs) : M unit :=
  rmtree (w_workdir a) ;;
  _thread_safe_log "Cleaned temporary files." ;;
  _set_ui_busy false ;;
  release.

(** [_export_worker] *)
Definition _export_worker (a : WorkerArgs) : M unit :=
  got <- acquire_nonblocking ;;
  if negb got then log busy_message
  else try_finally (worker_body a) (worker_finally a).

(** *** Several worker threads

    Each click on Export that passes validation starts a thread.  A thread is
    scheduled in two steps: the attempt to take the lock, and, for the thread
    that got it, the [try]/[finally] block up to the release. *)

Inductive phase : Type := Pending | Holding | Finished | Rejected.

Record Sys : Type := mkSys {
  sys_app : App;
  sys_workers : list (WorkerArgs * phase)
}.

Inductive event : Type :=
| Click (answer fresh : string)
| Sched (i : nat).

Fixpoint set_nth {A : Type} (i : nat) (x : A) (l : list A) : list A :=
  match l, i with
  | [], _ => []
  | _ :: t, O => x :: t
  | h :: t, S j => h :: set_nth j x t
  end.

Definition sys_step (ev : event) (s : Sys) : Sys :=
  match ev with
  | Click answer fresh =>
      let '(app', r) := on_export answer fresh (sys_app s) in
      match r with
      | Ok (Some a) => mkSys app' (sys_workers s ++ [(a, Pending)])
      | _ => mkSys app' (sys_workers s)
      end
  | Sched i =>
      match nth_error (sys_workers s) i with
      | Some (a, Pending) =>
          match acquire_nonblocking (sys_app s) with
          | (app', Ok true) =>
              mkSys app' (set_nth i (a, Holding) (sys_workers s))
          | (app', _) =>
              mkSys (fst (log busy_message app'))
                    (set_nth i (a, Rejected) (sys_workers s))
          end
      | Some (a, Holding) =>
          mkSys (fst (try_finally (worker_body a) (worker_finally a)
                                  (sys_app s)))
                (set_nth i (a, Finished) (sys_workers s))
      | _ => s
      end
  end.

Definition sys_run (evs : list event) (s : Sys) : Sys :=
  fold_left (fun s ev => sys_step ev s) evs s.

End ExportFlow.

(** ** Finding the ffmpeg binaries, and the start of the program *)

(** What [find_ffmpeg_binaries] reads of the interpreter and the file system. *)
Record Host : Type := mkHost {
  (** [getattr(sys, "frozen", False)] *)
  frozen : bool;
  (** [sys.executable] *)
  executable : string;
  (** [__file__] *)
  script_file : string;
  (** [sys.platform] *)
  platform : string;
  (** [getattr(sys, "_MEIPASS", None)] *)
  meipass : option string;
  (** [os.path.join] and [os.path.dirname] of the platform *)
  os_path_join : string -> string -> string;
  os_path_dirname : string -> string;
  (** [os.path.isfile(p) and os.access(p, os.X_OK)] *)
  executable_file : string -> bool
}.

(** A value a global name can be bound to: a string, or anything else (a
    module, a function, a class, a flag). *)
Inductive pyval : Type :=
| VStr (s : string)
| VOther.

Definition namespace : Type := list (string * pyval).

(** The names bound at module level when line 159 calls
    [find_ffmpeg_binaries]: the imports, [PIL_AVAILABLE] and the function
    itself. *)
Definition module_globals : namespace :=
  map (fun n => (n, VOther))
    ["annotations"; "os"; "sys"; "subprocess"; "tempfile"; "threading";
     "shlex"; "math"; "dataclass"; "Optional"; "Tuple"; "tk"; "ttk";
     "filedialog"; "messagebox"; "Image"; "ImageTk"; "PIL_AVAILABLE";
     "find_ffmpeg_binaries"].

(** Reading a name that the function does not assign: the module's globals
    (no builtin is called [parent], the one name read this way below). *)
Fixpoint load_global (g : namespace) (name : string) : result pyval :=
  match g with
  | [] => Raise (NameError name)
  | (n, v) :: rest => if String.eqb n name then Ok v else load_global rest name
  end.

(** A path argument of [os.path.dirname] must be a string. *)
Definition as_path (v : pyval) : result string :=
  match v with
  | VStr s => Ok s
  | VOther => Raise TypeError
  end.

(** [if s:] for a string. *)
Definition str_truthy (s : string) : bool := negb (String.eqb s "").

Section FindBinaries.
Variable g : namespace.
Variable h : Host.

Let join := os_path_join h.
Let dirname := os_path_dirname h.

Definition binary_names : string * string :=
  if String.eqb (platform h) "win32" then ("ffmpeg.exe", "ffprobe.exe")
  else ("ffmpeg", "ffprobe").

Definition exe_dir : string :=
  if frozen h then dirname (executable h) else dirname (script_file h).

(** The test of step 1: both binaries are executable files next to the
    executable or the script. *)
Definition local_binaries_found : bool :=
  executable_file h (join exe_dir (fst binary_names))
  && executable_file h (join exe_dir (snd binary_names)).

Definition platform_sub : string :=
  if String.eqb (platform h) "darwin" then "macos"
  else if String.eqb (platform h) "win32" then "windows"
  else "linux".

(** The [for cand in candidates] loop and the fallback after it. *)
Fixpoint search_candidates (candidates : list string) : string * string :=
  match candidates with
  | [] => binary_names
  | cand :: rest =>
      let platform_dir := join cand platform_sub in
      let ff_local := join platform_dir (fst binary_names) in
      let fp_local := join platform_dir (snd binary_names) in
      if executable_file h ff_local && executable_file h fp_local
      then (ff_local, fp_local)
      else search_candidates rest
  end.

(** The body of [find_ffmpeg_binaries], run with the globals [g]. *)
Definition find_ffmpeg_binaries_in : result (string * string) :=
  let ff_local := join exe_dir (fst binary_names) in
  let fp_local := join exe_dir (snd binary_names) in
  if local_binaries_found then Ok (ff_local, fp_local)
  else
    let candidates := [join exe_dir "ffmpeg_binaries"] in
    let app_contents := dirname exe_dir in
    let app_root := dirname app_contents in
    let candidates :=
      (candidates ++ [join (join app_root "Resources") "ffmpeg_binaries"])%list in
    let candidates :=
      (candidates ++ [join (join app_root "Frameworks") "ffmpeg_binaries"])%list in
    bind (load_global g "parent") (fun parent =>
    bind (as_path parent) (fun parent =>
    let candidates :=
      (candidates
       ++ [join (join (dirname parent) "_internal") "ffmpeg_binaries"])%list in
    let candidates :=
      match meipass h with
      | Some m =>
          if str_truthy m then (candidates ++ [join m "ffmpeg_binaries"])%list
          else candidates
      | None => candidates
      end in
    let src_dir := dirname (script_file h) in
    let candidates := (candidates ++ [join src_dir "ffmpeg_binaries"])%list in
    Ok (search_candidates candidates))).

End FindBinaries.

(** [find_ffmpeg_binaries()], called where the module calls it. *)
Definition find_ffmpeg_binaries (h : Host) : result (string * string) :=
  find_ffmpeg_binaries_in module_globals h.

(** Running the script: the module body binds [FFMPEG_CMD, FFPROBE_CMD] at
    line 159, and [main()] builds the window only after the whole module body
    has run. *)
Definition run_script {RT : Runtime} (h : Host) : result App :=
  bind (find_ffmpeg_binaries h) (fun '(ffmpeg_cmd, ffprobe_cmd) =>
  Ok (fst (VideoToGifGUI__init__ ffmpeg_cmd ffprobe_cmd fresh_window))).

(** [os.path.dirname], POSIX flavour: up to the last slash, trailing slashes
    dropped unless nothing else is left. *)
Fixpoint rstrip_slash (s : string) : string :=
  match s with
  | String c r =>
      match rstrip_slash r with
      | EmptyString =>
          if Ascii.eqb c "/" then EmptyString else String c EmptyString
      | r' => String c r'
      end
  | EmptyString => EmptyString
  end.

Fixpoint head_to_last_slash (s : string) : string :=
  match s with
  | String c r =>
      if Ascii.eqb c "/" || negb (all_chars (fun x => negb (Ascii.eqb x "/")) r)
      then String c (head_to_last_slash r)
      else EmptyString
  | EmptyString => EmptyString
  end.

Definition posix_dirname (p : string) : string :=
  let head := head_to_last_slash p in
  if str_truthy head && negb (all_chars (Ascii.eqb "/") head)
  then rstrip_slash head else head.

(** A POSIX host, given its files. *)
Definition posix_host (script : string) (files : list string) : Host :=
  mkHost false "/usr/bin/python3" script "linux" None path_join posix_dirname
         (fun p => existsb (String.eqb p) files).

(** * Choosing a file and previewing a frame *)

(** ** The duration of the video *)

Definition float_3600 : float := S754_finite false 7916483719987200 (-41).

(** [\d] and [[\d\.]] on code points below 256. *)
Definition is_digit (c : ascii) : bool :=
  match digit_val c with
  | Some _ => true
  | None => false
  end.

Definition is_digit_or_dot (c : ascii) : bool :=
  is_digit c || Ascii.eqb c ".".

(** The longest prefix of characters of a class, and what follows it: what a
    greedy [+] or [*] takes when nothing after it makes it give back. *)
Fixpoint span (p : ascii -> bool) (s : string) : string * string :=
  match s with
  | String c r =>
      if p c then let '(a, b) := span p r in (String c a, b)
      else (EmptyString, s)
  | EmptyString => (EmptyString, EmptyString)
  end.

Fixpoint strip_prefix (pre s : string) : option string :=
  match pre, s with
  | EmptyString, _ => Some s
  | String a p, String b r => if Ascii.eqb a b then strip_prefix p r else None
  | String _ _, EmptyString => None
  end.

(** [re.match(r"Duration: (\d+):(\d+):([\d\.]+)", s)]: the three groups.  A
    run of digits that is followed by a colon is the longest run, so the
    greedy match is the only one. *)
Definition match_duration (s : string) : option (string * string * string) :=
  match strip_prefix "Duration: " s with
  | Some r =>
      let '(h, r1) := span is_digit r in
      match h, r1 with
      | String _ _, String ":" r2 =>
          let '(m, r3) := span is_digit r2 in
          match m, r3 with
          | String _ _, String ":" r4 =>
              let '(sec, _) := span is_digit_or_dot r4 in
              match sec with
              | String _ _ => Some (h, m, sec)
              | EmptyString => None
              end
          | _, _ => None
          end
      | _, _ => None
      end
  | None => None
  end.

(** [re.search(r"Duration: (\d+):(\d+):([\d\.]+)", text)]: the match at the
    leftmost position that has one. *)
Fixpoint re_search_duration (text : string)
  : option (string * string * string) :=
  match match_duration text with
  | Some g => Some g
  | None =>
      match text with
      | String _ r => re_search_duration r
      | EmptyString => None
      end
  end.

(** [float(h) * 3600.0 + float(m_) * 60.0 + float(s)]; [None] stands for the
    ValueError of a [float()], which the caller swallows. *)
Definition duration_of_groups (g : string * string * string) : option float :=
  let '(h, m_, s) := g in
  match float_of_str h, float_of_str m_, float_of_str s with
  | Some fh, Some fm, Some fs =>
      Some (fadd (fadd (fmul fh float_3600) (fmul fm float_60)) fs)
  | _, _, _ => None
  end.

Definition probe_cmd (path : string) : cmd :=
  ["ffprobe"; "-v"; "error"; "-show_entries"; "format=duration";
   "-of"; "default=noprint_wrappers=1:nokey=1"; path].

Definition info_cmd (path : string) : cmd := ["ffmpeg"; "-i"; path].

Definition frame_cmd (ss input_path out_path : string) : cmd :=
  ["ffmpeg"; "-ss"; ss; "-i"; input_path; "-frames:v"; "1"; "-q:v"; "2";
   "-y"; out_path].

Section Duration.
Context {RT : Runtime}.

(** The second [try] block of [get_video_duration] and the [return None]
    after it. *)
Definition duration_fallback (path : string) : M (option float) :=
  r <- run_subprocess (info_cmd path) ;;
  let '(rc, out, err) := r in
  let text := (out ++ err)%string in
  match re_search_duration text with
  | Some g => ret (duration_of_groups g)
  | None => ret None
  end.

(** [get_video_duration(path)] *)
Definition get_video_duration (path : string) : M (option float) :=
  r <- run_subprocess (probe_cmd path) ;;
  let '(rc, out, err) := r in
  if (rc =? 0) && str_truthy (strip out) then
    match float_of_str (strip out) with
    | Some d => ret (Some d)
    | None => duration_fallback path
    end
  else duration_fallback path.

(** [extract_frame_to_file]: (success, message). *)
Definition extract_frame_to_file (input_path : string) (time_sec : float)
    (out_path : string) : M (bool * string) :=
  ss <- lift (format_time_seconds (Some time_sec)) ;;
  let cmd := frame_cmd ss input_path out_path in
  r <- run_subprocess cmd ;;
  let '(rc, out, err) := r in
  if negb (rc =? 0) then ret (false, str_or err out)
  else ret (true, "Frame extracted.").

End Duration.

(** ** The rest of the window *)

(** What the preview needs of Pillow and Tk, and the third rendering of a
    float that appears in labels only. *)
Inductive rendered : Type :=
| Displayed (image : string)
| RenderError (assigned : option string) (message : string).

Class Toolkit : Type := {
  (** [PIL_AVAILABLE] *)
  pil_available : bool;
  (** the [try] block of [on_preview] on a frame file, after the commands
      run so far: the image it put on the canvas, or the text of the
      exception it raised and the image it had assigned by then, if any *)
  render : list cmd -> string -> rendered;
  (** [f"{x:.2f}"] *)
  float_fmt2 : float -> string
}.

(** The window: the fields of the export path, the two labels and the image
    on the canvas. *)
Record Window : Type := mkWindow {
  form : App;
  file_label : string;
  duration_label : string;
  preview_image : option string
}.

Definition W (A : Type) : Type := Window -> Window * result A.

Definition wret {A : Type} (a : A) : W A := fun w => (w, Ok a).

Definition wbind {A B : Type} (m : W A) (k : A -> W B) : W B :=
  fun w =>
    let '(w', r) := m w in
    match r with
    | Ok a => k a w'
    | Raise e => (w', Raise e)
    end.

Notation "x <~ m ;; k" := (wbind m (fun x => k))
  (at level 61, m at next level, right associativity).
Notation "m ~;; k" := (wbind m (fun _ => k))
  (at level 61, right associativity).

(** Code of the export path, run on the window. *)
Definition in_app {A : Type} (m : M A) : W A :=
  fun w =>
    let '(a', r) := m (form w) in
    (mkWindow a' (file_label w) (duration_label w) (preview_image w), r).

Definition set_file_label (v : string) : W unit :=
  fun w => (mkWindow (form w) v (duration_label w) (preview_image w), Ok tt).

Definition set_duration_label (v : string) : W unit :=
  fun w => (mkWindow (form w) (file_label w) v (preview_image w), Ok tt).

Definition set_preview_image (v : string) : W unit :=
  fun w => (mkWindow (form w) (file_label w) (duration_label w) (Some v), Ok tt).

Definition set_input_path (v : string) (a : App) : App :=
  mkApp (ffmpeg_ok a) (Some v) (duration a) (start_var a) (end_var a)
        (fps_var a) (width_var a) (method_var a) (output_var a) (log_text a)
        (dialogs a) (cursor_busy a) (lock_held a) (tempdirs a) (procs a).

Definition set_duration (v : option float) (a : App) : App :=
  mkApp (ffmpeg_ok a) (input_path a) v (start_var a) (end_var a)
        (fps_var a) (width_var a) (method_var a) (output_var a) (log_text a)
        (dialogs a) (cursor_busy a) (lock_held a) (tempdirs a) (procs a).

Section WindowCode.
Context {RT : Runtime} {TK : Toolkit}.

(** [choose_file], [path] being what the open dialog returns (empty when
    cancelled). *)
Definition choose_file (path : string) : W unit :=
  if negb (str_truthy path) then wret tt
  else
    in_app (modify (set_input_path path)) ~;;
    set_file_label path ~;;
    in_app (log ("Selected: " ++ path)%string) ~;;
    d <~ in_app (get_video_duration path) ;;
    in_app (modify (set_duration d)) ~;;
    match d with
    | Some d =>
        text <~ in_app (lift (format_time_seconds (Some d))) ;;
        set_duration_label (text ++ " (" ++ float_fmt2 d ++ " s)")%string ~;;
        in_app (log ("Duration: " ++ float_fmt2 d ++ " seconds")%string) ~;;
        fun w =>
          if negb (str_truthy (strip (end_var (form w))))
          then in_app (modify (set_end_var (float_fmt3 d))) w
          else wret tt w
    | None =>
        set_duration_label "Unknown" ~;;
        in_app (log "Duration: unknown")
    end.

(** [on_preview], [fresh] being the directory [TemporaryDirectory] creates. *)
Definition on_preview (fresh : string) : W unit :=
  fun w =>
  if negb pil_available then
    in_app (showwarning "Pillow not available"
      "Pillow not installed; preview disabled. Install with: pip install pillow")
      w
  else
    match input_path (form w) with
    | None | Some EmptyString =>
        in_app (showwarning "No file" "Please choose a video file first.") w
    | Some input =>
        match parse_time (Some (start_var (form w))) with
        | None =>
            in_app (showwarning "Invalid start" "Start time is invalid.") w
        | Some t =>
            (td <~ in_app (mkdtemp fresh) ;;
             let frame_path := path_join td "preview.jpg" in
             in_app (log ("Extracting frame at " ++ float_str t ++ " s ...")%string) ~;;
             r <~ in_app (extract_frame_to_file input t frame_path) ;;
             let '(ok, msg) := r in
             if negb ok then
               in_app (log ("Preview failed: " ++ msg)%string) ~;;
               in_app (rmtree td)
             else
               (fun w1 =>
                  match render (procs (form w1)) frame_path with
                  | Displayed img =>
                      (set_preview_image img ~;;
                       in_app (log "Preview displayed.")) w1
                  | RenderError assigned msg =>
                      (match assigned with
                       | Some img => set_preview_image img
                       | None => wret tt
                       end ~;;
                       in_app (log ("Preview error: " ++ msg)%string)) w1
                  end) ~;;
               in_app (rmtree td)) w
        end
    end.

End WindowCode.

(** ** The output file *)

(** [os.path.basename], POSIX flavour: what follows the last slash. *)
Fixpoint basename (p : string) : string :=
  match p with
  | String c r =>
      if all_chars (fun x => negb (Ascii.eqb x "/")) p then p else basename r
  | EmptyString => EmptyString
  end.

(** The text before the last dot, if there is a dot. *)
Fixpoint before_last_dot (s : string) : option string :=
  match s with
  | EmptyString => None
  | String c r =>
      match before_last_dot r with
      | Some pre => Some (String c pre)
      | None => if Ascii.eqb c "." then Some EmptyString else None
      end
  end.

(** [os.path.splitext(name)[0]] for a name without a slash: the name up to
    its last dot, unless nothing but dots comes before that dot. *)
Definition splitext_root (name : string) : string :=
  match before_last_dot name with
  | Some pre => if all_chars (Ascii.eqb ".") pre then name else pre
  | None => name
  end.

(** The file name [choose_output] proposes in the save dialog. *)
Definition initial_file (a : App) : string :=
  match input_path a with
  | None | Some EmptyString => ""
  | Some p => (splitext_root (basename p) ++ ".gif")%string
  end.

(** [choose_output], [ask] being the save dialog: its answer to the proposed
    file name (empty when cancelled). *)
Definition choose_output (ask : string -> string) : M unit :=
  fun a =>
    let path := ask (initial_file a) in
    if str_truthy path then
      (modify (set_output_var path) ;;
       log ("Output set: " ++ path)%string) a
    else ret tt a.

(** * Properties *)

(** ** Stripping and splitting *)

Lemma all_chars_app (p : ascii -> bool) (a b : string) :
  all_chars p (a ++ b) = all_chars p a && all_chars p b.
Proof.
  induction a as [|c a IH]; cbn; [reflexivity|].
  rewrite IH. apply andb_assoc.
Qed.

Lemma all_chars_impl (p q : ascii -> bool) (s : string) :
  (forall c, p c = true -> q c = true) ->
  all_chars p s = true -> all_chars q s = true.
Proof.
  intros H. induction s as [|c r IH]; cbn; [reflexivity|].
  intros Hs. apply andb_true_iff in Hs. destruct Hs as [Hc Hr].
  rewrite (H c Hc), (IH Hr). reflexivity.
Qed.

Lemma num_space_isspace (c : ascii) : num_space c = true -> isspace c = true.
Proof.
  destruct c as [[] [] [] [] [] [] [] []]; cbn; intros H;
    try discriminate H; reflexivity.
Qed.

Lemma rstrip_cons_nonspace (c : ascii) (s : string) :
  isspace c = false -> rstrip (String c s) = String c (rstrip s).
Proof.
  intros Hc. simpl. rewrite Hc. destruct (rstrip s); reflexivity.
Qed.

Lemma rstrip_idem (s : string) : rstrip (rstrip s) = rstrip s.
Proof.
  induction s as [|c r IH]; simpl; [reflexivity|].
  destruct (rstrip r) as [|c' r'] eqn:E.
  - destruct (isspace c) eqn:Hc; simpl; [reflexivity|].
    rewrite Hc. reflexivity.
  - change (rstrip (String c (String c' r')) = String c (String c' r')).
    simpl. simpl in IH. destruct (rstrip r'); destruct (isspace c');
      try discriminate; try reflexivity;
      injection IH as ->; reflexivity.
Qed.

Lemma lstrip_rstrip (s : string) : lstrip (rstrip s) = rstrip (lstrip s).
Proof.
  induction s as [|c r IH]; [reflexivity|].
  destruct (isspace c) eqn:Hc.
  - change (lstrip (String c r)) with (if isspace c then lstrip r else String c r).
    rewrite Hc, <- IH. simpl.
    destruct (rstrip r) eqn:E; simpl; rewrite Hc; reflexivity.
  - change (lstrip (String c r)) with (if isspace c then lstrip r else String c r).
    rewrite Hc, rstrip_cons_nonspace by assumption.
    simpl. rewrite Hc. reflexivity.
Qed.

Lemma lstrip_idem (s : string) : lstrip (lstrip s) = lstrip s.
Proof.
  induction s as [|c r IH]; simpl; [reflexivity|].
  destruct (isspace c) eqn:Hc; [assumption|].
  simpl. rewrite Hc. reflexivity.
Qed.

Lemma strip_idem (s : string) : strip (strip s) = strip s.
Proof.
  unfold strip. rewrite lstrip_rstrip, lstrip_idem, rstrip_idem. reflexivity.
Qed.

Lemma split_nonempty (sep : ascii) (s : string) : split sep s <> [].
Proof.
  destruct s as [|c r]; simpl; [discriminate|].
  destruct (Ascii.eqb c sep); [discriminate|].
  destruct (split sep r); discriminate.
Qed.

(** Every field is a number. *)
Definition fields_ok (parts : list string) : bool :=
  forallb (fun p => match float_of_str p with Some _ => true | None => false end)
          parts.

Lemma floats_of_fields_ok (parts : list string) :
  fields_ok parts = true <-> floats_of_fields parts <> None.
Proof.
  induction parts as [|p rest IH]; simpl.
  - split; [discriminate | reflexivity].
  - destruct (float_of_str p); simpl.
    + rewrite IH. destruct (floats_of_fields rest); split; congruence.
    + split; [discriminate | congruence].
Qed.

Lemma isspace_colon (c : ascii) : isspace c = true -> Ascii.eqb c ":" = false.
Proof.
  destruct c as [[] [] [] [] [] [] [] []]; vm_compute; congruence.
Qed.

(** Trailing whitespace belongs to the last field. *)
Fixpoint map_last (f : string -> string) (l : list string) : list string :=
  match l with
  | [] => []
  | [x] => [f x]
  | x :: t => x :: map_last f t
  end.

Lemma split_cons (sep c : ascii) (r : string) :
  split sep (String c r) =
  if Ascii.eqb c sep then EmptyString :: split sep r
  else String c (hd EmptyString (split sep r)) :: tl (split sep r).
Proof.
  simpl. destruct (Ascii.eqb c sep); [reflexivity|].
  destruct (split sep r) eqn:E; [now apply split_nonempty in E | reflexivity].
Qed.

Lemma rstrip_cons (c : ascii) (r : string) :
  rstrip (String c r) =
  match rstrip r with
  | EmptyString => if isspace c then EmptyString else String c EmptyString
  | r' => String c r'
  end.
Proof. reflexivity. Qed.

Lemma split_single_empty (sep : ascii) (s : string) :
  split sep s = [EmptyString] -> s = EmptyString.
Proof.
  destruct s as [|c r]; [reflexivity|].
  rewrite split_cons. destruct (Ascii.eqb c sep); [|discriminate].
  intros H. injection H as H. now apply split_nonempty in H.
Qed.

Lemma map_last_cons (f : string -> string) (x : string) (t : list string) :
  t <> [] -> map_last f (x :: t) = x :: map_last f t.
Proof. destruct t; [congruence | reflexivity]. Qed.

Lemma split_rstrip (s : string) :
  split ":" (rstrip s) = map_last rstrip (split ":" s).
Proof.
  induction s as [|c r IH]; [reflexivity|].
  rewrite rstrip_cons, (split_cons ":" c r).
  destruct (split ":" r) as [|f t] eqn:Es; [now apply split_nonempty in Es|].
  cbn [hd tl].
  destruct (Ascii.eqb c ":") eqn:Hcol.
  - assert (Hc : isspace c = false).
    { destruct (isspace c) eqn:Hc; [|reflexivity].
      apply isspace_colon in Hc. congruence. }
    rewrite Hc, map_last_cons by discriminate.
    rewrite <- IH.
    destruct (rstrip r); rewrite split_cons, Hcol; reflexivity.
  - destruct t as [|f' t'].
    + cbn [map_last] in *. rewrite rstrip_cons.
      destruct (rstrip r) as [|c' r'] eqn:E.
      * cbn in IH. injection IH as IH. rewrite <- IH.
        destruct (isspace c); [reflexivity|].
        rewrite split_cons, Hcol. reflexivity.
      * rewrite split_cons, Hcol, IH. cbn [hd tl].
        destruct (rstrip f) eqn:Ef; [|reflexivity].
        apply split_single_empty in IH. discriminate.
    + rewrite map_last_cons by discriminate.
      rewrite map_last_cons in IH by discriminate.
      destruct (rstrip r) as [|c' r'] eqn:E.
      * cbn in IH. injection IH as _ IH. destruct t'; discriminate.
      * rewrite split_cons, Hcol, IH. reflexivity.
Qed.

(** ** parse_time: accepted and rejected texts *)

(** The two accepted shapes: a bare number, and fields separated by colons
    that are numbers each. *)
Definition bare_number (s : string) : Prop := float_of_str s <> None.
Definition colon_fields (s : string) : Prop :=
  forall p, In p (split ":" s) -> float_of_str p <> None.

Lemma colon_fields_ok (s : string) :
  colon_fields s <-> fields_ok (split ":" s) = true.
Proof.
  unfold colon_fields, fields_ok. rewrite forallb_forall.
  split; intros H p Hp; specialize (H p Hp);
    destruct (float_of_str p); congruence.
Qed.

Lemma parse_time_some (s : string) :
  parse_time (Some s) <> None
  <-> bare_number (strip s) \/ colon_fields (strip s).
Proof.
  rewrite colon_fields_ok, floats_of_fields_ok.
  unfold bare_number, parse_time.
  destruct (String.eqb (strip s) "") eqn:He.
  - apply String.eqb_eq in He. rewrite He.
    split; [congruence|]. intros [H|H]; exfalso; apply H; reflexivity.
  - destruct (float_of_str (strip s)) as [f|].
    + split; [intros _; left|]; congruence.
    + destruct (floats_of_fields (split ":" (strip s))) as [[|p [|q l]]|].
      * split; [intros _; right|]; congruence.
      * split; [intros _; right|]; congruence.
      * split; [intros _; right|]; congruence.
      * split; [congruence|]. intros [H|H]; congruence.
Qed.

(** ** What [float()] reads, and stripping *)

(** The characters of a decimal literal. *)
Definition numchar (c : ascii) : bool :=
  is_digit c || existsb (Ascii.eqb c) ["."; "_"; "e"; "E"; "+"; "-"]%char.

Definition nonspace (c : ascii) : bool := negb (isspace c).

Lemma numchar_nonspace (c : ascii) : numchar c = true -> nonspace c = true.
Proof.
  destruct c as [[] [] [] [] [] [] [] []]; cbn; intros H;
    try discriminate H; reflexivity.
Qed.

Lemma nonspace_lower (c : ascii) : nonspace (lower c) = nonspace c.
Proof. destruct c as [[] [] [] [] [] [] [] []]; reflexivity. Qed.

Lemma digit_numchar (c : ascii) (d : Z) : digit_val c = Some d -> numchar c = true.
Proof. intros H. unfold numchar, is_digit. rewrite H. reflexivity. Qed.

Lemma append_empty_r (s : string) : (s ++ "")%string = s.
Proof. induction s as [|c r IH]; cbn; [reflexivity | now rewrite IH]. Qed.

Lemma append_assoc (a b c : string) :
  ((a ++ b) ++ c)%string = (a ++ (b ++ c))%string.
Proof. induction a as [|x a IH]; cbn; [reflexivity | now rewrite IH]. Qed.

(** What a parser of a part of the literal took from the front of [s], [r]
    being what is left. *)
Definition took (s r : string) : Prop :=
  exists pre, s = (pre ++ r)%string /\ all_chars numchar pre = true.

Lemma took_refl (s : string) : took s s.
Proof. exists "". split; reflexivity. Qed.

Lemma took_cons (c : ascii) (s r : string) :
  numchar c = true -> took s r -> took (String c s) r.
Proof.
  intros Hc (pre & -> & Hp). exists (String c pre). split; [reflexivity|].
  cbn. rewrite Hc, Hp. reflexivity.
Qed.

Lemma took_trans (s r q : string) : took s r -> took r q -> took s q.
Proof.
  intros (p1 & -> & H1) (p2 & -> & H2). exists (p1 ++ p2)%string.
  split; [now rewrite append_assoc|].
  rewrite all_chars_app, H1, H2. reflexivity.
Qed.

Lemma took_all (s : string) : took s "" -> all_chars numchar s = true.
Proof. intros (pre & -> & H). now rewrite append_empty_r. Qed.

Lemma digits_tail_took (n : nat) (s : string) (acc cnt : Z) :
  (String.length s <= n)%nat -> took s (snd (digits_tail acc cnt s)).
Proof.
  revert s acc cnt. induction n as [|n IH]; intros s acc cnt Hlen.
  - destruct s; [apply took_refl | cbn in Hlen; lia].
  - destruct s as [|c r]; [apply took_refl|]. cbn [String.length] in Hlen.
    cbn [digits_tail]. destruct (digit_val c) as [d|] eqn:Hd.
    + apply took_cons; [exact (digit_numchar c d Hd)|]. apply IH. lia.
    + destruct (Ascii.eqb_spec c "_") as [->|Hu]; [|apply took_refl].
      destruct r as [|c' r']; [apply took_refl|].
      destruct (digit_val c') as [d'|] eqn:Hd'; [|apply took_refl].
      apply took_cons; [reflexivity|].
      apply took_cons; [exact (digit_numchar c' d' Hd')|].
      apply IH. cbn [String.length] in Hlen. lia.
Qed.

Lemma digitpart_took (s r : string) (acc cnt a k : Z) :
  digitpart acc cnt s = Some (a, k, r) -> took s r /\ s <> "".
Proof.
  destruct s as [|c s']; [discriminate|]. cbn [digitpart].
  destruct (digit_val c) as [d|] eqn:Hd; [|discriminate].
  intros H. split; [|discriminate].
  apply took_cons; [exact (digit_numchar c d Hd)|].
  apply (f_equal (fun o => match o with
                           | Some t => snd t
                           | None => EmptyString
                           end)) in H.
  cbn [snd] in H. rewrite <- H.
  apply (digits_tail_took (String.length s')). apply le_n.
Qed.

Lemma number_took (s r : string) (n k : Z) :
  number s = Some (n, k, r) -> took s r /\ s <> "".
Proof.
  unfold number.
  destruct (digitpart 0 0 s) as [[[a c] q]|] eqn:E.
  - destruct (digitpart_took _ _ _ _ _ _ E) as [H1 Hne].
    destruct q as [|x q']; [intros [= _ _ <-]; tauto|].
    destruct (Ascii.eqb_spec x ".") as [->|Hx].
    + destruct (digitpart a 0 q') as [[[a' k'] q'']|] eqn:E2.
      * intros [= _ _ <-]. split; [|exact Hne].
        destruct (digitpart_took _ _ _ _ _ _ E2) as [H2 _].
        apply (took_trans _ _ _ H1). apply took_cons; [reflexivity | exact H2].
      * intros [= _ _ <-]. split; [|exact Hne].
        apply (took_trans _ _ _ H1). apply took_cons; [reflexivity|].
        apply took_refl.
    + assert (Hr : match x with
                   | "."%char =>
                       match digitpart a 0 q' with
                       | Some (n', k0, r') => Some (n', k0, r')
                       | None => Some (a, 0, q')
                       end
                   | _ => Some (a, 0, String x q')
                   end = Some (a, 0, String x q')).
      { clear - Hx. destruct x as [[] [] [] [] [] [] [] []];
          try reflexivity. congruence. }
      rewrite Hr. intros [= _ _ <-]. tauto.
  - destruct s as [|x s']; [discriminate|].
    destruct (Ascii.eqb_spec x ".") as [->|Hx].
    + intros H. destruct (digitpart_took _ _ _ _ _ _ H) as [H1 _].
      split; [|discriminate]. apply took_cons; [reflexivity | exact H1].
    + intros H. exfalso. clear - Hx H.
      destruct x as [[] [] [] [] [] [] [] []]; try discriminate H. congruence.
Qed.

Lemma exponent_took (s r : string) (x : Z) :
  exponent s = Some (x, r) -> took s r.
Proof.
  destruct s as [|c s']; [intros [= _ <-]; apply took_refl|].
  cbn [exponent].
  destruct (Ascii.eqb c "e" || Ascii.eqb c "E") eqn:Ec;
    [|intros [= _ <-]; apply took_refl].
  assert (Hc : numchar c = true).
  { apply orb_true_iff in Ec.
    destruct Ec as [Ec|Ec]; apply Ascii.eqb_eq in Ec; subst c; reflexivity. }
  destruct s' as [|y s''].
  - discriminate.
  - destruct (Ascii.eqb_spec y "-") as [->|Hm];
      [|destruct (Ascii.eqb_spec y "+") as [->|Hp]].
    + destruct (digitpart 0 0 s'') as [[[a k] q]|] eqn:E; [|discriminate].
      intros [= _ <-]. destruct (digitpart_took _ _ _ _ _ _ E) as [H _].
      apply took_cons; [exact Hc|]. apply took_cons; [reflexivity | exact H].
    + destruct (digitpart 0 0 s'') as [[[a k] q]|] eqn:E; [|discriminate].
      intros [= _ <-]. destruct (digitpart_took _ _ _ _ _ _ E) as [H _].
      apply took_cons; [exact Hc|]. apply took_cons; [reflexivity | exact H].
    + assert (Hs : match y with
                   | "-"%char => (true, s'')
                   | "+"%char => (false, s'')
                   | _ => (false, String y s'')
                   end = (false, String y s'')).
      { clear - Hm Hp. destruct y as [[] [] [] [] [] [] [] []];
          try reflexivity; congruence. }
      rewrite Hs.
      destruct (digitpart 0 0 (String y s'')) as [[[a k] q]|] eqn:E;
        [|discriminate].
      intros [= _ <-]. destruct (digitpart_took _ _ _ _ _ _ E) as [H _].
      apply took_cons; [exact Hc | exact H].
Qed.

Lemma floatnumber_chars (s : string) (v : Z * Z) :
  floatnumber s = Some v -> all_chars numchar s = true /\ s <> "".
Proof.
  unfold floatnumber.
  destruct (number s) as [[[n k] r]|] eqn:En; [|discriminate].
  destruct (number_took _ _ _ _ En) as [H1 Hne].
  destruct (exponent r) as [[x q]|] eqn:Ee; [|discriminate].
  destruct q; [|discriminate]. intros _. split; [|exact Hne].
  apply took_all. apply (took_trans _ _ _ H1). exact (exponent_took _ _ _ Ee).
Qed.

Lemma lowercase_nonspace (s : string) :
  all_chars nonspace (lowercase s) = all_chars nonspace s.
Proof.
  induction s as [|c r IH]; [reflexivity|]. cbn [lowercase all_chars].
  rewrite nonspace_lower, IH. reflexivity.
Qed.

(** [float()] after its stripping. *)
Definition float_literal (t : string) : option float :=
  let '(neg, body) :=
    match t with
    | String "-" r => (true, r)
    | String "+" r => (false, r)
    | _ => (false, t)
    end in
  let l := lowercase body in
  if String.eqb l "inf" || String.eqb l "infinity" then Some (S754_infinity neg)
  else if String.eqb l "nan" then Some S754_nan
  else
    match floatnumber body with
    | Some (n, e10) => Some (decimal_to_float neg n e10)
    | None => None
    end.

Lemma float_of_str_literal (s : string) :
  float_of_str s = float_literal (num_strip s).
Proof. reflexivity. Qed.

Lemma float_literal_body (b : string) (neg : bool) (x : float) :
  (let l := lowercase b in
   if String.eqb l "inf" || String.eqb l "infinity" then Some (S754_infinity neg)
   else if String.eqb l "nan" then Some S754_nan
   else match floatnumber b with
        | Some (n, e10) => Some (decimal_to_float neg n e10)
        | None => None
        end) = Some x ->
  all_chars nonspace b = true /\ b <> "".
Proof.
  cbv zeta.
  destruct (String.eqb_spec (lowercase b) "inf") as [E|_].
  { intros _. rewrite <- lowercase_nonspace, E. split; [reflexivity|].
    intros ->. discriminate E. }
  destruct (String.eqb_spec (lowercase b) "infinity") as [E|_].
  { intros _. rewrite <- lowercase_nonspace, E. split; [reflexivity|].
    intros ->. discriminate E. }
  cbn [orb].
  destruct (String.eqb_spec (lowercase b) "nan") as [E|_].
  { intros _. rewrite <- lowercase_nonspace, E. split; [reflexivity|].
    intros ->. discriminate E. }
  destruct (floatnumber b) as [[n e10]|] eqn:E; [|discriminate].
  intros _. destruct (floatnumber_chars _ _ E) as [H Hne].
  split; [|exact Hne]. revert H. apply all_chars_impl, numchar_nonspace.
Qed.

(** A text [float()] accepts has, after its stripping, no white space of any
    kind. *)
Lemma float_literal_nonspace (t : string) (x : float) :
  float_literal t = Some x -> all_chars nonspace t = true /\ t <> "".
Proof.
  unfold float_literal.
  destruct t as [|c r].
  - intros H. apply (float_literal_body "" false x) in H. tauto.
  - destruct (Ascii.eqb_spec c "-") as [->|Hm];
      [|destruct (Ascii.eqb_spec c "+") as [->|Hp]].
    + intros H. apply (float_literal_body r true x) in H.
      split; [|discriminate]. cbn [all_chars]. destruct H as [-> _].
      reflexivity.
    + intros H. apply (float_literal_body r false x) in H.
      split; [|discriminate]. cbn [all_chars]. destruct H as [-> _].
      reflexivity.
    + assert (Hs : match c with
                   | "-"%char => (true, r)
                   | "+"%char => (false, r)
                   | _ => (false, String c r)
                   end = (false, String c r)).
      { clear - Hm Hp. destruct c as [[] [] [] [] [] [] [] []];
          try reflexivity; congruence. }
      rewrite Hs. intros H. apply (float_literal_body _ false x) in H. exact H.
Qed.

(** *** The two kinds of stripping *)

Lemma num_space_nonspace (c : ascii) : nonspace c = true -> num_space c = false.
Proof.
  unfold nonspace. intros H. destruct (num_space c) eqn:E; [|reflexivity].
  apply num_space_isspace in E. rewrite E in H. discriminate.
Qed.

Lemma rstrip_nonspace (s : string) : all_chars nonspace s = true -> rstrip s = s.
Proof.
  induction s as [|c r IH]; [reflexivity|]. cbn [all_chars]. intros H.
  apply andb_true_iff in H. destruct H as [Hc Hr].
  rewrite rstrip_cons, (IH Hr). unfold nonspace in Hc.
  apply negb_true_iff in Hc. rewrite Hc. destruct r; reflexivity.
Qed.

Lemma num_rstrip_nonspace (s : string) :
  all_chars nonspace s = true -> num_rstrip s = s.
Proof.
  induction s as [|c r IH]; [reflexivity|]. cbn [all_chars]. intros H.
  apply andb_true_iff in H. destruct H as [Hc Hr].
  cbn [num_rstrip]. rewrite (IH Hr), (num_space_nonspace c Hc).
  destruct r; reflexivity.
Qed.

Lemma num_rstrip_cons_nonspace (c : ascii) (s : string) :
  num_space c = false -> num_rstrip (String c s) = String c (num_rstrip s).
Proof. intros Hc. cbn. rewrite Hc. destruct (num_rstrip s); reflexivity. Qed.

(** [str.strip] removes what [float()] skips at the end, and more. *)
Lemma rstrip_num_rstrip (s : string) : rstrip (num_rstrip s) = rstrip s.
Proof.
  induction s as [|c r IH]; [reflexivity|].
  rewrite (rstrip_cons c r). cbn [num_rstrip].
  destruct (num_rstrip r) as [|c' r'] eqn:E.
  - cbn [rstrip] in IH. rewrite <- IH.
    destruct (num_space c) eqn:Hc.
    + rewrite (num_space_isspace c Hc). reflexivity.
    + reflexivity.
  - rewrite rstrip_cons, IH. reflexivity.
Qed.

Lemma num_lstrip_rstrip (s : string) :
  num_lstrip (rstrip s) = rstrip (num_lstrip s).
Proof.
  induction s as [|c r IH]; [reflexivity|].
  cbn [num_lstrip]. destruct (num_space c) eqn:Hc.
  - rewrite <- IH, rstrip_cons, (num_space_isspace c Hc).
    destruct (rstrip r); cbn [num_lstrip]; [reflexivity|].
    rewrite Hc. reflexivity.
  - rewrite rstrip_cons.
    destruct (rstrip r); [destruct (isspace c)|]; cbn [num_lstrip];
      try rewrite Hc; reflexivity.
Qed.

(** White space of [str.strip] in front of a text [float()] accepts is white
    space [float()] skips. *)
Lemma float_of_str_head (c : ascii) (r : string) (x : float) :
  isspace c = true ->
  float_of_str (String c r) = Some x -> float_of_str r = Some x.
Proof.
  intros Hc. rewrite !float_of_str_literal. unfold num_strip.
  cbn [num_lstrip]. destruct (num_space c) eqn:Hn; [tauto|].
  rewrite (num_rstrip_cons_nonspace c r Hn). intros H.
  apply float_literal_nonspace in H. destruct H as [H _].
  cbn [all_chars] in H. unfold nonspace at 1 in H. rewrite Hc in H.
  discriminate.
Qed.

Lemma float_of_str_lstrip (s : string) (x : float) :
  float_of_str s = Some x -> float_of_str (lstrip s) = Some x.
Proof.
  induction s as [|c r IH]; [tauto|]. cbn [lstrip].
  destruct (isspace c) eqn:Hc; [|tauto].
  intros H. apply IH. exact (float_of_str_head c r x Hc H).
Qed.

Lemma float_of_str_rstrip (s : string) (x : float) :
  float_of_str s = Some x -> float_of_str (rstrip s) = Some x.
Proof.
  rewrite !float_of_str_literal. unfold num_strip. intros H.
  destruct (float_literal_nonspace _ _ H) as [Hn _].
  rewrite num_lstrip_rstrip, <- rstrip_num_rstrip.
  rewrite (rstrip_nonspace _ Hn), (num_rstrip_nonspace _ Hn). exact H.
Qed.

(** A text [float()] accepts is accepted stripped, with the same value. *)
Lemma float_of_str_strip (s : string) (x : float) :
  float_of_str s = Some x -> float_of_str (strip s) = Some x.
Proof.
  intros H. unfold strip. apply float_of_str_rstrip, float_of_str_lstrip, H.
Qed.

Lemma fields_ok_lstrip (s : string) :
  fields_ok (split ":" s) = true -> fields_ok (split ":" (lstrip s)) = true.
Proof.
  induction s as [|c r IH]; [tauto|]. cbn [lstrip].
  destruct (isspace c) eqn:Hc; [|tauto].
  rewrite split_cons, (isspace_colon c Hc). intros H. apply IH.
  destruct (split ":" r) as [|f t] eqn:E; [now apply split_nonempty in E|].
  cbn [hd tl] in H. unfold fields_ok in *. cbn [forallb] in *.
  apply andb_true_iff in H. destruct H as [Hf Ht]. rewrite Ht, andb_true_r.
  destruct (float_of_str (String c f)) as [x|] eqn:Ef; [|discriminate].
  rewrite (float_of_str_head c f x Hc Ef). reflexivity.
Qed.

Lemma fields_ok_map_last_rstrip (l : list string) :
  fields_ok l = true -> fields_ok (map_last rstrip l) = true.
Proof.
  induction l as [|p t IH]; [tauto|].
  destruct t as [|q t'].
  - cbn. destruct (float_of_str p) as [x|] eqn:E; [|discriminate].
    rewrite (float_of_str_rstrip p x E). reflexivity.
  - rewrite map_last_cons by discriminate.
    unfold fields_ok in *. cbn [forallb] in *. intros H.
    apply andb_true_iff in H. destruct H as [Hp Ht].
    rewrite Hp. exact (IH Ht).
Qed.

Lemma fields_ok_strip (s : string) :
  fields_ok (split ":" s) = true -> fields_ok (split ":" (strip s)) = true.
Proof.
  intros H. unfold strip. rewrite split_rstrip.
  apply fields_ok_map_last_rstrip, fields_ok_lstrip, H.
Qed.

(** Either accepted shape is kept by stripping. *)
Lemma accepted_shape_strip (s : string) :
  bare_number s \/ colon_fields s ->
  bare_number (strip s) \/ colon_fields (strip s).
Proof.
  intros [H|H].
  - left. unfold bare_number in *.
    destruct (float_of_str s) as [x|] eqn:E; [|congruence].
    rewrite (float_of_str_strip s x E). discriminate.
  - right. apply colon_fields_ok, fields_ok_strip, colon_fields_ok, H.
Qed.


(** C3: [parse_time] returns [None] for [None], for a text that is empty or
    whitespace only, and for every text that, once stripped, is neither a bare
    number nor colon-separated fields that are numbers each; for every text of
    one of the two accepted shapes, as it is or stripped, it returns a seconds
    value. *)
Theorem parse_time_rejects_malformed :
  parse_time None = None
  /\ (forall s, strip s = "" -> parse_time (Some s) = None)
  /\ (forall s, ~ bare_number (strip s) -> ~ colon_fields (strip s) ->
                parse_time (Some s) = None)
  /\ (forall s, bare_number s \/ colon_fields s ->
                exists seconds, parse_time (Some s) = Some seconds)
  /\ (forall s, bare_number (strip s) \/ colon_fields (strip s) ->
                exists seconds, parse_time (Some s) = Some seconds).
Proof.
  assert (Hgood : forall s, bare_number (strip s) \/ colon_fields (strip s) ->
                            exists seconds, parse_time (Some s) = Some seconds).
  { intros s H. apply parse_time_some in H.
    destruct (parse_time (Some s)) as [f|]; [now exists f | congruence]. }
  split; [reflexivity|]. split; [|split; [|split]].
  - intros s Hs. unfold parse_time. rewrite Hs. reflexivity.
  - intros s Hb Hc.
    destruct (parse_time (Some s)) eqn:E; [|reflexivity].
    assert (H : parse_time (Some s) <> None) by congruence.
    apply parse_time_some in H. tauto.
  - intros s H. apply Hgood, accepted_shape_strip, H.
  - exact Hgood.
Qed.

(** A text with the separator U+001C in front: [str.strip] removes it,
    [float()] does not skip it. *)
Definition after_separator (s : string) : string := String (ascii_of_nat 28) s.

(** The text made of U+001C and the digit 5 is no number for [float()] and has
    no colon, so it has neither accepted shape; [parse_time] strips the
    separator and returns 5.0. *)
Lemma separator_before_number_is_accepted :
  ~ bare_number (after_separator "5")
  /\ ~ colon_fields (after_separator "5")
  /\ exists seconds,
       float_of_int 5 = Ok seconds
       /\ parse_time (Some (after_separator "5")) = Some seconds.
Proof.
  split; [|split].
  - intros H. apply H. reflexivity.
  - intros H. apply (H (after_separator "5")); [left|]; reflexivity.
  - eexists. split; reflexivity.
Qed.

(** ** The ffmpeg drivers: which commands run *)

(** The return code [run_subprocess] reports. *)
Definition exit_code (s : spawned) : Z :=
  match s with
  | Exited rc _ _ => rc
  | SpawnError _ => 1
  end.

(** The standard output and the standard error [run_subprocess] reports, and
    [err or out], the text a driver puts in its failure message. *)
Definition stdout_text (s : spawned) : string :=
  match s with
  | Exited _ out _ => opt_or_empty out
  | SpawnError _ => ""
  end.

Definition stderr_text (s : spawned) : string :=
  match s with
  | Exited _ _ err => opt_or_empty err
  | SpawnError msg => msg
  end.

Definition failure_text (s : spawned) : string :=
  str_or (stderr_text s) (stdout_text s).

(** A progress callback that returns and starts no process, as the worker's
    [_thread_safe_log] is. *)
Definition quiet (cb : option (string -> M unit)) : Prop :=
  match cb with
  | None => True
  | Some f =>
      forall msg st, snd (f msg st) = Ok tt /\ procs (fst (f msg st)) = procs st
  end.

Lemma thread_safe_log_quiet : quiet (Some _thread_safe_log).
Proof. intros msg st. split; reflexivity. Qed.

Section DriverFacts.
Context {RT : Runtime}.

Lemma progress_quiet cb msg st :
  quiet cb ->
  snd (progress cb msg st) = Ok tt
  /\ procs (fst (progress cb msg st)) = procs st.
Proof.
  destruct cb as [f|]; simpl; intros H; [apply H | split; reflexivity].
Qed.

Lemma run_subprocess_spec (c : cmd) (st : App) :
  exists out err,
    run_subprocess c st
    = (set_procs (procs st ++ [c]) st, Ok (exit_code (spawn (procs st) c), out, err)).
Proof.
  unfold run_subprocess.
  destruct (spawn (procs st) c) as [rc o e|m]; simpl; eauto.
Qed.

Lemma run_ffmpeg_palette_runs input start end_ fps width out wd cb st ss to :
  quiet cb ->
  format_time_seconds (Some start) = Ok ss ->
  format_time_seconds (Some end_) = Ok to ->
  let pal := path_join wd "palette.png" in
  let c1 := palette_cmd ss to input fps (scale_filter width) pal in
  let c2 := gif_cmd ss to input pal fps (scale_filter width) out in
  let rc1 := exit_code (spawn (procs st) c1) in
  let rc2 := exit_code (spawn (procs st ++ [c1]) c2) in
  let res := run_ffmpeg_palette input start end_ fps width out wd cb st in
  (rc1 <> 0 ->
     procs (fst res) = procs st ++ [c1]
     /\ exists msg, snd res = Ok (false, msg))
  /\ (rc1 = 0 -> rc2 <> 0 ->
     procs (fst res) = procs st ++ [c1; c2]
     /\ exists msg, snd res = Ok (false, msg))
  /\ (rc1 = 0 -> rc2 = 0 ->
     procs (fst res) = procs st ++ [c1; c2]
     /\ exists msg, snd res = Ok (true, msg)).
Proof.
  intros Hq Hss Hto pal c1 c2 rc1 rc2 res0.
  remember res0 as rr eqn:res. unfold res0 in res. clear res0.
  unfold run_ffmpeg_palette in res.
  rewrite Hss, Hto in res. unfold mbind, lift in res. cbn beta iota in res.
  fold pal c1 in res.
  set (m1 := ("Running palette generation:" ++ nl ++ show_cmd c1)%string) in res.
  destruct (progress_quiet cb m1 st Hq) as [Hr1 Hp1].
  destruct (progress cb m1 st) as [st1 r1] eqn:E1. simpl in Hr1, Hp1. subst r1.
  destruct (run_subprocess_spec c1 st1) as (o1 & e1 & R1).
  rewrite R1 in res. cbn beta iota in res. rewrite Hp1 in res. fold rc1 in res.
  destruct (Z.eqb_spec rc1 0) as [Hz|Hz].
  - cbn [negb] in res. fold c2 in res.
    set (m2 := ("Running palette use:" ++ nl ++ show_cmd c2)%string) in res.
    set (st2 := set_procs (procs st ++ [c1]) st1) in res.
    destruct (progress_quiet cb m2 st2 Hq) as [Hr2 Hp2].
    destruct (progress cb m2 st2) as [st3 r3] eqn:E3. simpl in Hr2, Hp2. subst r3.
    destruct (run_subprocess_spec c2 st3) as (o2 & e2 & R2).
    rewrite R2 in res. cbn beta iota in res. rewrite Hp2 in res.
    change (procs st2) with (procs st ++ [c1]) in res. fold rc2 in res.
    destruct (Z.eqb_spec rc2 0) as [Hz2|Hz2]; cbn [negb] in res;
      (split; [congruence|]); split; intros; try congruence;
      subst rr; cbn; rewrite <- app_assoc; split; eauto.
  - cbn [negb] in res. split; [|split; congruence].
    intros _. subst rr. cbn. eauto.
Qed.

Lemma run_ffmpeg_single_runs input start end_ fps width out cb st ss to :
  quiet cb ->
  format_time_seconds (Some start) = Ok ss ->
  format_time_seconds (Some end_) = Ok to ->
  let c := single_cmd ss to input fps (scale_filter width) out in
  let rc := exit_code (spawn (procs st) c) in
  let res := run_ffmpeg_single input start end_ fps width out cb st in
  procs (fst res) = procs st ++ [c]
  /\ exists msg, snd res = Ok (rc =? 0, msg).
Proof.
  intros Hq Hss Hto c rc res0.
  remember res0 as rr eqn:res. unfold res0 in res. clear res0.
  unfold run_ffmpeg_single in res.
  rewrite Hss, Hto in res. unfold mbind, lift in res. cbn beta iota in res.
  fold c in res.
  set (m1 := ("Running single-step command:" ++ nl ++ show_cmd c)%string) in res.
  destruct (progress_quiet cb m1 st Hq) as [Hr1 Hp1].
  destruct (progress cb m1 st) as [st1 r1] eqn:E1. simpl in Hr1, Hp1. subst r1.
  destruct (run_subprocess_spec c st1) as (o1 & e1 & R1).
  rewrite R1 in res. cbn beta iota in res. rewrite Hp1 in res. fold rc in res.
  destruct (Z.eqb_spec rc 0) as [Hz|Hz]; cbn [negb] in res; subst rr; cbn; eauto.
Qed.

Lemma run_subprocess_result (c : cmd) (st : App) :
  run_subprocess c st
  = (set_procs (procs st ++ [c]) st,
     Ok (exit_code (spawn (procs st) c), stdout_text (spawn (procs st) c),
         stderr_text (spawn (procs st) c))).
Proof.
  unfold run_subprocess. destruct (spawn (procs st) c); reflexivity.
Qed.

Lemma run_ffmpeg_palette_result input start end_ fps width out wd cb st ss to :
  quiet cb ->
  format_time_seconds (Some start) = Ok ss ->
  format_time_seconds (Some end_) = Ok to ->
  let pal := path_join wd "palette.png" in
  let c1 := palette_cmd ss to input fps (scale_filter width) pal in
  let c2 := gif_cmd ss to input pal fps (scale_filter width) out in
  let p1 := spawn (procs st) c1 in
  let p2 := spawn (procs st ++ [c1]) c2 in
  let res := run_ffmpeg_palette input start end_ fps width out wd cb st in
  (exit_code p1 <> 0 ->
     procs (fst res) = procs st ++ [c1]
     /\ snd res
        = Ok (false, ("Palette generation failed: " ++ failure_text p1)%string))
  /\ (exit_code p1 = 0 -> exit_code p2 <> 0 ->
     procs (fst res) = procs st ++ [c1; c2]
     /\ snd res
        = Ok (false,
              ("Palette-based gif creation failed: " ++ failure_text p2)%string))
  /\ (exit_code p1 = 0 -> exit_code p2 = 0 ->
     procs (fst res) = procs st ++ [c1; c2]
     /\ snd res = Ok (true, "GIF created successfully (palette method).")).
Proof.
  intros Hq Hss Hto pal c1 c2 p1 p2 res0.
  remember res0 as rr eqn:res. unfold res0 in res. clear res0.
  unfold run_ffmpeg_palette in res.
  rewrite Hss, Hto in res. unfold mbind, lift in res. cbn beta iota in res.
  fold pal c1 in res.
  set (m1 := ("Running palette generation:" ++ nl ++ show_cmd c1)%string) in res.
  destruct (progress_quiet cb m1 st Hq) as [Hr1 Hp1].
  destruct (progress cb m1 st) as [st1 r1] eqn:E1. simpl in Hr1, Hp1. subst r1.
  rewrite (run_subprocess_result c1 st1) in res. cbn beta iota in res.
  rewrite Hp1 in res. fold p1 in res.
  destruct (Z.eqb_spec (exit_code p1) 0) as [Hz|Hz].
  - cbn [negb] in res. fold c2 in res.
    set (m2 := ("Running palette use:" ++ nl ++ show_cmd c2)%string) in res.
    set (st2 := set_procs (procs st ++ [c1]) st1) in res.
    destruct (progress_quiet cb m2 st2 Hq) as [Hr2 Hp2].
    destruct (progress cb m2 st2) as [st3 r3] eqn:E3. simpl in Hr2, Hp2. subst r3.
    rewrite (run_subprocess_result c2 st3) in res. cbn beta iota in res.
    rewrite Hp2 in res.
    change (procs st2) with (procs st ++ [c1]) in res. fold p2 in res.
    destruct (Z.eqb_spec (exit_code p2) 0) as [Hz2|Hz2]; cbn [negb] in res;
      (split; [congruence|]); split; intros; try congruence;
      subst rr; cbn; rewrite <- app_assoc; split; reflexivity.
  - cbn [negb] in res. split; [|split; congruence].
    intros _. subst rr. cbn. split; reflexivity.
Qed.

Lemma run_ffmpeg_single_result input start end_ fps width out cb st ss to :
  quiet cb ->
  format_time_seconds (Some start) = Ok ss ->
  format_time_seconds (Some end_) = Ok to ->
  let c := single_cmd ss to input fps (scale_filter width) out in
  let p := spawn (procs st) c in
  let res := run_ffmpeg_single input start end_ fps width out cb st in
  procs (fst res) = procs st ++ [c]
  /\ snd res
     = Ok (if exit_code p =? 0
           then (true, "GIF created successfully (single-step method).")
           else (false,
                 ("Single-step GIF creation failed: " ++ failure_text p)%string)).
Proof.
  intros Hq Hss Hto c p res0.
  remember res0 as rr eqn:res. unfold res0 in res. clear res0.
  unfold run_ffmpeg_single in res.
  rewrite Hss, Hto in res. unfold mbind, lift in res. cbn beta iota in res.
  fold c in res.
  set (m1 := ("Running single-step command:" ++ nl ++ show_cmd c)%string) in res.
  destruct (progress_quiet cb m1 st Hq) as [Hr1 Hp1].
  destruct (progress cb m1 st) as [st1 r1] eqn:E1. simpl in Hr1, Hp1. subst r1.
  rewrite (run_subprocess_result c st1) in res. cbn beta iota in res.
  rewrite Hp1 in res. fold p in res.
  destruct (Z.eqb_spec (exit_code p) 0) as [Hz|Hz]; cbn [negb] in res;
    subst rr; cbn; split; reflexivity.
Qed.

(** X15: for start and end times that [format_time_seconds] writes as [ss] and
    [to], the palette method runs exactly two commands in sequence: palette
    generation ([palettegen], into [palette.png] in the work directory) and
    then the encode that uses that palette ([paletteuse], into the output
    file), the second only if the first returned 0.  A non-zero return code
    of either makes [run_ffmpeg_palette] return (False, message), the message
    naming the failed step and quoting what the command wrote, with no further
    command; two zero return codes make it return (True, message).  The
    single-step method runs exactly one command, with neither palette
    filter. *)
Theorem ffmpeg_invocations_in_sequence
    input start end_ fps width out wd cb st ss to :
  quiet cb ->
  format_time_seconds (Some start) = Ok ss ->
  format_time_seconds (Some end_) = Ok to ->
  let pal := path_join wd "palette.png" in
  let scale := scale_filter width in
  let c1 :=
    ["ffmpeg"; "-ss"; ss; "-to"; to; "-i"; input; "-vf";
     ("fps=" ++ str_of_int fps ++ "," ++ scale ++ ",palettegen")%string;
     "-y"; pal] in
  let c2 :=
    ["ffmpeg"; "-ss"; ss; "-to"; to; "-i"; input; "-i"; pal; "-lavfi";
     ("fps=" ++ str_of_int fps ++ "," ++ scale
      ++ " [x]; [x][1:v] paletteuse")%string;
     "-y"; out] in
  let c :=
    ["ffmpeg"; "-ss"; ss; "-to"; to; "-i"; input; "-vf";
     ("fps=" ++ str_of_int fps ++ "," ++ scale)%string; "-y"; out] in
  let p1 := spawn (procs st) c1 in
  let p2 := spawn (procs st ++ [c1]) c2 in
  let p := spawn (procs st) c in
  let res := run_ffmpeg_palette input start end_ fps width out wd cb st in
  let res1 := run_ffmpeg_single input start end_ fps width out cb st in
  (exit_code p1 <> 0 ->
     procs (fst res) = procs st ++ [c1]
     /\ snd res
        = Ok (false, ("Palette generation failed: " ++ failure_text p1)%string))
  /\ (exit_code p1 = 0 -> exit_code p2 <> 0 ->
     procs (fst res) = procs st ++ [c1; c2]
     /\ snd res
        = Ok (false,
              ("Palette-based gif creation failed: " ++ failure_text p2)%string))
  /\ (exit_code p1 = 0 -> exit_code p2 = 0 ->
     procs (fst res) = procs st ++ [c1; c2]
     /\ snd res = Ok (true, "GIF created successfully (palette method)."))
  /\ procs (fst res1) = procs st ++ [c]
  /\ snd res1
     = Ok (if exit_code p =? 0
           then (true, "GIF created successfully (single-step method).")
           else (false,
                 ("Single-step GIF creation failed: " ++ failure_text p)%string)).
Proof.
  intros Hq Hss Hto.
  pose proof (run_ffmpeg_palette_result input start end_ fps width out wd cb st
                ss to Hq Hss Hto) as (H1 & H2 & H3).
  pose proof (run_ffmpeg_single_result input start end_ fps width out cb st
                ss to Hq Hss Hto) as (H4 & H5).
  cbv zeta in *.
  split; [exact H1 | split; [exact H2 | split; [exact H3 | split;
    [exact H4 | exact H5]]]].
Qed.

End DriverFacts.

(** A runtime whose n-th command exits with the n-th code of [codes] (0 when
    the list is used up) and writes "boom" to its standard error. *)
Definition scripted (codes : list Z) : Runtime :=
  {| spawn := fun before _ =>
       Exited (nth (List.length before) codes 0) (Some "") (Some "boom");
     float_str := fun _ => "<float>";
     float_fmt3 := fun _ => "<float>" |}.

Definition float_90 : float := S754_finite false 6333186975989760 (-46).

(** Palette generation succeeds and the encode fails: two commands, and
    (False, message). *)
Lemma ffmpeg_invocations_in_sequence_witness :
  let RT := scripted [0; 1] in
  let res :=
    run_ffmpeg_palette "in.mp4" float_0 float_90 10 None "out.gif" "/tmp/w"
                       (Some _thread_safe_log) fresh_window in
  List.length (procs (fst res)) = 2%nat
  /\ snd res = Ok (false, "Palette-based gif creation failed: boom").
Proof.
  intros RT res.
  pose proof (@ffmpeg_invocations_in_sequence RT "in.mp4" float_0 float_90 10
                None "out.gif" "/tmp/w" (Some _thread_safe_log) fresh_window
                "00:00:00.000" "00:01:30.000" thread_safe_log_quiet
                eq_refl eq_refl) as (_ & H & _).
  destruct H as [Hp Hr]; [reflexivity | vm_compute; discriminate |].
  unfold res. split; [rewrite Hp; reflexivity | rewrite Hr; reflexivity].
Defined.

(** ** Finding the binaries *)

(** C10: [find_ffmpeg_binaries] reads the name [parent], which nothing binds:
    whenever the early return for binaries next to the script or executable
    is not taken it raises NameError instead of returning the system commands,
    and since the module calls it while it is loaded, the script fails before
    the window is built. *)
Theorem find_ffmpeg_binaries_raises_name_error (h : Host) :
  local_binaries_found h = false ->
  find_ffmpeg_binaries h = Raise (NameError "parent")
  /\ find_ffmpeg_binaries h <> Ok (binary_names h)
  /\ forall RT : Runtime, @run_script RT h = Raise (NameError "parent").
Proof.
  intros Hlocal.
  assert (H : find_ffmpeg_binaries h = Raise (NameError "parent")).
  { unfold find_ffmpeg_binaries, find_ffmpeg_binaries_in.
    rewrite Hlocal. reflexivity. }
  split; [exact H|]. split; [congruence|].
  intros RT. unfold run_script. rewrite H. reflexivity.
Qed.

(** A Linux host with no ffmpeg beside the script. *)
Lemma find_ffmpeg_binaries_raises_name_error_witness :
  let h := posix_host "/opt/app/video_to_gif_gui.py" ["/usr/bin/ffmpeg"] in
  find_ffmpeg_binaries h = Raise (NameError "parent")
  /\ find_ffmpeg_binaries h <> Ok (binary_names h)
  /\ forall RT : Runtime, @run_script RT h = Raise (NameError "parent").
Proof.
  intros h. apply (find_ffmpeg_binaries_raises_name_error h). reflexivity.
Defined.

(** With the binaries beside the script the name is never read. *)
Lemma find_ffmpeg_binaries_local (h : Host) :
  local_binaries_found h = true ->
  find_ffmpeg_binaries h
  = Ok (os_path_join h (exe_dir h) (fst (binary_names h)),
        os_path_join h (exe_dir h) (snd (binary_names h))).
Proof.
  intros Hlocal. unfold find_ffmpeg_binaries, find_ffmpeg_binaries_in.
  rewrite Hlocal. reflexivity.
Qed.

(** ** The worker and the lock *)

Section WorkerFacts.
Context {RT : Runtime}.

Lemma worker_finally_spec (a : WorkerArgs) (st : App) :
  exists st',
    worker_finally a st = (st', Ok tt)
    /\ lock_held st' = false
    /\ tempdirs st'
       = filter (fun d => negb (String.eqb d (w_workdir a))) (tempdirs st)
    /\ procs st' = procs st
    /\ dialogs st' = dialogs st
    /\ log_text st' = log_text st ++ ["Cleaned temporary files."].
Proof.
  eexists. split; [reflexivity|]. cbn. repeat split; reflexivity.
Qed.

Lemma try_finally_worker (a : WorkerArgs) (body : M unit) (st : App) :
  let st1 := fst (body st) in
  let st2 := fst (try_finally body (worker_finally a) st) in
  snd (try_finally body (worker_finally a) st) = snd (body st)
  /\ lock_held st2 = false
  /\ tempdirs st2
     = filter (fun d => negb (String.eqb d (w_workdir a))) (tempdirs st1)
  /\ procs st2 = procs st1
  /\ dialogs st2 = dialogs st1
  /\ log_text st2 = log_text st1 ++ ["Cleaned temporary files."].
Proof.
  unfold try_finally. destruct (body st) as [st1 r].
  destruct (worker_finally_spec a st1) as (st' & E & H).
  rewrite E. cbn. auto.
Qed.

Lemma export_worker_free (a : WorkerArgs) (st : App) :
  lock_held st = false ->
  _export_worker a st
  = try_finally (worker_body a) (worker_finally a) (set_lock_held true st).
Proof.
  intros H. unfold _export_worker, mbind, acquire_nonblocking. rewrite H.
  reflexivity.
Qed.

Lemma export_worker_busy (a : WorkerArgs) (st : App) :
  lock_held st = true ->
  _export_worker a st
  = (set_log_text (log_text st ++ [busy_message]) st, Ok tt).
Proof.
  intros H. unfold _export_worker, mbind, acquire_nonblocking. rewrite H.
  reflexivity.
Qed.

End WorkerFacts.

(** ** Validation in [on_export] *)

Lemma read_fps_bounds (app : App) (n : Z) :
  read_fps app = Some n -> 1 <= n <= 60.
Proof.
  unfold read_fps. destruct (fps_var app) as [k|]; [|discriminate].
  destruct (1 <=? k) eqn:E1; destruct (k <=? 60) eqn:E2; simpl;
    try discriminate.
  intros [= <-]. lia.
Qed.

Lemma read_width_bounds (s : string) (w : Z) :
  read_width s = Some (Some w) -> 0 < w.
Proof.
  unfold read_width. destruct (String.eqb s ""); [discriminate|].
  destruct (int_of_str s) as [k|]; [|discriminate].
  destruct (k <=? 0) eqn:E; [discriminate|].
  intros [= <-]. lia.
Qed.

(** What a call of [on_export] that starts no worker may have shown. *)
Definition alert (d : dialog) : Prop := d_kind d = Warning \/ d_kind d = Error.

Section OnExportFacts.
Context {RT : Runtime}.

Ltac explode :=
  repeat match goal with
         | |- context [match ?x with _ => _ end] => destruct x eqn:?
         end.

Lemma on_export_spec (answer fresh : string) (app : App) :
  exists app' o,
    on_export answer fresh app = (app', Ok o)
    /\ lock_held app' = lock_held app
    /\ procs app' = procs app
    /\ cursor_busy app' = cursor_busy app
    /\ match o with
       | None =>
           log_text app' = log_text app
           /\ tempdirs app' = tempdirs app
           /\ (dialogs app' = dialogs app
               \/ exists d, alert d /\ dialogs app' = dialogs app ++ [d])
       | Some a =>
           dialogs app' = dialogs app
           /\ tempdirs app' = tempdirs app ++ [fresh]
           /\ w_workdir a = fresh
           /\ log_text app'
              = log_text app ++ [rstrip ("Working directory: " ++ fresh)]
           /\ 1 <= fps (w_opts a) <= 60
           /\ match width (w_opts a) with
              | Some w => 0 < w
              | None => True
              end
           /\ fle (w_end a) (w_start a) = false
       end.
Proof.
  unfold on_export.
  cbv beta zeta delta [mbind ret showerror showwarning messagebox modify
                       mkdtemp log].
  explode; try discriminate;
    do 2 eexists; (split; [reflexivity|]); cbn;
    repeat match goal with
           | H : read_fps _ = Some _ |- _ => apply read_fps_bounds in H
           | H : read_width _ = Some (Some _) |- _ => apply read_width_bounds in H
           end;
    repeat split; auto; try lia;
    try (right; eexists; split; [|reflexivity]; unfold alert; cbn; auto).
  all: match goal with
       | H : read_width _ = Some ?o |- _ =>
           destruct o; [apply read_width_bounds in H; exact H | exact I]
       end.
Qed.

End OnExportFacts.

(** ** One export at a time *)





Section Exclusion.
Context {RT : Runtime}.




End Exclusion.

(** ** Cleaning up, and failures *)

(** A window ready to export [in.mp4] to [out.gif] at 10 frames per second,
    with the given texts in the start and end fields. *)
Definition ready_window (start_text end_text : string) : App :=
  mkApp true (Some "in.mp4") None start_text end_text (Ok 10) "" "palette"
        "out.gif" ["Ready."] [] false false [] [].

Section CleanupFacts.
Context {RT : Runtime}.

(** X16: the temporary directory [on_export] creates for an export is gone
    when a worker that got the lock finishes, whatever the external commands
    returned and even if the guarded block raised, and the lock is free again
    afterwards. *)
Theorem workdir_removed_and_lock_released
    (answer fresh : string) (app app1 : App) (a : WorkerArgs) :
  on_export answer fresh app = (app1, Ok (Some a)) ->
  In (w_workdir a) (tempdirs app1)
  /\ forall st,
       lock_held st = false ->
       let st' := fst (_export_worker a st) in
       ~ In (w_workdir a) (tempdirs st') /\ lock_held st' = false.
Proof.
  intros E.
  destruct (on_export_spec answer fresh app) as (app' & o & E' & _ & _ & _ & H).
  rewrite E in E'. injection E' as <- <-.
  destruct H as (_ & Ht & Hw & _).
  split.
  - rewrite Ht, Hw. apply in_or_app. right. left. reflexivity.
  - intros st Hl st'. unfold st'. rewrite (export_worker_free a st Hl).
    destruct (try_finally_worker a (worker_body a) (set_lock_held true st))
      as (_ & Hl' & Ht' & _).
    split; [|exact Hl'].
    rewrite Ht'. intros Hin. apply filter_In in Hin. destruct Hin as [_ Hin].
    rewrite String.eqb_refl in Hin. discriminate.
Qed.

End CleanupFacts.

(** An export whose palette generation fails. *)
Lemma workdir_removed_and_lock_released_witness :
  let RT := scripted [1] in
  let r := on_export "" "/tmp/v2g_work_1" (ready_window "0" "5") in
  match snd r with
  | Ok (Some a) =>
      In (w_workdir a) (tempdirs (fst r))
      /\ ~ In (w_workdir a) (tempdirs (fst (_export_worker a (fst r))))
      /\ lock_held (fst (_export_worker a (fst r))) = false
  | _ => False
  end.
Proof.
  intros RT r.
  destruct r as [app1 [[a|]|e]] eqn:E; vm_compute in E; try discriminate.
  destruct (@workdir_removed_and_lock_released RT "" "/tmp/v2g_work_1"
              (ready_window "0" "5") app1 a) as [H1 H2].
  - vm_compute. rewrite <- E. reflexivity.
  - simpl. split; [exact H1|]. apply H2. injection E as <- _. reflexivity.
Defined.

(** C9: two clicks on Export in a row, each making its work directory.  The
    worker of the second click finds the lock taken by the first and returns
    at once, before the [try] block whose [finally] removes the directory:
    its directory is still there when it has returned, and still there after
    the first worker has run to its end and released the lock. *)
Lemma busy_worker_never_removes_its_workdir :
  let RT := scripted [] in
  let r1 := on_export "" "/tmp/v2g_work_1" (ready_window "0" "5") in
  let r2 := on_export "" "/tmp/v2g_work_2" (fst r1) in
  exists a1 a2,
    snd r1 = Ok (Some a1)
    /\ snd r2 = Ok (Some a2)
    /\ w_workdir a2 = "/tmp/v2g_work_2"
    /\ (let taken := fst (acquire_nonblocking (fst r2)) in
        let turned_away := _export_worker a2 taken in
        let ended :=
          try_finally (worker_body a1) (worker_finally a1) (fst turned_away) in
        lock_held taken = true
        /\ snd turned_away = Ok tt
        /\ In (w_workdir a2) (tempdirs (fst turned_away))
        /\ snd ended = Ok tt
        /\ lock_held (fst ended) = false
        /\ tempdirs (fst ended) = [w_workdir a2]).
Proof.
  intros RT r1 r2.
  destruct r1 as [app1 [[a1|]|e1]] eqn:E1; vm_compute in E1; try discriminate.
  injection E1 as <- <-.
  destruct r2 as [app2 [[a2|]|e2]] eqn:E2; vm_compute in E2; try discriminate.
  injection E2 as <- <-.
  do 2 eexists. split; [reflexivity|]. split; [reflexivity|].
  vm_compute. repeat split; try reflexivity. right. left. reflexivity.
Qed.

(** The end time [on_export] uses: the end field, or the duration of the video
    when the field is no time. *)
Definition resolved_end (app : App) : option float :=
  match parse_time (Some (end_var app)) with
  | Some e => Some e
  | None => duration app
  end.

(** What [on_export] refuses: missing tools, no input file, a start or end
    that is no time, an end not after the start, a frame rate or a width that
    is no number within bounds. *)
Definition invalid_input (app : App) : Prop :=
  ffmpeg_ok app = false
  \/ input_path app = None
  \/ input_path app = Some ""
  \/ parse_time (Some (start_var app)) = None
  \/ resolved_end app = None
  \/ (exists s e, parse_time (Some (start_var app)) = Some s
                  /\ resolved_end app = Some e /\ fle e s = true)
  \/ read_fps app = None
  \/ read_width (strip (width_var app)) = None.

Section FailureFacts.
Context {RT : Runtime}.

Ltac explode :=
  repeat match goal with
         | |- context [match ?x with _ => _ end] => destruct x eqn:?
         end.





End FailureFacts.


(** A start field holding "nan" passes the range check of [on_export]: the
    worker is started although the end is not greater than the start. *)
Lemma on_export_accepts_nan_start :
  let RT := scripted [] in
  let r := on_export "" "/tmp/v2g_work_1" (ready_window "nan" "10") in
  exists a,
    snd r = Ok (Some a)
    /\ w_start a = S754_nan
    /\ SFltb (w_start a) (w_end a) = false
    /\ dialogs (fst r) = [].
Proof. eexists. vm_compute. repeat split; reflexivity. Qed.

(** C4: an end field holding "inf" passes every check of [on_export], and
    neither driver can write that end time as a clock text: [math.floor]
    raises OverflowError in [format_time_seconds], so the driver raises
    instead of returning (success, message), and no command is run, neither
    the two of the palette method nor the one of the single-step method. *)
Lemma infinite_end_runs_no_command :
  let RT := scripted [] in
  let r := on_export "" "/tmp/v2g_work_1" (ready_window "0" "inf") in
  exists a,
    snd r = Ok (Some a)
    /\ dialogs (fst r) = []
    /\ w_end a = S754_infinity false
    /\ (let res :=
          run_ffmpeg_palette (w_input_path a) (w_start a) (w_end a)
            (fps (w_opts a)) (width (w_opts a)) (w_out_path a) (w_workdir a)
            (Some _thread_safe_log) (fst r) in
        snd res = Raise OverflowError /\ procs (fst res) = [])
    /\ (let res :=
          run_ffmpeg_single (w_input_path a) (w_start a) (w_end a)
            (fps (w_opts a)) (width (w_opts a)) (w_out_path a)
            (Some _thread_safe_log) (fst r) in
        snd res = Raise OverflowError /\ procs (fst res) = []).
Proof.
  intros RT r.
  destruct r as [app1 [[a|]|e]] eqn:E; vm_compute in E; try discriminate.
  injection E as <- <-. eexists. split; [reflexivity|].
  vm_compute. repeat split; reflexivity.
Qed.

(** ** Binary64 rounding *)

Module B64.

(** A float is measured in ticks of [2^-scale] seconds, fine enough for every
    finite binary64 value and for the exact products the code forms. *)
Definition scale : Z := 2200.

(** The value of a non-negative float, in ticks. *)
Definition ticks (x : float) : Z :=
  match x with
  | S754_finite false m e => Zpos m * 2 ^ (e + scale)
  | _ => 0
  end.

(** A valid float that is zero or positive. *)
Definition nonneg (x : float) : Prop :=
  valid_binary prec emax x = true
  /\ match x with
     | S754_zero _ | S754_finite false _ _ => True
     | _ => False
     end.

(** A number of ticks some non-negative float has. *)
Definition representable (t : Z) : Prop :=
  t = 0
  \/ exists m e, 0 < m < 2 ^ 53 /\ -1074 <= e <= 971 /\ t = m * 2 ^ (e + scale).

Lemma pow2_pos (n : Z) : 0 <= n -> 0 < 2 ^ n.
Proof. intros. apply Z.pow_pos_nonneg; lia. Qed.

Lemma pow2_split (a b : Z) : 0 <= a <= b -> 2 ^ b = 2 ^ (b - a) * 2 ^ a.
Proof.
  intros H. rewrite <- Z.pow_add_r by lia. f_equal. lia.
Qed.

Lemma pow2_le (a b : Z) : 0 <= a <= b -> 2 ^ a <= 2 ^ b.
Proof. intros. apply Z.pow_le_mono_r; lia. Qed.

Lemma pow2_lt (a b : Z) : 0 <= a < b -> 2 ^ a < 2 ^ b.
Proof. intros. apply Z.pow_lt_mono_r; lia. Qed.

(** [digits2_pos] counts binary digits. *)
Lemma digits2_bounds (p : positive) :
  2 ^ (Zpos (digits2_pos p) - 1) <= Zpos p < 2 ^ Zpos (digits2_pos p).
Proof.
  induction p as [p IH|p IH|]; cbn [digits2_pos]; [| |cbn; lia].
  all: rewrite Pos2Z.inj_succ;
    replace (Z.succ (Zpos (digits2_pos p)) - 1) with (Zpos (digits2_pos p)) by lia;
    rewrite Z.pow_succ_r by lia;
    pose proof (pow2_split 1 (Zpos (digits2_pos p)) ltac:(lia)) as Hs;
    change (2 ^ 1) with 2 in Hs; lia.
Qed.

Lemma digits_unique (m d : Z) :
  0 < d -> 2 ^ (d - 1) <= m < 2 ^ d -> Zdigits2 m = d.
Proof.
  intros Hd [Hlo Hhi].
  assert (Hm : 0 < m) by (pose proof (pow2_pos (d - 1)); lia).
  destruct m as [|p|p]; try lia. cbn [Zdigits2].
  pose proof (digits2_bounds p) as [Hl Hh].
  set (k := Zpos (digits2_pos p)) in *.
  assert (0 < k) by (unfold k; lia).
  destruct (Z.lt_trichotomy k d) as [Hlt|[Heq|Hgt]]; [|exact Heq|].
  - pose proof (pow2_le k (d - 1)). lia.
  - pose proof (pow2_le d (k - 1)). lia.
Qed.

(** *** Shifting right with round and sticky bits *)

Lemma iter_pos_nat {A : Type} (f : A -> A) (p : positive) (x : A) :
  SpecFloat.iter_pos f p x = Nat.iter (Pos.to_nat p) f x.
Proof.
  revert x. induction p as [p IH|p IH|]; intros x; cbn [SpecFloat.iter_pos].
  - rewrite !IH, Pos2Nat.inj_xI.
    replace (S (2 * Pos.to_nat p)) with (Pos.to_nat p + (Pos.to_nat p + 1))%nat by lia.
    rewrite !Nat.iter_add. reflexivity.
  - rewrite !IH, Pos2Nat.inj_xO.
    replace (2 * Pos.to_nat p)%nat with (Pos.to_nat p + Pos.to_nat p)%nat by lia.
    rewrite Nat.iter_add. reflexivity.
  - reflexivity.
Qed.

Lemma shr_1_spec (m : Z) (r s : bool) :
  0 <= m ->
  shr_1 (Build_shr_record m r s)
  = Build_shr_record (m / 2) (Z.odd m) (r || s).
Proof.
  intros Hm. destruct m as [|[p|p|]|p]; try lia; cbn [shr_1]; f_equal.
  - rewrite Pos2Z.inj_xI. apply Z.div_unique with 1; lia.
  - rewrite Pos2Z.inj_xO. apply Z.div_unique with 0; lia.
Qed.

(** After [n] shifts the mantissa is the quotient by [2^n], and both bits are
    clear when the division was exact. *)
Lemma shr_iter_spec (n : nat) (m : Z) :
  0 <= m ->
  let rec := Nat.iter n shr_1 (Build_shr_record m false false) in
  shr_m rec = m / 2 ^ Z.of_nat n
  /\ (m mod 2 ^ Z.of_nat n = 0 -> shr_r rec = false /\ shr_s rec = false).
Proof.
  intros Hm. induction n as [|n IH].
  - cbn. rewrite Z.div_1_r. auto.
  - cbv zeta in *. rewrite Nat.iter_succ.
    destruct (Nat.iter n shr_1 (Build_shr_record m false false)) as [q r s].
    cbn [shr_m shr_r shr_s] in IH. destruct IH as [Hq Hrs].
    assert (Hpow : 0 < 2 ^ Z.of_nat n) by (apply pow2_pos; lia).
    assert (Hq0 : 0 <= q) by (subst q; apply Z.div_pos; lia).
    rewrite shr_1_spec by exact Hq0. cbn [shr_m shr_r shr_s].
    rewrite Nat2Z.inj_succ, Z.pow_succ_r by lia.
    split.
    + subst q. rewrite Z.div_div by lia. f_equal. lia.
    + intros Hmod.
      assert (Hdiv : m = 2 * 2 ^ Z.of_nat n * (m / (2 * 2 ^ Z.of_nat n))).
      { pose proof (Z.div_mod m (2 * 2 ^ Z.of_nat n) ltac:(lia)). lia. }
      set (c := m / (2 * 2 ^ Z.of_nat n)) in *.
      assert (Hm' : m = 2 ^ Z.of_nat n * (2 * c)) by lia.
      assert (Hmod' : m mod 2 ^ Z.of_nat n = 0).
      { rewrite Hm', Z.mul_comm. apply Z.mod_mul. lia. }
      destruct (Hrs Hmod') as [-> ->].
      assert (Hqc : q = 2 * c).
      { subst q. rewrite Hm' at 1. rewrite Z.mul_comm. apply Z.div_mul. lia. }
      rewrite Hqc, Z.odd_mul. auto.
Qed.

Lemma shr_fexp_noshift (m e : Z) :
  fexp prec emax (Zdigits2 m + e) - e <= 0 ->
  shr_fexp prec emax m e loc_Exact = (Build_shr_record m false false, e).
Proof.
  intros H. unfold shr_fexp, shr. cbn [shr_record_of_loc].
  destruct (fexp prec emax (Zdigits2 m + e) - e); try reflexivity; lia.
Qed.

Lemma shr_fexp_shift (m e n : Z) :
  0 <= m -> n = fexp prec emax (Zdigits2 m + e) - e -> 0 < n ->
  exists r s,
    shr_fexp prec emax m e loc_Exact
    = (Build_shr_record (m / 2 ^ n) r s, e + n)
    /\ (m mod 2 ^ n = 0 -> r = false /\ s = false).
Proof.
  intros Hm Hn Hpos. unfold shr_fexp, shr. cbn [shr_record_of_loc].
  rewrite <- Hn. destruct n as [|p|p]; try lia.
  rewrite iter_pos_nat.
  pose proof (shr_iter_spec (Pos.to_nat p) m Hm) as H. cbv zeta in H.
  rewrite positive_nat_Z in H.
  destruct (Nat.iter (Pos.to_nat p) shr_1 (Build_shr_record m false false))
    as [q r s].
  cbn [shr_m shr_r shr_s] in H. destruct H as [-> H].
  exists r, s. split; [reflexivity | exact H].
Qed.

Lemma round_nearest_even_cases (q : Z) (r s : bool) :
  let m1 := round_nearest_even q (loc_of_shr_record (Build_shr_record q r s)) in
  (m1 = q \/ m1 = q + 1) /\ (r = false -> s = false -> m1 = q).
Proof.
  destruct r, s; cbn; try destruct (Z.even q); split; auto; discriminate.
Qed.

Definition fexp64 (e : Z) : Z := Z.max (e - 53) (-1074).

Lemma fexp_eq (e : Z) : fexp prec emax e = fexp64 e.
Proof. reflexivity. Qed.

(** The second half of [binary_round_aux]: the rounded mantissa is shifted
    once more if rounding carried into a 54th digit, then classified. *)
Definition finish (s : bool) (m1 e1 : Z) : float :=
  let '(mrs, e) := shr_fexp prec emax m1 e1 loc_Exact in
  match shr_m mrs with
  | Z0 => S754_zero s
  | Zpos m => if e <=? emax - prec then S754_finite s m e else S754_infinity s
  | Zneg _ => S754_nan
  end.

Lemma binary_round_aux_finish (s : bool) (mx ex : Z) :
  binary_round_aux prec emax s mx ex loc_Exact
  = let '(mrs, e) := shr_fexp prec emax mx ex loc_Exact in
    finish s (round_nearest_even (shr_m mrs) (loc_of_shr_record mrs)) e.
Proof.
  unfold binary_round_aux, finish.
  destruct (shr_fexp prec emax mx ex loc_Exact) as [mrs e]. reflexivity.
Qed.

(** [r] is the float of sign [s] with [t] ticks, or an infinity for a [t]
    beyond the largest float. *)
Definition rounds_to (s : bool) (r : float) (t : Z) : Prop :=
  match r with
  | S754_zero s' => s' = s /\ t = 0
  | S754_finite s' m e =>
      s' = s /\ bounded prec emax m e = true /\ Zpos m * 2 ^ (e + scale) = t
  | S754_infinity s' => s' = s /\ 2 ^ (1024 + scale) <= t
  | S754_nan => False
  end.

Lemma finish_canonical (s : bool) (m : positive) (e : Z) :
  -scale <= e ->
  e = fexp64 (Zdigits2 (Zpos m) + e) ->
  rounds_to s (finish s (Zpos m) e) (Zpos m * 2 ^ (e + scale)).
Proof.
  intros Hs He. unfold finish.
  rewrite shr_fexp_noshift by (rewrite fexp_eq; lia).
  cbn [shr_m]. change (emax - prec) with 971.
  destruct (Z.leb_spec e 971) as [Hle|Hgt]; cbn [rounds_to].
  - split; [reflexivity|]. split; [|reflexivity].
    unfold bounded, canonical_mantissa. rewrite fexp_eq.
    change (Zpos (digits2_pos m)) with (Zdigits2 (Zpos m)).
    rewrite <- He, Z.eqb_refl. change (emax - prec) with 971.
    apply Z.leb_le in Hle. rewrite Hle. reflexivity.
  - split; [reflexivity|].
    unfold fexp64 in He. unfold scale in *.
    assert (Hd : Zdigits2 (Zpos m) = 53) by lia.
    pose proof (digits2_bounds m) as [Hlo _].
    change (Zpos (digits2_pos m)) with (Zdigits2 (Zpos m)) in Hlo.
    rewrite Hd in Hlo. change (53 - 1) with 52 in Hlo.
    pose proof (pow2_le (972 + 2200) (e + 2200) ltac:(lia)) as Hp.
    rewrite (pow2_split (972 + 2200) (1024 + 2200)) by lia.
    change (1024 + 2200 - (972 + 2200)) with 52.
    apply Z.mul_le_mono_nonneg; try lia;
      try (apply Z.lt_le_incl, pow2_pos; lia).
Qed.

Lemma finish_zero (s : bool) (e : Z) :
  rounds_to s (finish s 0 e) 0.
Proof.
  unfold finish, shr_fexp, shr. cbn [shr_record_of_loc Zdigits2].
  destruct (fexp prec emax (0 + e) - e) as [|p|p]; cbn [shr_m rounds_to];
    auto.
  rewrite iter_pos_nat.
  pose proof (shr_iter_spec (Pos.to_nat p) 0 ltac:(lia)) as [H _].
  rewrite Z.div_0_l in H
    by (apply Z.neq_sym, Z.lt_neq, pow2_pos; lia).
  rewrite H. cbn. auto.
Qed.

(** Rounding a 53-digit mantissa up may give [2^53]: the same value at the
    next exponent. *)
Lemma finish_carry (s : bool) (e : Z) :
  -1074 <= e ->
  rounds_to s (finish s (2 ^ 53) e) (2 ^ 53 * 2 ^ (e + scale)).
Proof.
  intros He. unfold finish, shr_fexp, shr. cbn [shr_record_of_loc].
  change (Zdigits2 (2 ^ 53)) with 54. rewrite fexp_eq. unfold fexp64.
  replace (Z.max (54 + e - 53) (-1074) - e) with 1 by lia.
  cbn [SpecFloat.iter_pos]. change (shr_m _) with (2 ^ 52).
  change (2 ^ 52) with (Zpos (2 ^ 52)) at 1. cbv iota.
  change (emax - prec) with 971.
  assert (Hv : Zpos (2 ^ 52) * 2 ^ (e + 1 + scale) = 2 ^ 53 * 2 ^ (e + scale)).
  { replace (e + 1 + scale) with (Z.succ (e + scale)) by lia.
    rewrite Z.pow_succ_r by (unfold scale; lia).
    change (2 ^ 53) with (Zpos (2 ^ 52) * 2). lia. }
  destruct (Z.leb_spec (e + 1) 971) as [Hle|Hgt]; cbn [rounds_to].
  - split; [reflexivity|]. split; [|exact Hv].
    unfold bounded, canonical_mantissa. rewrite fexp_eq. unfold fexp64.
    change (Zpos (digits2_pos (2 ^ 52))) with 53.
    replace (Z.max (53 + (e + 1) - 53) (-1074)) with (e + 1) by lia.
    rewrite Z.eqb_refl. change (emax - prec) with 971.
    apply Z.leb_le in Hle. rewrite Hle. reflexivity.
  - split; [reflexivity|]. rewrite <- Hv. unfold scale in *.
    pose proof (pow2_le (972 + 2200) (e + 1 + 2200) ltac:(lia)) as Hp.
    rewrite (pow2_split (972 + 2200) (1024 + 2200)) by lia.
    change (1024 + 2200 - (972 + 2200)) with 52.
    change (Zpos (2 ^ 52)) with (2 ^ 52).
    apply Z.mul_le_mono_nonneg; try lia;
      try (apply Z.lt_le_incl, pow2_pos; lia).
Qed.

Lemma digits_le (m k : Z) : 0 < m < 2 ^ k -> 0 <= k -> Zdigits2 m <= k.
Proof.
  intros [Hm Hk] Hk0. destruct m as [|p|p]; try lia. cbn [Zdigits2].
  pose proof (digits2_bounds p) as [Hlo _].
  destruct (Z.le_gt_cases (Zpos (digits2_pos p)) k) as [H|H]; [exact H|].
  pose proof (pow2_le k (Zpos (digits2_pos p) - 1) ltac:(lia)). lia.
Qed.

(** What [binary_round_aux] returns for an exact input [mx * 2^ex] that needs
    no shift to the left: with [g] the spacing of the floats around the input,
    the multiple of [g] just below the input or the next one, and the input
    itself when it is a multiple of [g]. *)
Lemma binary_round_aux_result (s : bool) (mx : positive) (ex : Z) :
  -scale <= ex ->
  ex <= fexp64 (Zdigits2 (Zpos mx) + ex) ->
  let e1 := fexp64 (Zdigits2 (Zpos mx) + ex) in
  let n := e1 - ex in
  let q := Zpos mx / 2 ^ n in
  exists m1,
    (m1 = q \/ (m1 = q + 1 /\ Zpos mx mod 2 ^ n <> 0))
    /\ (-1074 < e1 -> 2 ^ 52 <= q)
    /\ rounds_to s (binary_round_aux prec emax s (Zpos mx) ex loc_Exact)
                 (m1 * 2 ^ (e1 + scale)).
Proof.
  intros Hs Hex e1 n q. rewrite binary_round_aux_finish.
  pose proof (digits2_bounds mx) as [Hdlo Hdhi].
  change (Zpos (digits2_pos mx)) with (Zdigits2 (Zpos mx)) in Hdlo, Hdhi.
  set (d := Zdigits2 (Zpos mx)) in *.
  assert (Hd : 0 < d) by (unfold d; cbn; lia).
  destruct (Z.eq_dec n 0) as [Hn0|Hn0].
  - rewrite shr_fexp_noshift by (rewrite fexp_eq; fold d e1; lia).
    cbn [shr_m loc_of_shr_record round_nearest_even].
    assert (Hq : q = Zpos mx).
    { unfold q. rewrite Hn0. cbn. rewrite Z.div_1_r. reflexivity. }
    exists (Zpos mx). split; [left; congruence|]. split.
    + intros He1. rewrite Hq. unfold e1, fexp64 in *.
      replace (d - 1) with 52 in Hdlo by lia. exact Hdlo.
    + replace e1 with ex by lia. apply finish_canonical; [exact Hs|].
      fold d e1. lia.
  - assert (Hn : 0 < n) by (unfold n in *; lia).
    destruct (shr_fexp_shift (Zpos mx) ex n ltac:(lia)) as (r0 & s0 & E & Hflags);
      [rewrite fexp_eq; reflexivity | exact Hn |].
    rewrite E. cbn [shr_m]. fold q.
    pose proof (round_nearest_even_cases q r0 s0) as [Hcases Hexact].
    cbv zeta in Hcases, Hexact.
    set (m1 := round_nearest_even q (loc_of_shr_record (Build_shr_record q r0 s0))) in *.
    replace (ex + n) with e1 by (unfold n; lia).
    assert (Hq0 : 0 <= q) by (apply Z.div_pos; [lia | apply pow2_pos; lia]).
    exists m1. split.
    { destruct Hcases as [H|H]; [left; exact H | right; split; [exact H|]].
      intros Hmod. destruct (Hflags Hmod) as [-> ->].
      specialize (Hexact eq_refl eq_refl). lia. }
    assert (Hpn : 0 < 2 ^ n) by (apply pow2_pos; lia).
    unfold fexp64 in e1.
    assert (Hbig : -1074 < e1 -> 2 ^ 52 <= q).
    { intros He1. unfold q. apply Z.div_le_lower_bound; [lia|].
      rewrite Z.mul_comm, <- Z.pow_add_r by lia.
      replace (52 + n) with (d - 1) by (unfold n, e1 in *; lia). exact Hdlo. }
    split; [exact Hbig|].
    destruct (Z.le_gt_cases (-1074) (d + ex - 53)) as [Hnorm|Hsub].
    + (* normal range: the quotient has 53 digits *)
      assert (He1 : e1 = d + ex - 53) by (unfold e1; lia).
      assert (Hnd : n = d - 53) by (unfold n; lia).
      assert (Hq : 2 ^ 52 <= q < 2 ^ 53).
      { unfold q. split.
        - apply Z.div_le_lower_bound; [lia|].
          rewrite Z.mul_comm, <- Z.pow_add_r by lia.
          replace (52 + n) with (d - 1) by lia. exact Hdlo.
        - apply Z.div_lt_upper_bound; [lia|].
          rewrite <- Z.pow_add_r by lia.
          replace (n + 53) with d by lia. exact Hdhi. }
      destruct (Z.eq_dec m1 (2 ^ 53)) as [Hc|Hc].
      * rewrite Hc. apply finish_carry. lia.
      * assert (Hm1 : 2 ^ 52 <= m1 < 2 ^ 53) by lia.
        destruct m1 as [|p1|p1] eqn:Em1; try lia.
        apply finish_canonical; [unfold scale in *; lia|].
        rewrite (digits_unique (Zpos p1) 53) by lia.
        unfold fexp64. lia.
    + (* subnormal range: the spacing is that of the smallest floats *)
      assert (He1 : e1 = -1074) by (unfold e1; lia).
      assert (Hq : q < 2 ^ 52).
      { unfold q. apply Z.div_lt_upper_bound; [lia|].
        rewrite <- Z.pow_add_r by lia.
        pose proof (pow2_le d (n + 52) ltac:(unfold n; lia)). lia. }
      destruct m1 as [|p1|p1] eqn:Em1; try lia.
      * rewrite Z.mul_0_l. apply finish_zero.
      * rewrite He1. apply finish_canonical; [unfold scale; lia|].
        pose proof (digits_le (Zpos p1) 53 ltac:(lia) ltac:(lia)).
        assert (0 < Zdigits2 (Zpos p1)) by (cbn; lia).
        unfold fexp64. lia.
Qed.

(** A representable number of ticks is a multiple of a given spacing, or lies
    below the floats that have this spacing. *)
Lemma representable_grid (t e1 : Z) :
  representable t -> -1074 <= e1 ->
  (exists a, 0 <= a /\ t = a * 2 ^ (e1 + scale))
  \/ (-1074 < e1 /\ 0 <= t < 2 ^ 52 * 2 ^ (e1 + scale)).
Proof.
  intros [->|(m & e & Hm & He & ->)] He1.
  - left. exists 0. lia.
  - destruct (Z.le_gt_cases e1 e) as [Hge|Hlt].
    + left. exists (m * 2 ^ (e - e1)). split.
      * pose proof (pow2_pos (e - e1) ltac:(lia)). nia.
      * rewrite <- Z.mul_assoc, <- Z.pow_add_r by (unfold scale; lia).
        do 2 f_equal. lia.
    + right. split; [lia|]. unfold scale in *.
      pose proof (pow2_pos (e + 2200) ltac:(lia)) as Hp.
      split; [nia|].
      replace (e1 + 2200) with (Z.succ (e1 - 1 + 2200)) by lia.
      rewrite Z.pow_succ_r by lia.
      pose proof (pow2_le (e + 2200) (e1 - 1 + 2200) ltac:(lia)) as Hle.
      change (2 ^ 53) with (2 ^ 52 * 2) in Hm. nia.
Qed.

Lemma representable_below_overflow (t : Z) :
  representable t -> t < 2 ^ (1024 + scale).
Proof.
  intros [->|(m & e & Hm & He & ->)].
  - apply pow2_pos. unfold scale. lia.
  - unfold scale in *.
    rewrite (pow2_split (e + 2200) (1024 + 2200)) by lia.
    pose proof (pow2_pos (e + 2200) ltac:(lia)) as Hp.
    pose proof (pow2_le 53 (1024 + 2200 - (e + 2200)) ltac:(lia)) as Hle.
    nia.
Qed.

(** [r] has sign [s] and between [a] and [b] ticks. *)
Definition within (s : bool) (r : float) (a b : Z) : Prop :=
  valid_binary prec emax r = true
  /\ ((r = S754_zero s /\ a <= 0 <= b)
      \/ exists m e, r = S754_finite s m e
                     /\ a <= Zpos m * 2 ^ (e + scale) <= b).

(** Rounding stays between any two floats that enclose the exact value. *)
Lemma binary_round_aux_sandwich (s : bool) (mx : positive) (ex a b : Z) :
  -scale <= ex ->
  ex <= fexp64 (Zdigits2 (Zpos mx) + ex) ->
  representable a -> representable b ->
  a <= Zpos mx * 2 ^ (ex + scale) <= b ->
  within s (binary_round_aux prec emax s (Zpos mx) ex loc_Exact) a b.
Proof.
  intros Hs Hex Ha Hb [Hlo Hhi].
  destruct (binary_round_aux_result s mx ex Hs Hex) as (m1 & Hm1 & Hbig & Hr).
  set (e1 := fexp64 (Zdigits2 (Zpos mx) + ex)) in *.
  set (n := e1 - ex) in *.
  set (q := Zpos mx / 2 ^ n) in *.
  assert (He1 : -1074 <= e1) by (unfold e1, fexp64; lia).
  assert (Hn : 0 <= n) by (unfold n; lia).
  set (u := 2 ^ (ex + scale)) in *.
  set (g := 2 ^ (e1 + scale)) in *.
  assert (Hu : 0 < u) by (apply pow2_pos; lia).
  assert (Hpn : 0 < 2 ^ n) by (apply pow2_pos; lia).
  assert (Hg : g = 2 ^ n * u).
  { unfold g, u. rewrite <- Z.pow_add_r by lia. f_equal. unfold n. lia. }
  pose proof (Z.div_mod (Zpos mx) (2 ^ n) ltac:(lia)) as Hdm. fold q in Hdm.
  pose proof (Z.mod_pos_bound (Zpos mx) (2 ^ n) Hpn) as Hrem.
  set (rem := Zpos mx mod 2 ^ n) in *.
  assert (Hq0 : 0 <= q) by (apply Z.div_pos; lia).
  assert (Hv : Zpos mx * u = q * g + rem * u) by (rewrite Hg; lia).
  assert (Hremu : 0 <= rem * u < g) by (rewrite Hg; nia).
  assert (Hrange : a <= m1 * g <= b).
  { split.
    - apply Z.le_trans with (q * g); [|destruct Hm1 as [->|[-> _]]; nia].
      destruct (representable_grid a e1 Ha He1) as [(a' & Ha0 & ->)|[Hgt Hsmall]].
      + assert (a' < q + 1) by nia. nia.
      + specialize (Hbig Hgt). fold g in Hsmall. nia.
    - destruct Hm1 as [->|[-> Hne]]; [lia|].
      assert (Hremp : 0 < rem * u) by nia.
      destruct (representable_grid b e1 Hb He1) as [(b' & Hb0 & ->)|[Hgt Hsmall]].
      + assert (q < b') by nia. nia.
      + specialize (Hbig Hgt). fold g in Hsmall. nia. }
  pose proof (representable_below_overflow b Hb) as Hov.
  unfold within.
  destruct (binary_round_aux prec emax s (Zpos mx) ex loc_Exact)
    as [s'|s'|?|s' m e]; cbn [rounds_to] in Hr.
  - destruct Hr as [-> Hz]. split; [reflexivity|]. left. split; [reflexivity|lia].
  - destruct Hr as [_ Hinf]. lia.
  - contradiction.
  - destruct Hr as (-> & Hbd & Hval). split; [exact Hbd|]. right.
    exists m, e. split; [reflexivity|lia].
Qed.

Lemma iter_xO (m d : positive) :
  Zpos (Pos.iter xO m d) = Zpos m * 2 ^ Zpos d.
Proof.
  rewrite Pos2Nat.inj_iter, <- (positive_nat_Z d).
  induction (Pos.to_nat d) as [|k IH].
  - cbn. lia.
  - cbn [nat_rect]. rewrite Pos2Z.inj_xO, IH, Nat2Z.inj_succ, Z.pow_succ_r by lia.
    lia.
Qed.

(** [shl_align] keeps the value and brings the exponent down to [e']. *)
Lemma shl_align_spec (mx : positive) (ex e' : Z) :
  let '(mz, ez) := shl_align mx ex e' in
  ez = Z.min ex e' /\ Zpos mz = Zpos mx * 2 ^ (ex - ez).
Proof.
  unfold shl_align. destruct (e' - ex) as [|p|p] eqn:E.
  - split; [lia|]. replace (ex - ex) with 0 by lia. cbn. lia.
  - split; [lia|]. replace (ex - ex) with 0 by lia. cbn. lia.
  - split; [lia|]. rewrite iter_xO. do 2 f_equal. lia.
Qed.

Lemma digits_mul_pow2 (m : positive) (k : Z) :
  0 <= k -> Zdigits2 (Zpos m * 2 ^ k) = Zdigits2 (Zpos m) + k.
Proof.
  intros Hk. pose proof (digits2_bounds m) as [Hlo Hhi].
  change (Zpos (digits2_pos m)) with (Zdigits2 (Zpos m)) in *.
  set (d := Zdigits2 (Zpos m)) in *.
  assert (0 < d) by (unfold d; cbn; lia).
  pose proof (pow2_pos k Hk) as Hp.
  apply digits_unique; [lia|].
  replace (d + k - 1) with (d - 1 + k) by lia.
  rewrite !Z.pow_add_r by lia. nia.
Qed.

Lemma binary_round_sandwich (s : bool) (mx : positive) (ex a b : Z) :
  -scale <= ex ->
  representable a -> representable b ->
  a <= Zpos mx * 2 ^ (ex + scale) <= b ->
  within s (binary_round prec emax s mx ex) a b.
Proof.
  intros Hs Ha Hb Hab. unfold binary_round. rewrite fexp_eq.
  change (Zpos (digits2_pos mx)) with (Zdigits2 (Zpos mx)).
  set (e' := fexp64 (Zdigits2 (Zpos mx) + ex)).
  pose proof (shl_align_spec mx ex e') as Hal.
  destruct (shl_align mx ex e') as [mz ez]. destruct Hal as [Hez Hmz].
  assert (He' : -1074 <= e') by (unfold e', fexp64; lia).
  assert (Hsc : -scale <= ez) by (unfold scale in *; lia).
  assert (Hval : Zpos mz * 2 ^ (ez + scale) = Zpos mx * 2 ^ (ex + scale)).
  { rewrite Hmz, <- Z.mul_assoc, <- Z.pow_add_r by lia. do 2 f_equal. lia. }
  apply binary_round_aux_sandwich; try assumption; [|rewrite Hval; exact Hab].
  rewrite Hmz, digits_mul_pow2 by lia.
  replace (Zdigits2 (Zpos mx) + (ex - ez) + ez) with (Zdigits2 (Zpos mx) + ex)
    by lia.
  fold e'. lia.
Qed.

(** *** The operations on non-negative floats *)

(** [x] is a non-negative float with between [a] and [b] ticks. *)
Definition between (x : float) (a b : Z) : Prop :=
  nonneg x /\ a <= ticks x <= b.

Lemma within_between (r : float) (a b : Z) :
  within false r a b -> between r a b.
Proof.
  intros [Hv [[-> H]|(m & e & -> & H)]]; unfold between, nonneg;
    cbn [ticks]; auto.
Qed.

Lemma nonneg_exponent (s : bool) (m : positive) (e : Z) :
  valid_binary prec emax (S754_finite s m e) = true ->
  -1074 <= e <= 971 /\ Zpos m < 2 ^ 53
  /\ e = fexp64 (Zdigits2 (Zpos m) + e).
Proof.
  cbn [valid_binary]. unfold bounded, canonical_mantissa. intros Hv.
  apply andb_true_iff in Hv. destruct Hv as [Hc Hb].
  apply Z.eqb_eq in Hc. apply Z.leb_le in Hb. rewrite fexp_eq in Hc.
  change (emax - prec) with 971 in Hb.
  change (Zpos (digits2_pos m)) with (Zdigits2 (Zpos m)) in Hc.
  pose proof (digits2_bounds m) as [_ Hhi].
  change (Zpos (digits2_pos m)) with (Zdigits2 (Zpos m)) in Hhi.
  unfold fexp64 in *.
  assert (Hd : Zdigits2 (Zpos m) <= 53) by lia.
  assert (0 < Zdigits2 (Zpos m)) by (cbn; lia).
  pose proof (pow2_le (Zdigits2 (Zpos m)) 53 ltac:(lia)).
  assert (Hm : Zpos m < 2 ^ 53) by lia.
  repeat split; try lia.
Qed.

Lemma representable_ticks (x : float) : nonneg x -> representable (ticks x).
Proof.
  intros [Hv Hx]. destruct x as [s|s| |[] m e]; try contradiction;
    try (left; reflexivity).
  right. exists (Zpos m), e. cbn [ticks].
  destruct (nonneg_exponent _ _ _ Hv) as (He & Hm & _).
  split; [lia|]. split; [lia|reflexivity].
Qed.

Lemma ticks_nonneg (x : float) : 0 <= ticks x.
Proof.
  destruct x as [s|s| |[] m e]; cbn [ticks]; lia.
Qed.

Lemma valid_zero (s : bool) : nonneg (S754_zero s).
Proof. split; [reflexivity | exact I]. Qed.

Lemma between_zero (s : bool) (a b : Z) :
  a <= 0 <= b -> between (S754_zero s) a b.
Proof. intros H. split; [apply valid_zero | exact H]. Qed.

Lemma between_self (x : float) (a b : Z) :
  nonneg x -> a <= ticks x <= b -> between x a b.
Proof. intros Hx H. split; assumption. Qed.

Lemma ticks_finite_pos (m : positive) (e : Z) :
  -scale <= e -> 0 < ticks (S754_finite false m e).
Proof.
  intros He. cbn [ticks]. pose proof (pow2_pos (e + scale) ltac:(lia)). nia.
Qed.

Lemma aligned_ticks (mx : positive) (ex ez : Z) :
  -scale <= ez -> ez <= ex ->
  Zpos (fst (shl_align mx ex ez)) * 2 ^ (ez + scale)
  = Zpos mx * 2 ^ (ex + scale).
Proof.
  intros Hs Hle. pose proof (shl_align_spec mx ex ez) as H.
  destruct (shl_align mx ex ez) as [mz e']. destruct H as [He' Hmz].
  cbn [fst]. rewrite Hmz, He', <- Z.mul_assoc, <- Z.pow_add_r by lia.
  do 2 f_equal. lia.
Qed.

(** Addition of non-negative floats. *)
Lemma fadd_sandwich (x y : float) (a b : Z) :
  nonneg x -> nonneg y ->
  representable a -> representable b ->
  a <= ticks x + ticks y <= b ->
  between (fadd x y) a b.
Proof.
  intros Hx Hy Ha Hb Hab.
  destruct x as [sx|sx| |[] mx ex]; try (now destruct Hx as [_ []]);
    destruct y as [sy|sy| |[] my ey]; try (now destruct Hy as [_ []]).
  - cbn [ticks] in Hab. destruct sx, sy; apply between_zero; exact Hab.
  - unfold fadd; cbn [SFadd].
    apply between_self; [exact Hy | cbn [ticks] in *; lia].
  - unfold fadd; cbn [SFadd].
    apply between_self; [exact Hx | cbn [ticks] in *; lia].
  - destruct Hx as [Hvx _], Hy as [Hvy _].
    destruct (nonneg_exponent _ _ _ Hvx) as (Hex & _).
    destruct (nonneg_exponent _ _ _ Hvy) as (Hey & _).
    unfold fadd, SFadd. cbn [cond_Zopp].
    set (ez := Z.min ex ey).
    assert (Hs : -scale <= ez) by (unfold scale, ez; lia).
    pose proof (aligned_ticks mx ex ez Hs ltac:(unfold ez; lia)) as H1.
    pose proof (aligned_ticks my ey ez Hs ltac:(unfold ez; lia)) as H2.
    rewrite <- Pos2Z.inj_add. cbn [binary_normalize].
    apply within_between, binary_round_sandwich; try assumption.
    rewrite Pos2Z.inj_add, Z.mul_add_distr_r, H1, H2. exact Hab.
Qed.

(** Subtraction of a smaller non-negative float. *)
Lemma fsub_sandwich (x y : float) (a b : Z) :
  nonneg x -> nonneg y -> ticks y <= ticks x ->
  representable a -> representable b ->
  a <= ticks x - ticks y <= b ->
  between (fsub x y) a b.
Proof.
  intros Hx Hy Hle Ha Hb Hab.
  destruct x as [sx|sx| |[] mx ex]; try (now destruct Hx as [_ []]);
    destruct y as [sy|sy| |[] my ey]; try (now destruct Hy as [_ []]).
  - cbn [ticks] in Hab. destruct sx, sy; apply between_zero; exact Hab.
  - destruct Hy as [Hvy _]. destruct (nonneg_exponent _ _ _ Hvy) as (Hey & _).
    pose proof (ticks_finite_pos my ey ltac:(unfold scale; lia)).
    cbn [ticks] in *. lia.
  - unfold fsub; cbn [SFsub].
    apply between_self; [exact Hx | cbn [ticks] in *; lia].
  - destruct Hx as [Hvx _], Hy as [Hvy _].
    destruct (nonneg_exponent _ _ _ Hvx) as (Hex & _).
    destruct (nonneg_exponent _ _ _ Hvy) as (Hey & _).
    unfold fsub, SFsub. cbn [cond_Zopp].
    set (ez := Z.min ex ey).
    assert (Hs : -scale <= ez) by (unfold scale, ez; lia).
    pose proof (aligned_ticks mx ex ez Hs ltac:(unfold ez; lia)) as H1.
    pose proof (aligned_ticks my ey ez Hs ltac:(unfold ez; lia)) as H2.
    cbn [ticks] in Hle, Hab. rewrite <- H1, <- H2 in Hle, Hab.
    rewrite <- Z.mul_sub_distr_r in Hab.
    pose proof (pow2_pos (ez + scale) ltac:(lia)) as Hp.
    destruct (Zpos (fst (shl_align mx ex ez)) - Zpos (fst (shl_align my ey ez)))
      as [|p|p] eqn:E; cbn [binary_normalize].
    + apply between_zero. lia.
    + apply within_between, binary_round_sandwich; assumption.
    + exfalso. nia.
Qed.

Lemma digits_mul_lower (mx my : positive) :
  Zdigits2 (Zpos mx) + Zdigits2 (Zpos my) - 1 <= Zdigits2 (Zpos (mx * my)).
Proof.
  pose proof (digits2_bounds mx) as [Hx _].
  pose proof (digits2_bounds my) as [Hy _].
  pose proof (digits2_bounds (mx * my)) as [_ Hxy].
  cbn [Zdigits2].
  set (dx := Zpos (digits2_pos mx)) in *.
  set (dy := Zpos (digits2_pos my)) in *.
  set (d := Zpos (digits2_pos (mx * my))) in *.
  destruct (Z.le_gt_cases (dx + dy - 1) d) as [H|H]; [exact H|exfalso].
  assert (0 < d) by (unfold d; lia).
  pose proof (pow2_le d (dx - 1 + (dy - 1)) ltac:(unfold dx, dy in *; lia)) as Hp.
  rewrite Z.pow_add_r in Hp by (unfold dx, dy; lia).
  pose proof (pow2_pos (dx - 1) ltac:(unfold dx; lia)).
  pose proof (pow2_pos (dy - 1) ltac:(unfold dy; lia)).
  rewrite Pos2Z.inj_mul in Hxy. nia.
Qed.

(** Multiplication of non-negative floats. *)
Lemma fmul_sandwich (x y : float) (a b : Z) :
  nonneg x -> nonneg y ->
  representable a -> representable b ->
  a * 2 ^ scale <= ticks x * ticks y <= b * 2 ^ scale ->
  between (fmul x y) a b.
Proof.
  intros Hx Hy Ha Hb Hab.
  pose proof (pow2_pos scale ltac:(unfold scale; lia)) as Hsc.
  destruct x as [sx|sx| |[] mx ex]; try (now destruct Hx as [_ []]);
    destruct y as [sy|sy| |[] my ey]; try (now destruct Hy as [_ []]);
    try (cbn [ticks] in Hab; apply between_zero; nia).
  destruct Hx as [Hvx _], Hy as [Hvy _].
  destruct (nonneg_exponent _ _ _ Hvx) as (Hex & _ & Hcx).
  destruct (nonneg_exponent _ _ _ Hvy) as (Hey & _ & Hcy).
  unfold fmul, SFmul. cbn [xorb].
  apply within_between, binary_round_aux_sandwich; try assumption.
  - unfold scale. lia.
  - pose proof (digits_mul_lower mx my) as Hd.
    assert (0 < Zdigits2 (Zpos mx)) by (cbn; lia).
    assert (0 < Zdigits2 (Zpos my)) by (cbn; lia).
    unfold fexp64 in *. lia.
  - cbn [ticks] in Hab.
    assert (Hv : Zpos mx * 2 ^ (ex + scale) * (Zpos my * 2 ^ (ey + scale))
                 = Zpos (mx * my) * 2 ^ (ex + ey + scale) * 2 ^ scale).
    { rewrite Pos2Z.inj_mul.
      assert (Hp : 2 ^ (ex + ey + scale) * 2 ^ scale
                   = 2 ^ (ex + scale) * 2 ^ (ey + scale)).
      { rewrite <- !Z.pow_add_r by (unfold scale; lia). f_equal. lia. }
      transitivity (Zpos mx * Zpos my * (2 ^ (ex + ey + scale) * 2 ^ scale));
        [rewrite Hp|]; ring. }
    rewrite Hv in Hab. nia.
Qed.

(** [float(n)] is exact when [n] is a float. *)
Lemma float_of_int_exact (n : Z) :
  0 <= n -> representable (n * 2 ^ scale) ->
  exists f, float_of_int n = Ok f
            /\ between f (n * 2 ^ scale) (n * 2 ^ scale).
Proof.
  intros Hn Hr. unfold float_of_int.
  destruct n as [|p|p]; try lia.
  - exists (S754_zero false). split; [reflexivity|].
    apply between_zero. lia.
  - cbn [binary_normalize].
    pose proof (binary_round_sandwich false p 0 _ _ ltac:(unfold scale; lia)
                  Hr Hr) as Hw.
    rewrite Z.add_0_l in Hw. specialize (Hw ltac:(lia)).
    pose proof (within_between _ _ _ Hw) as Hb.
    destruct Hw as [_ [[E _]|(m & e & E & _)]]; rewrite E in *;
      eexists; split; try reflexivity; exact Hb.
Qed.

(** [math.floor] and [int] on a non-negative float: whole units of ticks. *)
Lemma units_of_ticks (m : positive) (e : Z) :
  -scale <= e ->
  (if 0 <=? e then Zpos m * 2 ^ e else Zpos m / 2 ^ (- e))
  = Zpos m * 2 ^ (e + scale) / 2 ^ scale.
Proof.
  intros He.
  assert (Hs0 : 0 <= scale) by (unfold scale; lia).
  pose proof (pow2_pos scale Hs0) as Hsc.
  destruct (Z.leb_spec 0 e) as [H|H].
  - rewrite Z.pow_add_r, Z.mul_assoc, Z.div_mul by lia. reflexivity.
  - rewrite (pow2_split (e + scale) scale) by lia.
    replace (scale - (e + scale)) with (- e) by lia.
    pose proof (pow2_pos (e + scale) ltac:(lia)).
    rewrite Z.div_mul_cancel_r by lia. reflexivity.
Qed.

Lemma floor_ticks (x : float) :
  nonneg x -> floor x = Ok (ticks x / 2 ^ scale).
Proof.
  intros [Hv Hx]. destruct x as [s|s| |[] m e]; try contradiction.
  - reflexivity.
  - destruct (nonneg_exponent _ _ _ Hv) as (He & _).
    cbn [floor ticks]. rewrite units_of_ticks by (unfold scale; lia).
    reflexivity.
Qed.

Lemma int_of_float_ticks (x : float) :
  nonneg x -> int_of_float x = Ok (ticks x / 2 ^ scale).
Proof.
  intros [Hv Hx]. destruct x as [s|s| |[] m e]; try contradiction.
  - reflexivity.
  - destruct (nonneg_exponent _ _ _ Hv) as (He & _).
    cbn [int_of_float ticks]. rewrite units_of_ticks by (unfold scale; lia).
    reflexivity.
Qed.

(** *** Whole seconds and milliseconds *)

Definition unit_ticks : Z := 2 ^ scale.

Lemma unit_ticks_pos : 0 < unit_ticks.
Proof. apply pow2_pos. unfold scale. lia. Qed.

Lemma representable_int (n : Z) :
  0 <= n < 2 ^ 53 -> representable (n * unit_ticks).
Proof.
  intros H. destruct (Z.eq_dec n 0) as [->|Hn]; [left; reflexivity|].
  right. exists n, 0. repeat split; try lia.
Qed.

(** The whole seconds of a non-negative float are a float. *)
Lemma floor_representable (x : float) :
  nonneg x -> representable (ticks x / unit_ticks * unit_ticks).
Proof.
  intros Hx. pose proof unit_ticks_pos as Hu.
  destruct x as [s|s| |[] m e]; try (now destruct Hx as [_ []]).
  - left. reflexivity.
  - destruct Hx as [Hv _].
    destruct (nonneg_exponent _ _ _ Hv) as (He & Hm & _).
    cbn [ticks]. unfold unit_ticks in *.
    rewrite <- units_of_ticks by (unfold scale; lia).
    destruct (Z.leb_spec 0 e) as [H|H].
    + right. exists (Zpos m), e. repeat split; try lia.
      rewrite Z.pow_add_r by (unfold scale; lia). ring.
    + pose proof (pow2_pos (- e) ltac:(lia)) as Hp.
      assert (Hq : 0 <= Zpos m / 2 ^ (- e) <= Zpos m).
      { split; [apply Z.div_pos; lia|].
        apply Z.div_le_upper_bound; [lia|]. nia. }
      apply representable_int. lia.
Qed.

(** The fraction of a second of a non-negative float is a float. *)
Lemma frac_representable (x : float) :
  nonneg x -> representable (ticks x mod unit_ticks).
Proof.
  intros Hx. pose proof unit_ticks_pos as Hu.
  destruct x as [s|s| |[] m e]; try (now destruct Hx as [_ []]).
  - left. reflexivity.
  - destruct Hx as [Hv _].
    destruct (nonneg_exponent _ _ _ Hv) as (He & Hm & _).
    cbn [ticks]. unfold unit_ticks in *.
    assert (Hsc : 0 <= e + scale) by (unfold scale; lia).
    pose proof (pow2_pos (e + scale) Hsc) as Hp.
    destruct (Z.leb_spec 0 e) as [H|H].
    + left. rewrite Z.pow_add_r, Z.mul_assoc by (unfold scale; lia).
      apply Z.mod_mul. lia.
    + rewrite (pow2_split (e + scale) scale) by lia.
      replace (scale - (e + scale)) with (- e) by lia.
      pose proof (pow2_pos (- e) ltac:(lia)) as Hp'.
      rewrite Z.mul_mod_distr_r by lia.
      pose proof (Z.mod_pos_bound (Zpos m) (2 ^ (- e)) Hp') as Hr.
      pose proof (Z.mod_le (Zpos m) (2 ^ (- e)) ltac:(lia) Hp') as Hr'.
      destruct (Z.eq_dec (Zpos m mod 2 ^ (- e)) 0) as [->|Hne];
        [left; reflexivity|].
      right. exists (Zpos m mod 2 ^ (- e)), e. repeat split; lia.
Qed.

(** The only float within [2^-52] below 1 is [1 - 2^-53]. *)
Lemma just_below_one (f : float) :
  nonneg f ->
  unit_ticks - 2 ^ (scale - 52) < ticks f < unit_ticks ->
  f = S754_finite false (2 ^ 53 - 1) (-53).
Proof.
  intros [Hv Hf] [Hlo Hhi]. unfold unit_ticks in *.
  assert (Hsp : 2 ^ scale = 2 ^ 52 * 2 ^ (scale - 52)).
  { rewrite <- Z.pow_add_r by (unfold scale; lia). f_equal; lia. }
  pose proof (pow2_pos (scale - 52) ltac:(unfold scale; lia)) as Hp52.
  destruct f as [s|s| |[] m e]; try contradiction; cbn [ticks] in *; try nia.
  destruct (nonneg_exponent _ _ _ Hv) as (He & Hm & Hc).
  pose proof (digits2_bounds m) as [Hdlo Hdhi].
  change (Zpos (digits2_pos m)) with (Zdigits2 (Zpos m)) in *.
  set (d := Zdigits2 (Zpos m)) in *.
  assert (Hd : 0 < d) by (unfold d; cbn; lia).
  assert (Hsc : 0 <= e + scale) by (unfold scale; lia).
  pose proof (pow2_pos (e + scale) Hsc) as Hp.
  assert (Hde : d + e = 0).
  { destruct (Z.lt_trichotomy (d + e) 0) as [H|[H|H]]; [exfalso|exact H|exfalso].
    - (* too small: below one half *)
      pose proof (pow2_le (d + (e + scale)) (scale - 1) ltac:(lia)) as Hle.
      rewrite Z.pow_add_r in Hle by lia.
      assert (2 ^ scale = 2 * 2 ^ (scale - 1)).
      { replace scale with (Z.succ (scale - 1)) at 1 by lia.
        apply Z.pow_succ_r. unfold scale. lia. }
      assert (2 ^ (scale - 52) <= 2 ^ (scale - 1))
        by (apply pow2_le; unfold scale; lia).
      nia.
    - (* too large: at least one *)
      pose proof (pow2_le scale (d - 1 + (e + scale)) ltac:(unfold scale in *; lia)) as Hle.
      rewrite Z.pow_add_r in Hle by lia.
      pose proof (pow2_pos (d - 1) ltac:(lia)). nia. }
  assert (He53 : e = -53) by (unfold fexp64 in Hc; lia).
  subst e.
  assert (Hsp' : 2 ^ scale = 2 ^ 53 * 2 ^ (-53 + scale)).
  { rewrite <- Z.pow_add_r by (unfold scale; lia). f_equal; lia. }
  assert (Hsp'' : 2 ^ (scale - 52) = 2 * 2 ^ (-53 + scale)).
  { replace (scale - 52) with (Z.succ (-53 + scale)) by lia.
    apply Z.pow_succ_r. lia. }
  assert (Hmm : Zpos m = 2 ^ 53 - 1) by nia.
  f_equal. apply Pos2Z.inj. rewrite Hmm. reflexivity.
Qed.

(** The float 1000.0. *)
Definition f1000 : float := S754_finite false 8796093022208000 (-43).

Lemma float_of_int_1000 : float_of_int 1000 = Ok f1000.
Proof. reflexivity. Qed.

Lemma f1000_ticks : nonneg f1000 /\ ticks f1000 = 1000 * unit_ticks.
Proof.
  split; [split; [reflexivity | exact I]|].
  cbn [f1000 ticks]. unfold unit_ticks.
  rewrite (pow2_split (-43 + scale) scale) by (unfold scale; lia).
  replace (scale - (-43 + scale)) with 43 by lia.
  change (Zpos 8796093022208000) with (1000 * 2 ^ 43). ring.
Qed.

(** The largest float below 1000.0, in ticks. *)
Definition below_1000 : Z := (1000 * 2 ^ 43 - 1) * 2 ^ (-43 + scale).

Lemma below_1000_representable : representable below_1000.
Proof.
  right. exists (1000 * 2 ^ 43 - 1), (-43). repeat split; try lia.
Qed.

Lemma below_1000_value :
  below_1000 = 1000 * unit_ticks - 512 * 2 ^ (scale - 52).
Proof.
  unfold below_1000, unit_ticks.
  rewrite (pow2_split (-43 + scale) scale) by (unfold scale; lia).
  replace (scale - (-43 + scale)) with 43 by lia.
  rewrite (pow2_split (scale - 52) (-43 + scale)) by (unfold scale; lia).
  replace (-43 + scale - (scale - 52)) with 9 by lia.
  change (2 ^ 9) with 512. ring.
Qed.

(** The milliseconds [int(frac * 1000)] of a fraction of a second [frac]:
    below 1000, and less than a millisecond away from the fraction. *)
Lemma millis_of_frac (frac : float) (t : Z) :
  between frac t t -> 0 <= t < unit_ticks ->
  exists ms,
    int_of_float (fmul frac f1000) = Ok ms
    /\ 0 <= ms < 1000
    /\ - unit_ticks < 1000 * t - ms * unit_ticks < unit_ticks.
Proof.
  intros [Hfrac Ht] Hrange. pose proof unit_ticks_pos as Hu.
  assert (Et : ticks frac = t) by lia. clear Ht.
  pose proof (pow2_pos (scale - 52) ltac:(unfold scale; lia)) as Hp52.
  destruct (Z.lt_ge_cases (unit_ticks - 2 ^ (scale - 52)) t) as [Hnear|Hfar].
  - (* the one float just below 1 *)
    assert (E : frac = S754_finite false (2 ^ 53 - 1) (-53)).
    { apply just_below_one; [exact Hfrac | lia]. }
    exists 999. subst frac. subst t.
    split; [vm_compute; reflexivity|]. split; [lia|].
    cbn [ticks]. unfold unit_ticks, scale. vm_compute.
    split; reflexivity.
  - destruct f1000_ticks as [Hk Ek].
    set (v := 1000 * t).
    pose proof (Z.div_mod v unit_ticks ltac:(lia)) as Hdm.
    pose proof (Z.mod_pos_bound v unit_ticks Hu) as Hrem.
    set (kk := v / unit_ticks) in *. set (rem := v mod unit_ticks) in *.
    assert (Hkk : 0 <= kk <= 999) by (unfold v in *; nia).
    assert (Hsand : forall a b,
               representable a -> representable b -> a <= v <= b ->
               exists ms, int_of_float (fmul frac f1000) = Ok ms
                          /\ a <= ticks (fmul frac f1000) <= b
                          /\ ms = ticks (fmul frac f1000) / unit_ticks).
    { intros a b Ha Hb Hab.
      destruct (fmul_sandwich frac f1000 a b Hfrac Hk Ha Hb) as [Hp Hpt].
      - rewrite Et, Ek. fold unit_ticks. unfold v in Hab. nia.
      - eexists. split; [apply int_of_float_ticks; exact Hp|].
        fold unit_ticks. split; [exact Hpt | reflexivity]. }
    destruct (Z.eq_dec rem 0) as [Hz|Hnz].
    + destruct (Hsand (kk * unit_ticks) (kk * unit_ticks)) as (ms & E & Hb & Hms);
        try (apply representable_int; lia); [lia|].
      exists ms. split; [exact E|].
      assert (ms = kk).
      { rewrite Hms. replace (ticks (fmul frac f1000)) with (kk * unit_ticks) by lia.
        apply Z.div_mul. lia. }
      subst ms. fold v. split; lia.
    + destruct (Z.eq_dec kk 999) as [H999|Hlt].
      * pose proof below_1000_representable as Hb9.
        pose proof below_1000_value as Ev.
        destruct (Hsand (kk * unit_ticks) below_1000
                        (representable_int kk ltac:(lia)) Hb9)
          as (ms & E & Hb & Hms).
        { unfold v in *. nia. }
        exists ms. split; [exact E|].
        assert (ms = 999).
        { rewrite Hms. symmetry. apply Z.div_unique with
            (ticks (fmul frac f1000) - 999 * unit_ticks); lia. }
        subst ms. fold v. split; lia.
      * destruct (Hsand (kk * unit_ticks) ((kk + 1) * unit_ticks))
          as (ms & E & Hb & Hms);
          try (apply representable_int; lia); [lia|].
        exists ms. split; [exact E|].
        pose proof (Z.div_mod (ticks (fmul frac f1000)) unit_ticks ltac:(lia)) as Hd.
        pose proof (Z.mod_pos_bound (ticks (fmul frac f1000)) unit_ticks Hu).
        rewrite <- Hms in Hd.
        assert (ms = kk \/ ms = kk + 1) by nia.
        fold v. split; [lia|]. 
        destruct H0 as [->| ->]; [lia|].
        assert (ticks (fmul frac f1000) = (kk + 1) * unit_ticks) by nia.
        lia.
Qed.

(** The text [format_time_seconds] builds from the whole seconds and the
    milliseconds. *)
Definition clock_text (total ms : Z) : string :=
  (format_d 2 (total / 60 / 60) ++ ":" ++ format_d 2 ((total / 60) mod 60)
   ++ ":" ++ format_d 2 (total mod 60) ++ "." ++ format_d 3 ms)%string.

Lemma format_time_seconds_nonneg (s : float) :
  nonneg s ->
  exists ms,
    format_time_seconds (Some s) = Ok (clock_text (ticks s / unit_ticks) ms)
    /\ 0 <= ms < 1000
    /\ - unit_ticks
       < 1000 * (ticks s mod unit_ticks) - ms * unit_ticks
       < unit_ticks.
Proof.
  intros Hs. pose proof unit_ticks_pos as Hu.
  pose proof (ticks_nonneg s) as Ht0.
  set (fl := ticks s / unit_ticks).
  assert (Hfl : 0 <= fl) by (apply Z.div_pos; lia).
  pose proof (Z.div_mod (ticks s) unit_ticks ltac:(lia)) as Hdm. fold fl in Hdm.
  pose proof (Z.mod_pos_bound (ticks s) unit_ticks Hu) as Hrem.
  destruct (float_of_int_exact fl Hfl) as (ffl & Effl & Hffl & Htf).
  { replace (fl * 2 ^ scale) with (ticks s / unit_ticks * unit_ticks)
      by reflexivity.
    apply floor_representable, Hs. }
  fold unit_ticks in Htf.
  assert (Hfrac : between (fsub s ffl) (ticks s mod unit_ticks)
                          (ticks s mod unit_ticks)).
  { apply fsub_sandwich; try assumption; try (apply frac_representable, Hs);
      lia. }
  destruct (millis_of_frac _ _ Hfrac Hrem) as (ms & Ems & Hms & Hclose).
  exists ms. split; [|split; assumption].
  unfold format_time_seconds. rewrite (floor_ticks s Hs). fold unit_ticks fl.
  cbn [bind]. rewrite Effl. cbn [bind]. rewrite float_of_int_1000.
  cbn [bind]. rewrite Ems. reflexivity.
Qed.

End B64.

Import B64.

(** ** Fields of two and three digits *)

Lemma below_forall (p : Z -> bool) (k : nat) :
  forallb p (map Z.of_nat (seq 0 k)) = true ->
  forall n, 0 <= n < Z.of_nat k -> p n = true.
Proof.
  intros H n Hn. rewrite forallb_forall in H. apply H.
  apply in_map_iff. exists (Z.to_nat n). split; [lia|].
  apply in_seq. lia.
Qed.

Lemma format_d_two_digits (n : Z) :
  0 <= n < 100 -> format_d 2 n = two_digits n.
Proof.
  intros Hn. apply String.eqb_eq.
  apply (below_forall (fun n => String.eqb (format_d 2 n) (two_digits n)) 100);
    [vm_compute; reflexivity | exact Hn].
Qed.

Lemma format_d_three_digits (n : Z) :
  0 <= n < 1000 -> format_d 3 n = three_digits n.
Proof.
  intros Hn. apply String.eqb_eq.
  apply (below_forall (fun n => String.eqb (format_d 3 n) (three_digits n)) 1000);
    [vm_compute; reflexivity | exact Hn].
Qed.

(** ** The number a float stands for *)

Lemma F2Q_ticks (x : float) :
  nonneg x -> (F2Q x == inject_Z (ticks x) / inject_Z unit_ticks)%Q.
Proof.
  intros [Hv Hx]. destruct x as [s|s| |[] m e]; try contradiction;
    try (cbn [F2Q ticks]; now unfold Qdiv; rewrite Qmult_0_l).
  destruct (nonneg_exponent _ _ _ Hv) as (He & _).
  cbn [F2Q ticks]. unfold unit_ticks.
  rewrite inject_Z_mult, !Zpower_Qpower by (unfold scale; lia).
  change (inject_Z 2) with (2 # 1)%Q.
  rewrite Qpower_plus by discriminate.
  assert (Hnz : ~ ((2 # 1) ^ scale == 0)%Q) by (apply Qpower_not_0; discriminate).
  field. exact Hnz.
Qed.

Lemma close_in_Q (x : float) (fl ms : Z) :
  nonneg x ->
  fl = ticks x / unit_ticks ->
  - unit_ticks < 1000 * (ticks x mod unit_ticks) - ms * unit_ticks < unit_ticks ->
  (Qabs (F2Q x - (inject_Z fl + inject_Z ms / 1000)) < 1 / 1000)%Q.
Proof.
  intros Hx Hfl [Hlo Hhi]. pose proof unit_ticks_pos as Hu.
  pose proof (Z.div_mod (ticks x) unit_ticks ltac:(lia)) as Hdm.
  rewrite <- Hfl in Hdm. set (r := ticks x mod unit_ticks) in *.
  rewrite (F2Q_ticks x Hx), Hdm.
  assert (Huq : (0 < inject_Z unit_ticks)%Q).
  { change 0%Q with (inject_Z 0). rewrite <- Zlt_Qlt. exact Hu. }
  apply Qabs_Qlt_condition.
  assert (Hlo' : (- inject_Z unit_ticks
                  < 1000 * inject_Z r - inject_Z ms * inject_Z unit_ticks)%Q).
  { change 1000%Q with (inject_Z 1000).
    rewrite <- !inject_Z_mult, <- inject_Z_opp.
    unfold Qminus. rewrite <- inject_Z_opp, <- inject_Z_plus, <- Zlt_Qlt. lia. }
  assert (Hhi' : (1000 * inject_Z r - inject_Z ms * inject_Z unit_ticks
                  < inject_Z unit_ticks)%Q).
  { change 1000%Q with (inject_Z 1000).
    rewrite <- !inject_Z_mult.
    unfold Qminus. rewrite <- inject_Z_opp, <- inject_Z_plus, <- Zlt_Qlt. lia. }
  rewrite inject_Z_plus, inject_Z_mult.
  set (u := inject_Z unit_ticks) in *. set (rq := inject_Z r) in *.
  set (f := inject_Z fl). set (m := inject_Z ms) in *.
  assert (Hd : ((u * f + rq) / u - (f + m / 1000)
                == (1000 * rq - m * u) / (1000 * u))%Q).
  { field. intros E. rewrite E in Huq. apply (Qlt_irrefl _ Huq). }
  rewrite Hd.
  assert (H1000u : (0 < 1000 * u)%Q) by (apply Qmult_lt_0_compat; [reflexivity | exact Huq]).
  split.
  - apply Qlt_shift_div_l; [exact H1000u|].
    setoid_replace (- (1 / 1000) * (1000 * u))%Q with (- u)%Q by field.
    exact Hlo'.
  - apply Qlt_shift_div_r; [exact H1000u|].
    setoid_replace (1 / 1000 * (1000 * u))%Q with u by field.
    exact Hhi'.
Qed.

(** ** The time texts handed to ffmpeg *)

Lemma format_time_seconds_text (s : float) :
  nonneg s ->
  exists hour minute sec ms : Z,
    format_time_seconds (Some s)
    = Ok (format_d 2 hour ++ ":" ++ two_digits minute ++ ":"
          ++ two_digits sec ++ "." ++ three_digits ms)%string
    /\ (hour < 100 -> format_d 2 hour = two_digits hour)
    /\ 0 <= hour /\ 0 <= minute < 60 /\ 0 <= sec < 60 /\ 0 <= ms < 1000
    /\ (Qabs (F2Q s - (inject_Z (hour * 3600 + minute * 60 + sec)
                       + inject_Z ms / 1000)) < 1 / 1000)%Q.
Proof.
  intros Hs. pose proof unit_ticks_pos as Hu.
  destruct (format_time_seconds_nonneg s Hs) as (ms & E & Hms & Hclose).
  set (fl := ticks s / unit_ticks) in *.
  assert (Hfl : 0 <= fl) by (apply Z.div_pos; [apply ticks_nonneg | lia]).
  pose proof (Z.div_mod fl 60 ltac:(lia)) as H1.
  pose proof (Z.mod_pos_bound fl 60 ltac:(lia)) as H2.
  pose proof (Z.div_mod (fl / 60) 60 ltac:(lia)) as H3.
  pose proof (Z.mod_pos_bound (fl / 60) 60 ltac:(lia)) as H4.
  assert (H5 : 0 <= fl / 60 / 60) by (apply Z.div_pos; [apply Z.div_pos|]; lia).
  exists (fl / 60 / 60), ((fl / 60) mod 60), (fl mod 60), ms.
  split; [|split; [|repeat (split; [lia|])]].
  - rewrite E. unfold clock_text.
    rewrite (format_d_two_digits ((fl / 60) mod 60)),
      (format_d_two_digits (fl mod 60)), format_d_three_digits by lia.
    reflexivity.
  - intros Hh. apply format_d_two_digits. lia.
  - apply close_in_Q; [exact Hs | | exact Hclose].
    fold fl. lia.
Qed.

Section TimeArguments.
Context {RT : Runtime}.

(** X1: the start and end times go to ffmpeg after [-ss] and [-to] as
    [format_time_seconds] writes them, and for every finite seconds value
    [s] that is not negative this text is an hour field, a two-digit minute
    and a two-digit second field below 60 and a three-digit millisecond field
    below 1000, separated by colons and a dot, standing for a time less than a
    millisecond away from [s]. *)
Theorem time_arguments_are_clock_texts (s : float) :
  nonneg s ->
  exists (text : string) (hour minute sec ms : Z),
    format_time_seconds (Some s) = Ok text
    /\ text = (format_d 2 hour ++ ":" ++ two_digits minute ++ ":"
               ++ two_digits sec ++ "." ++ three_digits ms)%string
    /\ (hour < 100 -> format_d 2 hour = two_digits hour)
    /\ 0 <= hour /\ 0 <= minute < 60 /\ 0 <= sec < 60 /\ 0 <= ms < 1000
    /\ (Qabs (F2Q s - (inject_Z (hour * 3600 + minute * 60 + sec)
                       + inject_Z ms / 1000)) < 1 / 1000)%Q
    /\ forall input end_ fps width out wd cb st to,
         quiet cb ->
         format_time_seconds (Some end_) = Ok to ->
         exists c rest,
           procs (fst (run_ffmpeg_palette input s end_ fps width out wd cb st))
           = procs st ++ c :: rest
           /\ firstn 5 c = ["ffmpeg"; "-ss"; text; "-to"; to].
Proof.
  intros Hs.
  destruct (format_time_seconds_text s Hs)
    as (hour & minute & sec & ms & E & Hh & H0 & Hm & Hsec & Hms & Hq).
  eexists; exists hour, minute, sec, ms.
  split; [exact E|]. split; [reflexivity|].
  repeat (split; [assumption|]).
  intros input end_ fps width out wd cb st to Hcb Eto.
  pose proof (run_ffmpeg_palette_runs input s end_ fps width out wd cb st _ to
                Hcb E Eto) as H.
  cbv zeta in H. destruct H as (H1 & H2 & H3).
  set (c1 := palette_cmd _ to input fps (scale_filter width)
                         (path_join wd "palette.png")) in *.
  set (c2 := gif_cmd _ to input (path_join wd "palette.png") fps
                     (scale_filter width) out) in *.
  destruct (Z.eq_dec (exit_code (spawn (procs st) c1)) 0) as [Hz|Hnz].
  - destruct (Z.eq_dec (exit_code (spawn (procs st ++ [c1]) c2)) 0) as [Hz2|Hnz2].
    + destruct (H3 Hz Hz2) as [Hp _]. exists c1, [c2].
      split; [exact Hp | reflexivity].
    + destruct (H2 Hz Hnz2) as [Hp _]. exists c1, [c2].
      split; [exact Hp | reflexivity].
  - destruct (H1 Hnz) as [Hp _]. exists c1, [].
    split; [exact Hp | reflexivity].
Qed.

End TimeArguments.

(** One minute and a half. *)
Lemma time_arguments_are_clock_texts_witness :
  exists (text : string) (hour minute sec ms : Z),
    format_time_seconds (Some float_90) = Ok text
    /\ text = (format_d 2 hour ++ ":" ++ two_digits minute ++ ":"
               ++ two_digits sec ++ "." ++ three_digits ms)%string
    /\ 0 <= minute < 60 /\ 0 <= sec < 60 /\ 0 <= ms < 1000.
Proof.
  destruct (@time_arguments_are_clock_texts (scripted []) float_90)
    as (text & hour & minute & sec & ms & E & Et & _ & _ & Hm & Hs & Hms & _).
  - split; [reflexivity | exact I].
  - exists text, hour, minute, sec, ms. repeat split; assumption || lia.
Defined.

Section TranscoderTimes.
Context {RT : Runtime}.

(** C7: for every finite seconds value [s] that is not negative,
    [format_time_seconds] writes an hour field, a two-digit minute and a
    two-digit second field below 60 and a three-digit millisecond field below
    1000, separated by colons and a dot, standing for a time less than a
    millisecond away from [s]; and every command either driver runs hands
    the start and the end of the export to ffmpeg as these texts, after [-ss]
    and [-to]. *)
Theorem transcoder_times_are_clock_texts :
  (forall s : float,
      nonneg s ->
      exists (text : string) (hour minute sec ms : Z),
        format_time_seconds (Some s) = Ok text
        /\ text = (format_d 2 hour ++ ":" ++ two_digits minute ++ ":"
                   ++ two_digits sec ++ "." ++ three_digits ms)%string
        /\ (hour < 100 -> format_d 2 hour = two_digits hour)
        /\ 0 <= hour /\ 0 <= minute < 60 /\ 0 <= sec < 60 /\ 0 <= ms < 1000
        /\ (Qabs (F2Q s - (inject_Z (hour * 3600 + minute * 60 + sec)
                           + inject_Z ms / 1000)) < 1 / 1000)%Q)
  /\ (forall input start end_ fps width out wd cb st ss to,
        quiet cb ->
        format_time_seconds (Some start) = Ok ss ->
        format_time_seconds (Some end_) = Ok to ->
        let timed (c : cmd) := firstn 5 c = ["ffmpeg"; "-ss"; ss; "-to"; to] in
        (exists cmds,
            procs (fst (run_ffmpeg_palette input start end_ fps width out wd
                                           cb st))
            = procs st ++ cmds
            /\ cmds <> [] /\ Forall timed cmds)
        /\ (exists cmds,
              procs (fst (run_ffmpeg_single input start end_ fps width out
                                            cb st))
              = procs st ++ cmds
              /\ cmds <> [] /\ Forall timed cmds)).
Proof.
  split.
  - intros s Hs.
    destruct (format_time_seconds_text s Hs)
      as (hour & minute & sec & ms & E & Hh & H0 & Hm & Hsec & Hms & Hq).
    eexists; exists hour, minute, sec, ms.
    split; [exact E|]. split; [reflexivity|].
    repeat (split; [assumption|]). exact Hq.
  - intros input start end_ fps width out wd cb st ss to Hcb Ess Eto timed.
    split.
    + pose proof (run_ffmpeg_palette_result input start end_ fps width out wd
                    cb st ss to Hcb Ess Eto) as H.
      cbv zeta in H. destruct H as (H1 & H2 & H3).
      set (c1 := palette_cmd ss to input fps (scale_filter width)
                             (path_join wd "palette.png")) in *.
      set (c2 := gif_cmd ss to input (path_join wd "palette.png") fps
                         (scale_filter width) out) in *.
      assert (T1 : timed c1) by reflexivity.
      assert (T2 : timed c2) by reflexivity.
      destruct (Z.eq_dec (exit_code (spawn (procs st) c1)) 0) as [Hz|Hnz].
      * exists [c1; c2]. split; [|split; [discriminate|]].
        -- destruct (Z.eq_dec (exit_code (spawn (procs st ++ [c1]) c2)) 0)
             as [Hz2|Hnz2]; [apply (H3 Hz Hz2) | apply (H2 Hz Hnz2)].
        -- repeat constructor; assumption.
      * exists [c1]. split; [apply (H1 Hnz)|]. split; [discriminate|].
        repeat constructor; assumption.
    + pose proof (run_ffmpeg_single_result input start end_ fps width out
                    cb st ss to Hcb Ess Eto) as H.
      cbv zeta in H. destruct H as (H1 & _).
      eexists. split; [exact H1|]. split; [discriminate|].
      repeat constructor.
Qed.

End TranscoderTimes.

(** * The rest of the export path *)

(** ** Times that cannot be formatted *)

(** NaN and the infinities: what [math.floor] refuses. *)
Definition not_a_time (x : float) : Prop :=
  x = S754_nan \/ exists s, x = S754_infinity s.

Lemma format_time_seconds_not_a_time (x : float) :
  not_a_time x ->
  exists e, (e = ValueError \/ e = OverflowError)
            /\ format_time_seconds (Some x) = Raise e.
Proof.
  intros [->|[s ->]]; eexists; (split; [|reflexivity]); auto.
Qed.

Section Unformattable.
Context {RT : Runtime}.

Lemma run_ffmpeg_palette_raises input start end_ fps width out wd cb st e :
  format_time_seconds (Some start) = Raise e
  \/ (exists ss, format_time_seconds (Some start) = Ok ss
                 /\ format_time_seconds (Some end_) = Raise e) ->
  run_ffmpeg_palette input start end_ fps width out wd cb st = (st, Raise e).
Proof.
  unfold run_ffmpeg_palette, mbind, lift.
  intros [H|(ss & H1 & H2)]; [rewrite H | rewrite H1, H2]; reflexivity.
Qed.

Lemma run_ffmpeg_single_raises input start end_ fps width out cb st e :
  format_time_seconds (Some start) = Raise e
  \/ (exists ss, format_time_seconds (Some start) = Ok ss
                 /\ format_time_seconds (Some end_) = Raise e) ->
  run_ffmpeg_single input start end_ fps width out cb st = (st, Raise e).
Proof.
  unfold run_ffmpeg_single, mbind, lift.
  intros [H|(ss & H1 & H2)]; [rewrite H | rewrite H1, H2]; reflexivity.
Qed.

(** The line [_export_worker] logs first. *)
Definition starting_line (a : WorkerArgs) : string :=
  rstrip ("Starting export: " ++ w_input_path a ++ " ["
          ++ float_str (w_start a) ++ " -> " ++ float_str (w_end a)
          ++ "] fps=" ++ str_of_int (fps (w_opts a))
          ++ " width=" ++ str_of_opt_int (width (w_opts a))
          ++ " method=" ++ method (w_opts a))%string.

(** X2: an export whose start or end time is NaN or infinite: the worker dies
    with the exception of [math.floor] before any command is built.  Nothing
    is run, no dialog is shown and no failure is logged; the [finally] block
    still removes the work directory, resets the cursor and frees the lock. *)
Theorem export_of_unformattable_time_dies_silently (a : WorkerArgs) (st : App) :
  lock_held st = false ->
  not_a_time (w_start a) \/ (nonneg (w_start a) /\ not_a_time (w_end a)) ->
  let res := _export_worker a st in
  exists e,
    (e = ValueError \/ e = OverflowError)
    /\ snd res = Raise e
    /\ procs (fst res) = procs st
    /\ dialogs (fst res) = dialogs st
    /\ log_text (fst res)
       = log_text st ++ [starting_line a; "Cleaned temporary files."]
    /\ cursor_busy (fst res) = false
    /\ lock_held (fst res) = false
    /\ ~ In (w_workdir a) (tempdirs (fst res)).
Proof.
  intros Hl Hbad res.
  assert (Hraise : exists e, (e = ValueError \/ e = OverflowError)
            /\ (format_time_seconds (Some (w_start a)) = Raise e
                \/ exists ss, format_time_seconds (Some (w_start a)) = Ok ss
                     /\ format_time_seconds (Some (w_end a)) = Raise e)).
  { destruct Hbad as [H|[Hs H]].
    - destruct (format_time_seconds_not_a_time _ H) as (e & He & E).
      exists e. split; [exact He | left; exact E].
    - destruct (format_time_seconds_not_a_time _ H) as (e & He & E).
      destruct (format_time_seconds_text _ Hs) as (h & m & s & ms & Es & _).
      exists e. split; [exact He | right; eexists; split; [exact Es | exact E]]. }
  destruct Hraise as (e & He & Hfmt). exists e. split; [exact He|].
  unfold res. rewrite (export_worker_free a st Hl).
  set (st0 := set_lock_held true st).
  assert (Hbody : worker_body a st0
                  = (set_cursor_busy true
                       (set_log_text (log_text st0 ++ [starting_line a]) st0),
                     Raise e)).
  { unfold worker_body, mbind at 1.
    change (worker_start a st0)
      with (set_cursor_busy true
              (set_log_text (log_text st0 ++ [starting_line a]) st0), Ok tt).
    cbv beta iota. unfold mbind, run_method.
    destruct (String.eqb (method (w_opts a)) "palette").
    - rewrite (run_ffmpeg_palette_raises _ _ _ _ _ _ _ _ _ e Hfmt). reflexivity.
    - rewrite (run_ffmpeg_single_raises _ _ _ _ _ _ _ _ e Hfmt). reflexivity. }
  destruct (try_finally_worker a (worker_body a) st0)
    as (Hr & Hlk & Ht & Hp & Hd & Hlog).
  rewrite Hbody in *. cbn [fst snd] in *.
  split; [exact Hr|]. split; [rewrite Hp; reflexivity|].
  split; [rewrite Hd; reflexivity|].
  split; [rewrite Hlog; cbn; rewrite <- app_assoc; reflexivity|].
  split; [|split; [exact Hlk|]].
  - unfold try_finally. rewrite Hbody. reflexivity.
  - rewrite Ht. intros Hin. apply filter_In in Hin. destruct Hin as [_ Hin].
    rewrite String.eqb_refl in Hin. discriminate.
Qed.

End Unformattable.

(** A worker handed a NaN start time. *)
Lemma export_of_unformattable_time_dies_silently_witness :
  let RT := scripted [] in
  let a := mkWorkerArgs "in.mp4" S754_nan float_90
             (mkExportOptions 10 None "palette") "out.gif" "/tmp/v2g_work_1" in
  let res := _export_worker a (ready_window "nan" "90") in
  snd res = Raise ValueError /\ procs (fst res) = [] /\ dialogs (fst res) = [].
Proof.
  intros RT a res.
  destruct (@export_of_unformattable_time_dies_silently RT a
              (ready_window "nan" "90") eq_refl)
    as (e & He & Hr & Hp & Hd & _).
  - left. left. reflexivity.
  - split; [reflexivity|]. split; [exact Hp | exact Hd].
Defined.

(** ** What [on_export] hands to the worker *)

Lemma SFcompare_antisym (x y : float) :
  SFcompare y x = option_map CompOpp (SFcompare x y).
Proof.
  destruct x as [sx|sx| |sx mx ex], y as [sy|sy| |sy my ey];
    try reflexivity;
    try (destruct sx; reflexivity); try (destruct sy; reflexivity);
    try (destruct sx, sy; reflexivity).
  cbn [SFcompare].
  destruct sx, sy; try reflexivity;
    rewrite (Z.compare_antisym ex ey);
    destruct (ex ?= ey); cbn [CompOpp option_map]; try reflexivity;
    change (Pos.compare_cont Eq my mx) with (my ?= mx)%positive;
    change (Pos.compare_cont Eq mx my) with (mx ?= my)%positive;
    rewrite (Pos.compare_antisym mx my);
    destruct (mx ?= my)%positive; reflexivity.
Qed.

(** Away from NaN, [not (end <= start)] is [start < end]. *)
Lemma fle_false_lt (start end_ : float) :
  fle end_ start = false ->
  start <> S754_nan -> end_ <> S754_nan ->
  SFltb start end_ = true.
Proof.
  unfold fle, SFleb, SFltb. rewrite (SFcompare_antisym start end_).
  destruct (SFcompare start end_) as [[]|] eqn:E; cbn; try congruence.
  intros _ Hs He. exfalso.
  destruct start as [| | |], end_ as [| | |]; cbn in E; try congruence;
    repeat match type of E with
           | context [if ?b then _ else _] => destruct b
           end; discriminate.
Qed.

Lemma read_width_spec (s : string) (o : option Z) :
  read_width (strip s) = Some o ->
  match o with
  | Some w => 0 < w /\ int_of_str (strip s) = Some w
  | None => strip s = ""
  end.
Proof.
  unfold read_width.
  destruct (String.eqb_spec (strip s) "") as [E|E]; [intros [= <-]; exact E|].
  destruct (int_of_str (strip s)) as [k|]; [|discriminate].
  destruct (k <=? 0) eqn:Ek; [discriminate|].
  intros [= <-]. split; [lia | reflexivity].
Qed.

Section WorkerArguments.
Context {RT : Runtime}.

Ltac explode_in H :=
  repeat match type of H with
         | context [match ?x with _ => _ end] => destruct x eqn:?
         end.

(** X3: every argument of a worker that [on_export] starts comes from a field that
    passed its check: the tools were found, the input file is named, the start
    is what the start field parses to, the end what the end field parses to or
    else the known duration (written back to the field as [f"{end:.3f}"]); the
    frame rate is within 1..60, the width absent (a blank field) or the
    positive int the stripped field reads as, the output path
    the non-blank stripped field or else the answer of the save dialog (written
    back to the field), and, unless one of the two times is NaN, the start is
    strictly before the end. *)
Theorem on_export_worker_arguments
    (answer fresh : string) (app app' : App) (a : WorkerArgs) :
  on_export answer fresh app = (app', Ok (Some a)) ->
  ffmpeg_ok app = true
  /\ input_path app = Some (w_input_path a)
  /\ w_input_path a <> ""
  /\ parse_time (Some (start_var app)) = Some (w_start a)
  /\ (parse_time (Some (end_var app)) = Some (w_end a)
        /\ end_var app' = end_var app
      \/ parse_time (Some (end_var app)) = None
        /\ duration app = Some (w_end a)
        /\ end_var app' = float_fmt3 (w_end a))
  /\ (w_start a <> S754_nan -> w_end a <> S754_nan ->
      SFltb (w_start a) (w_end a) = true)
  /\ 1 <= fps (w_opts a) <= 60
  /\ match width (w_opts a) with
     | Some w => 0 < w /\ int_of_str (strip (width_var app)) = Some w
     | None => strip (width_var app) = ""
     end
  /\ method (w_opts a) = method_var app
  /\ w_out_path a <> ""
  /\ (w_out_path a = strip (output_var app) /\ output_var app' = output_var app
      \/ strip (output_var app) = ""
         /\ w_out_path a = answer /\ output_var app' = answer).
Proof.
  unfold on_export.
  cbv beta zeta delta [mbind ret showerror showwarning messagebox modify
                       mkdtemp log].
  intros H. explode_in H; try discriminate;
    injection H as <- <-; cbn;
    repeat match goal with
           | H : negb _ = false |- _ => apply negb_false_iff in H
           | H : String.eqb _ _ = true |- _ => apply String.eqb_eq in H
           | H : String.eqb _ _ = false |- _ => apply String.eqb_neq in H
           end.
  all: repeat match goal with
              | |- _ /\ _ => split
              end; auto; try discriminate.
  all: try (now apply fle_false_lt).
  all: try (eapply read_fps_bounds; eassumption).
  all: try (left; split; reflexivity).
  all: try (right; split; [|split]; auto; fail).
  all: try (right; repeat split; auto; fail).
  all: now apply read_width_spec.
Qed.

End WorkerArguments.

(** Exporting seconds 0 to 5 of [in.mp4]. *)
Lemma on_export_worker_arguments_witness :
  let RT := scripted [] in
  let r := on_export "" "/tmp/v2g_work_1" (ready_window "0" "5") in
  match snd r with
  | Ok (Some a) =>
      w_input_path a = "in.mp4"
      /\ SFltb (w_start a) (w_end a) = true
      /\ 1 <= fps (w_opts a) <= 60
  | _ => False
  end.
Proof.
  intros RT r.
  destruct r as [app1 [[a|]|e]] eqn:E; vm_compute in E; try discriminate.
  destruct (@on_export_worker_arguments RT "" "/tmp/v2g_work_1"
              (ready_window "0" "5") app1 a)
    as (_ & Hi & _ & Hs & He & Hlt & Hf & _).
  - vm_compute. rewrite <- E. reflexivity.
  - simpl. split; [|split; [|exact Hf]].
    + injection Hi as <-. reflexivity.
    + apply Hlt.
      * intros Hn. rewrite Hn in Hs. vm_compute in Hs. discriminate.
      * intros Hn. rewrite Hn in He. vm_compute in He.
        destruct He as [[He _]|[He _]]; discriminate.
Defined.

(** ** The outcome of an export *)

Section WorkerOutcome.
Context {RT : Runtime}.

(** What a driver leaves alone when its progress callback is the worker's. *)
Definition same_window (st st' : App) : Prop :=
  dialogs st' = dialogs st
  /\ lock_held st' = lock_held st
  /\ cursor_busy st' = cursor_busy st
  /\ tempdirs st' = tempdirs st.

Lemma run_method_returns (a : WorkerArgs) (st : App) (ss to : string) :
  format_time_seconds (Some (w_start a)) = Ok ss ->
  format_time_seconds (Some (w_end a)) = Ok to ->
  exists st' ok msg,
    run_method a st = (st', Ok (ok, msg)) /\ same_window st st'.
Proof.
  intros Hss Hto. unfold run_method.
  destruct (String.eqb (method (w_opts a)) "palette").
  - unfold run_ffmpeg_palette.
    cbv beta iota zeta delta [mbind lift progress _thread_safe_log log modify
                              run_subprocess ret].
    rewrite Hss, Hto. cbv beta iota.
    match goal with
    | |- context [spawn ?p ?c] => destruct (spawn p c) as [rc1 o1 e1|m1]
    end; cbv beta iota.
    + destruct (negb (rc1 =? 0)); cbv beta iota.
      * do 3 eexists. split; [reflexivity|]. repeat split.
      * match goal with
        | |- context [spawn ?p ?c] => destruct (spawn p c) as [rc2 o2 e2|m2]
        end; cbv beta iota.
        -- destruct (negb (rc2 =? 0)); do 3 eexists;
             (split; [reflexivity|]); repeat split.
        -- do 3 eexists. split; [reflexivity|]. repeat split.
    + do 3 eexists. split; [reflexivity|]. repeat split.
  - unfold run_ffmpeg_single.
    cbv beta iota zeta delta [mbind lift progress _thread_safe_log log modify
                              run_subprocess ret].
    rewrite Hss, Hto. cbv beta iota.
    match goal with
    | |- context [spawn ?p ?c] => destruct (spawn p c) as [rc1 o1 e1|m1]
    end; cbv beta iota.
    + destruct (negb (rc1 =? 0)); do 3 eexists;
        (split; [reflexivity|]); repeat split.
    + do 3 eexists. split; [reflexivity|]. repeat split.
Qed.

(** The commands an export runs after the commands [before], and whether the
    last of them returned 0: the two passes of the palette method, the second
    only after a first that returned 0, or the one command of the single-step
    method. *)
Definition commands_run (a : WorkerArgs) (ss to : string) (before : list cmd)
  : list cmd * bool :=
  let opts := w_opts a in
  let sc := scale_filter (width opts) in
  if String.eqb (method opts) "palette" then
    let pal := path_join (w_workdir a) "palette.png" in
    let c1 := palette_cmd ss to (w_input_path a) (fps opts) sc pal in
    let c2 := gif_cmd ss to (w_input_path a) pal (fps opts) sc (w_out_path a) in
    if exit_code (spawn before c1) =? 0
    then ([c1; c2], exit_code (spawn (before ++ [c1]) c2) =? 0)
    else ([c1], false)
  else
    let c := single_cmd ss to (w_input_path a) (fps opts) sc (w_out_path a) in
    ([c], exit_code (spawn before c) =? 0).

Lemma run_method_commands (a : WorkerArgs) (st : App) (ss to : string) :
  format_time_seconds (Some (w_start a)) = Ok ss ->
  format_time_seconds (Some (w_end a)) = Ok to ->
  exists st' msg,
    run_method a st = (st', Ok (snd (commands_run a ss to (procs st)), msg))
    /\ procs st' = procs st ++ fst (commands_run a ss to (procs st))
    /\ same_window st st'.
Proof.
  intros Hss Hto.
  destruct (run_method_returns a st ss to Hss Hto) as (st' & ok & msg & E & Hw).
  exists st', msg. unfold commands_run.
  unfold run_method in E |- *.
  destruct (String.eqb (method (w_opts a)) "palette").
  - pose proof (run_ffmpeg_palette_runs (w_input_path a) (w_start a) (w_end a)
                  (fps (w_opts a)) (width (w_opts a)) (w_out_path a)
                  (w_workdir a) (Some _thread_safe_log) st ss to
                  thread_safe_log_quiet Hss Hto) as H.
    cbv zeta in H. rewrite E in H. cbn [fst snd] in H.
    destruct H as (H1 & H2 & H3). cbv zeta.
    destruct (Z.eqb_spec (exit_code (spawn (procs st) (palette_cmd ss to
                (w_input_path a) (fps (w_opts a))
                (scale_filter (width (w_opts a)))
                (path_join (w_workdir a) "palette.png")))) 0) as [Hz|Hz].
    + destruct (Z.eqb_spec (exit_code (spawn (procs st ++ [palette_cmd ss to
                (w_input_path a) (fps (w_opts a))
                (scale_filter (width (w_opts a)))
                (path_join (w_workdir a) "palette.png")])
                (gif_cmd ss to (w_input_path a)
                   (path_join (w_workdir a) "palette.png") (fps (w_opts a))
                   (scale_filter (width (w_opts a))) (w_out_path a)))) 0)
        as [Hz2|Hz2].
      * destruct (H3 Hz Hz2) as (Hp & m & Hm). injection Hm as -> ->.
        cbn [fst snd]. repeat split; try assumption; apply Hw.
      * destruct (H2 Hz Hz2) as (Hp & m & Hm). injection Hm as -> ->.
        cbn [fst snd]. repeat split; try assumption; apply Hw.
    + destruct (H1 Hz) as (Hp & m & Hm). injection Hm as -> ->.
      cbn [fst snd]. repeat split; try assumption; apply Hw.
  - pose proof (run_ffmpeg_single_runs (w_input_path a) (w_start a) (w_end a)
                  (fps (w_opts a)) (width (w_opts a)) (w_out_path a)
                  (Some _thread_safe_log) st ss to
                  thread_safe_log_quiet Hss Hto) as H.
    cbv zeta in H. rewrite E in H. cbn [fst snd] in H.
    destruct H as (Hp & m & Hm). injection Hm as -> ->.
    cbn [fst snd]. repeat split; try assumption; apply Hw.
Qed.

(** The dialog that ends an export. *)
Definition closing_dialog (a : WorkerArgs) (ok : bool) (msg : string) : dialog :=
  if ok
  then Dialog Info "Export complete"
         ("GIF exported to:" ++ nl ++ w_out_path a)%string
  else Dialog Error "Export failed" msg.

(** The lines an export adds to the log after the driver's own. *)
Definition closing_lines (a : WorkerArgs) (ok : bool) (msg : string)
  : list string :=
  (if ok
   then [rstrip ("Success: " ++ msg); rstrip ("Output saved to: " ++ w_out_path a)]
   else [rstrip ("Failed: " ++ msg)])%string
  ++ ["Cleaned temporary files."].

(** X4: an export between two finite non-negative times, by the worker that got
    the lock: it returns; it has run the commands of its method, stopping at
    the first that did not return 0; it has shown exactly one dialog, the
    completion notice if the last command returned 0 and the failure notice
    otherwise; its last log lines say which; and the cursor is reset, the work
    directory gone and the lock free. *)
Theorem export_ends_with_one_dialog (a : WorkerArgs) (st : App) :
  lock_held st = false ->
  nonneg (w_start a) -> nonneg (w_end a) ->
  let res := _export_worker a st in
  exists ss to msg earlier,
    format_time_seconds (Some (w_start a)) = Ok ss
    /\ format_time_seconds (Some (w_end a)) = Ok to
    /\ let '(cmds, ok) := commands_run a ss to (procs st) in
       snd res = Ok tt
       /\ procs (fst res) = procs st ++ cmds
       /\ dialogs (fst res) = dialogs st ++ [closing_dialog a ok msg]
       /\ log_text (fst res) = earlier ++ closing_lines a ok msg
       /\ cursor_busy (fst res) = false
       /\ lock_held (fst res) = false
       /\ ~ In (w_workdir a) (tempdirs (fst res)).
Proof.
  intros Hl Hs He res.
  destruct (format_time_seconds_text _ Hs) as (h1 & m1 & s1 & ms1 & Ess & _).
  destruct (format_time_seconds_text _ He) as (h2 & m2 & s2 & ms2 & Eto & _).
  set (ss := (format_d 2 h1 ++ ":" ++ two_digits m1 ++ ":" ++ two_digits s1
              ++ "." ++ three_digits ms1)%string) in *.
  set (to := (format_d 2 h2 ++ ":" ++ two_digits m2 ++ ":" ++ two_digits s2
              ++ "." ++ three_digits ms2)%string) in *.
  set (st0 := set_lock_held true st).
  set (st1 := fst (worker_start a st0)).
  destruct (run_method_commands a st1 ss to Ess Eto)
    as (st2 & msg & Erun & Hp & Hd & Hlk & Hc & Ht).
  exists ss, to, msg, (log_text st2).
  split; [exact Ess|]. split; [exact Eto|].
  change (procs st1) with (procs st) in Erun, Hp.
  destruct (commands_run a ss to (procs st)) as [cmds ok].
  cbn [fst snd] in Erun, Hp.
  unfold res. rewrite (export_worker_free a st Hl). fold st0.
  assert (Hbody : exists st3,
            worker_body a st0 = (st3, Ok tt)
            /\ procs st3 = procs st2
            /\ dialogs st3 = dialogs st2 ++ [closing_dialog a ok msg]
            /\ log_text st3
               = log_text st2 ++ removelast (closing_lines a ok msg)
            /\ tempdirs st3 = tempdirs st2).
  { unfold worker_body, mbind at 1.
    change (worker_start a st0) with (st1, @Ok unit tt).
    cbv beta iota. unfold mbind at 1. rewrite Erun. cbv beta iota.
    destruct ok; eexists; (split; [reflexivity|]); cbn;
      rewrite <- ?app_assoc; repeat split; reflexivity. }
  destruct Hbody as (st3 & Eb & Hp3 & Hd3 & Hlog3 & Ht3).
  destruct (try_finally_worker a (worker_body a) st0)
    as (Hr & Hlk' & Ht' & Hp' & Hd' & Hlog').
  rewrite Eb in Hr, Ht', Hp', Hd', Hlog'. cbn [fst snd] in *.
  split; [exact Hr|].
  split; [rewrite Hp', Hp3; exact Hp|].
  split; [rewrite Hd', Hd3, Hd; reflexivity|].
  split; [rewrite Hlog', Hlog3; destruct ok; cbn; rewrite <- app_assoc;
          reflexivity|].
  split; [unfold try_finally; rewrite Eb; reflexivity|].
  split; [exact Hlk'|].
  rewrite Ht'. intros Hin. apply filter_In in Hin. destruct Hin as [_ Hin].
  rewrite String.eqb_refl in Hin. discriminate.
Qed.

End WorkerOutcome.

(** Both passes of a palette export return 0. *)
Lemma export_ends_with_one_dialog_witness :
  let RT := scripted [0; 0] in
  let a := mkWorkerArgs "in.mp4" float_0 float_90
             (mkExportOptions 10 None "palette") "out.gif" "/tmp/v2g_work_1" in
  let res := _export_worker a (ready_window "0" "90") in
  List.length (procs (fst res)) = 2%nat
  /\ List.length (dialogs (fst res)) = 1%nat
  /\ lock_held (fst res) = false.
Proof.
  intros RT a res.
  destruct (@export_ends_with_one_dialog RT a (ready_window "0" "90") eq_refl)
    as (ss & to & msg & earlier & Ess & Eto & H).
  - split; [reflexivity | exact I].
  - split; [reflexivity | exact I].
  - vm_compute in Ess. vm_compute in Eto.
    injection Ess as <-. injection Eto as <-.
    destruct (commands_run a "00:00:00.000" "00:01:30.000"
                (procs (ready_window "0" "90"))) as [cmds ok] eqn:Ec.
    vm_compute in Ec. injection Ec as <- <-.
    destruct H as (_ & Hp & Hd & _ & _ & Hl & _).
    fold res in Hp, Hd, Hl. rewrite Hp, Hd. split; [reflexivity|].
    split; [reflexivity | exact Hl].
Defined.

(** ** Without the tools *)

(** [subprocess.run(..., check=True)] returned: the command was started and
    exited with 0. *)
Definition exited_zero (s : spawned) : bool :=
  match s with
  | Exited 0 _ _ => true
  | _ => false
  end.

Definition missing_dialog : dialog :=
  Dialog Error "ffmpeg missing"
    "ffmpeg or ffprobe not found. Install ffmpeg and try again.".

(** The clicks on Export among the events. *)
Fixpoint clicks (evs : list event) : nat :=
  match evs with
  | [] => 0
  | Click _ _ :: r => S (clicks r)
  | Sched _ :: r => clicks r
  end.

Section WithoutTools.
Context {RT : Runtime}.

Lemma check_ffmpeg_available_spec (ffmpeg_cmd ffprobe_cmd : string) (st : App) :
  let c1 := [ffmpeg_cmd; "-version"] in
  let c2 := [ffprobe_cmd; "-version"] in
  let b1 := exited_zero (spawn (procs st) c1) in
  let b2 := exited_zero (spawn (procs st ++ [c1]) c2) in
  check_ffmpeg_available ffmpeg_cmd ffprobe_cmd st
  = (set_procs (procs st ++ (if b1 then [c1; c2] else [c1])) st,
     Ok (b1 && b2)).
Proof.
  unfold check_ffmpeg_available. cbv zeta.
  destruct (spawn (procs st) [ffmpeg_cmd; "-version"]) as [rc o e|m];
    [destruct rc|]; cbn [exited_zero andb]; try reflexivity.
  change (procs (set_procs (procs st ++ [[ffmpeg_cmd; "-version"]]) st))
    with (procs st ++ [[ffmpeg_cmd; "-version"]]).
  destruct (spawn (procs st ++ [[ffmpeg_cmd; "-version"]])
              [ffprobe_cmd; "-version"]) as [rc2 o2 e2|m2];
    [destruct rc2|]; cbn [exited_zero]; unfold set_procs; cbn; rewrite <- app_assoc;
    reflexivity.
Qed.

Lemma sys_step_without_tools (ev : event) (s : Sys) :
  ffmpeg_ok (sys_app s) = false -> sys_workers s = [] ->
  sys_step ev s
  = match ev with
    | Click _ _ =>
        mkSys (set_dialogs (dialogs (sys_app s) ++ [missing_dialog]) (sys_app s))
              []
    | Sched _ => s
    end.
Proof.
  intros Hok Hw. destruct ev as [answer fresh|i]; cbn [sys_step].
  - unfold on_export. rewrite Hok. cbn. rewrite Hw. reflexivity.
  - rewrite Hw. destruct i; reflexivity.
Qed.

Lemma sys_run_without_tools (evs : list event) (s : Sys) :
  ffmpeg_ok (sys_app s) = false -> sys_workers s = [] ->
  sys_run evs s
  = mkSys (set_dialogs (dialogs (sys_app s) ++ repeat missing_dialog (clicks evs))
                       (sys_app s)) [].
Proof.
  revert s. induction evs as [|ev evs IH]; intros s Hok Hw.
  - cbn. rewrite app_nil_r. destruct s as [app ws]. cbn in *. subst ws.
    destruct app; reflexivity.
  - change (sys_run (ev :: evs) s) with (sys_run evs (sys_step ev s)).
    rewrite (sys_step_without_tools ev s Hok Hw).
    destruct ev as [answer fresh|i].
    + rewrite IH by (cbn; auto). cbn. rewrite <- app_assoc. reflexivity.
    + rewrite IH by assumption. reflexivity.
Qed.

(** X5: if one of [ffmpeg -version] and [ffprobe -version] cannot be started or
    does not exit with 0 when the window is built ([ffprobe] is tried only
    after [ffmpeg] passed), the window shows one error dialog, and from then on
    no export ever starts: whatever is clicked and scheduled afterwards, there
    is no worker, no further command is run, no directory created and no line
    logged, and each click on Export shows the "ffmpeg missing" error. *)
Theorem no_export_without_tools
    (ffmpeg_cmd ffprobe_cmd : string) (st : App) (evs : list event) :
  let c1 := [ffmpeg_cmd; "-version"] in
  let c2 := [ffprobe_cmd; "-version"] in
  exited_zero (spawn (procs st) c1) = false
  \/ exited_zero (spawn (procs st ++ [c1]) c2) = false ->
  let st' := fst (VideoToGifGUI__init__ ffmpeg_cmd ffprobe_cmd st) in
  let s := sys_run evs (mkSys st' []) in
  dialogs st'
  = dialogs st ++ [Dialog Error "ffmpeg not found"
      "ffmpeg or ffprobe not found on PATH. Please install ffmpeg and ensure ffmpeg and ffprobe are available."]
  /\ procs st'
     = procs st ++ (if exited_zero (spawn (procs st) c1) then [c1; c2] else [c1])
  /\ sys_workers s = []
  /\ procs (sys_app s) = procs st'
  /\ tempdirs (sys_app s) = tempdirs st
  /\ log_text (sys_app s) = log_text st
  /\ lock_held (sys_app s) = lock_held st
  /\ dialogs (sys_app s) = dialogs st' ++ repeat missing_dialog (clicks evs).
Proof.
  intros c1 c2 Hbad st' s.
  assert (Hinit : st' = set_dialogs (dialogs st ++ [Dialog Error "ffmpeg not found"
      "ffmpeg or ffprobe not found on PATH. Please install ffmpeg and ensure ffmpeg and ffprobe are available."])
      (mkApp false (input_path st) (duration st) (start_var st) (end_var st)
         (fps_var st) (width_var st) (method_var st) (output_var st)
         (log_text st) (dialogs st) (cursor_busy st) (lock_held st)
         (tempdirs st)
         (procs st ++ (if exited_zero (spawn (procs st) c1)
                       then [c1; c2] else [c1])))).
  { unfold st', VideoToGifGUI__init__, mbind at 1.
    rewrite check_ffmpeg_available_spec. fold c1 c2.
    assert (Hb : exited_zero (spawn (procs st) c1)
                 && exited_zero (spawn (procs st ++ [c1]) c2) = false).
    { destruct Hbad as [-> | ->]; [reflexivity | apply andb_false_r]. }
    rewrite Hb. reflexivity. }
  unfold s. rewrite sys_run_without_tools;
    [|rewrite Hinit; reflexivity | reflexivity].
  rewrite Hinit. cbn. repeat split; reflexivity.
Qed.

End WithoutTools.

(** No [ffmpeg] on the path, and three clicks on Export. *)
Lemma no_export_without_tools_witness :
  let RT := scripted [127] in
  let st' := fst (VideoToGifGUI__init__ "ffmpeg" "ffprobe" fresh_window) in
  let s := sys_run [Click "" "/tmp/a"; Click "" "/tmp/b"; Sched 0;
                    Click "" "/tmp/c"] (mkSys st' []) in
  sys_workers s = []
  /\ procs (sys_app s) = [["ffmpeg"; "-version"]]
  /\ List.length (dialogs (sys_app s)) = 4%nat.
Proof.
  intros RT st' s.
  destruct (@no_export_without_tools RT "ffmpeg" "ffprobe" fresh_window
              [Click "" "/tmp/a"; Click "" "/tmp/b"; Sched 0; Click "" "/tmp/c"])
    as (Hd & Hp & Hw & Hp' & _ & _ & _ & Hd').
  - left. reflexivity.
  - fold st' in Hd, Hp, Hp', Hd'. fold s in Hw, Hp', Hd'.
    split; [exact Hw|]. split; [rewrite Hp', Hp; reflexivity|].
    rewrite Hd', Hd. reflexivity.
Defined.

(** ** The work directory of a rejected export *)

Lemma nth_error_set_nth_same {A : Type} (l : list A) (i : nat) (x y : A) :
  nth_error l i = Some y -> nth_error (set_nth i x l) i = Some x.
Proof.
  revert i. induction l as [|h t IH]; intros [|i] H; simpl in *;
    try discriminate; [reflexivity | apply IH, H].
Qed.

Lemma nth_error_set_nth_other {A : Type} (l : list A) (i j : nat) (x : A) :
  i <> j -> nth_error (set_nth i x l) j = nth_error l j.
Proof.
  revert i j. induction l as [|h t IH]; intros [|i] [|j] H; simpl;
    try reflexivity; [congruence | apply IH; congruence].
Qed.

(** [mkdtemp] returns a directory that did not exist: the clicks of a run name
    directories that are new when they are clicked. *)
Fixpoint well_named {RT : Runtime} (evs : list event) (s : Sys) : Prop :=
  match evs with
  | [] => True
  | ev :: rest =>
      match ev with
      | Click _ fresh => ~ In fresh (tempdirs (sys_app s))
      | Sched _ => True
      end
      /\ well_named rest (sys_step ev s)
  end.

(** The work directories of the workers that have not finished exist, and no
    two of these workers share one. *)
Definition tidy (s : Sys) : Prop :=
  (forall i a ph,
      nth_error (sys_workers s) i = Some (a, ph) -> ph <> Finished ->
      In (w_workdir a) (tempdirs (sys_app s)))
  /\ (forall i j a b pa pb,
      nth_error (sys_workers s) i = Some (a, pa) ->
      nth_error (sys_workers s) j = Some (b, pb) ->
      pa <> Finished -> pb <> Finished ->
      w_workdir a = w_workdir b -> i = j).

Section Leak.
Context {RT : Runtime}.

Lemma worker_body_tempdirs (a : WorkerArgs) (st : App) :
  tempdirs (fst (worker_body a st)) = tempdirs st.
Proof.
  unfold worker_body, worker_start, run_method.
  destruct (String.eqb (method (w_opts a)) "palette").
  - unfold run_ffmpeg_palette.
    cbv beta iota zeta delta [mbind lift progress _thread_safe_log log modify
                              run_subprocess ret _set_ui_busy showinfo
                              showerror messagebox].
    destruct (format_time_seconds (Some (w_start a))); [|reflexivity].
    destruct (format_time_seconds (Some (w_end a))); [|reflexivity].
    cbv beta iota.
    match goal with
    | |- context [spawn ?p ?c] => destruct (spawn p c) as [rc1 o1 e1|m1]
    end; cbv beta iota; [|reflexivity].
    destruct (negb (rc1 =? 0)); cbv beta iota; [reflexivity|].
    match goal with
    | |- context [spawn ?p ?c] => destruct (spawn p c) as [rc2 o2 e2|m2]
    end; cbv beta iota; [|reflexivity].
    destruct (negb (rc2 =? 0)); reflexivity.
  - unfold run_ffmpeg_single.
    cbv beta iota zeta delta [mbind lift progress _thread_safe_log log modify
                              run_subprocess ret _set_ui_busy showinfo
                              showerror messagebox].
    destruct (format_time_seconds (Some (w_start a))); [|reflexivity].
    destruct (format_time_seconds (Some (w_end a))); [|reflexivity].
    cbv beta iota.
    match goal with
    | |- context [spawn ?p ?c] => destruct (spawn p c) as [rc1 o1 e1|m1]
    end; cbv beta iota; [|reflexivity].
    destruct (negb (rc1 =? 0)); reflexivity.
Qed.

Lemma sys_step_tidy (ev : event) (s : Sys) :
  tidy s -> well_named [ev] s -> tidy (sys_step ev s).
Proof.
  intros [Hin Hdis] [Hname _]. destruct ev as [answer fresh|i]; cbn [sys_step].
  - destruct (on_export_spec answer fresh (sys_app s))
      as (app' & o & E & _ & _ & _ & H).
    rewrite E. destruct o as [a|].
    + destruct H as (_ & Ht & Hw & _).
      assert (Hold : forall k b pb,
                 nth_error (sys_workers s ++ [(a, Pending)]) k = Some (b, pb) ->
                 (nth_error (sys_workers s) k = Some (b, pb)
                  /\ (k < List.length (sys_workers s))%nat)
                 \/ (k = List.length (sys_workers s) /\ b = a)).
      { intros k b pb Hk.
        destruct (Nat.lt_ge_cases k (List.length (sys_workers s))) as [Hlt|Hge].
        - rewrite nth_error_app1 in Hk by exact Hlt. left. auto.
        - rewrite nth_error_app2 in Hk by exact Hge. right.
          destruct (k - List.length (sys_workers s))%nat as [|n] eqn:En;
            simpl in Hk; [|destruct n; discriminate].
          injection Hk as <- _. split; [lia | reflexivity]. }
      split; cbn [sys_app sys_workers].
      * intros k b pb Hk Hp. rewrite Ht. apply in_or_app.
        destruct (Hold k b pb Hk) as [[Hk' _]|[_ ->]].
        -- left. eapply Hin; eassumption.
        -- right. left. symmetry. exact Hw.
      * intros k j b c pb pc Hk Hj Hb Hc Heq.
        destruct (Hold k b pb Hk) as [[Hk' Hlk]|[-> ->]];
          destruct (Hold j c pc Hj) as [[Hj' Hlj]|[-> ->]].
        -- eapply Hdis; eassumption.
        -- exfalso. apply Hname. rewrite <- Hw, <- Heq.
           eapply Hin; eassumption.
        -- exfalso. apply Hname. rewrite <- Hw, Heq.
           eapply Hin; eassumption.
        -- reflexivity.
    + destruct H as (_ & Ht & _). split; cbn [sys_app sys_workers].
      * intros k b pb Hk Hp. rewrite Ht. eapply Hin; eassumption.
      * exact Hdis.
  - destruct (nth_error (sys_workers s) i) as [[a ph]|] eqn:Hn;
      [|split; assumption].
    assert (Hget : forall ph' k b pb,
               nth_error (set_nth i (a, ph') (sys_workers s)) k = Some (b, pb) ->
               (k = i /\ b = a /\ pb = ph')
               \/ (k <> i /\ nth_error (sys_workers s) k = Some (b, pb))).
    { intros ph' k b pb Hk. destruct (Nat.eq_dec i k) as [<-|Hne].
      - rewrite (nth_error_set_nth_same _ _ _ _ Hn) in Hk.
        injection Hk as <- <-. left. auto.
      - rewrite nth_error_set_nth_other in Hk by exact Hne. right. auto. }
    assert (Hsame : forall ph' app',
               ph <> Finished ->
               tempdirs app' = tempdirs (sys_app s) ->
               tidy (mkSys app' (set_nth i (a, ph') (sys_workers s)))).
    { intros ph' app' Hph Ht. split; cbn [sys_app sys_workers].
      - intros k b pb Hk Hp. rewrite Ht.
        destruct (Hget ph' k b pb Hk) as [(-> & -> & ->)|[_ Hk']].
        + eapply Hin; eassumption.
        + eapply Hin; eassumption.
      - intros k j b c pb pc Hk Hj Hb Hc Heq.
        destruct (Hget ph' k b pb Hk) as [(-> & -> & ->)|[Hki Hk']];
          destruct (Hget ph' j c pc Hj) as [(-> & -> & ->)|[Hji Hj']];
          try reflexivity.
        + eapply (Hdis i j a c ph pc); eassumption.
        + eapply (Hdis k i b a pb ph); eassumption.
        + eapply Hdis; eassumption. }
    destruct ph; try (split; assumption).
    + unfold acquire_nonblocking.
      destruct (lock_held (sys_app s)); apply Hsame; try discriminate;
        reflexivity.
    + destruct (try_finally_worker a (worker_body a) (sys_app s))
        as (_ & _ & Ht & _).
      rewrite worker_body_tempdirs in Ht.
      split; cbn [sys_app sys_workers].
      * intros k b pb Hk Hp. rewrite Ht.
        destruct (Hget Finished k b pb Hk) as [(-> & -> & ->)|[Hki Hk']];
          [congruence|].
        apply filter_In. split; [eapply Hin; eassumption|].
        apply negb_true_iff. apply String.eqb_neq. intros Heq.
        apply Hki. eapply (Hdis k i b a pb Holding); try eassumption.
        discriminate.
      * intros k j b c pb pc Hk Hj Hb Hc Heq.
        destruct (Hget Finished k b pb Hk) as [(-> & -> & ->)|[Hki Hk']];
          [congruence|].
        destruct (Hget Finished j c pc Hj) as [(-> & -> & ->)|[Hji Hj']];
          [congruence|].
        eapply Hdis; eassumption.
Qed.

Lemma sys_run_tidy (evs : list event) (s : Sys) :
  tidy s -> well_named evs s -> tidy (sys_run evs s).
Proof.
  revert s. induction evs as [|ev evs IH]; intros s Ht Hn; [exact Ht|].
  destruct Hn as [Hn1 Hn2].
  change (sys_run (ev :: evs) s) with (sys_run evs (sys_step ev s)).
  apply IH; [|exact Hn2]. apply sys_step_tidy; [exact Ht|].
  split; [exact Hn1 | exact I].
Qed.

Lemma sys_step_rejected (ev : event) (s : Sys) (i : nat) (a : WorkerArgs) :
  nth_error (sys_workers s) i = Some (a, Rejected) ->
  nth_error (sys_workers (sys_step ev s)) i = Some (a, Rejected).
Proof.
  intros H. destruct ev as [answer fresh|j]; cbn [sys_step].
  - destruct (on_export answer fresh (sys_app s)) as [app' [[b|]|e]];
      cbn [sys_workers]; try exact H.
    rewrite nth_error_app1; [exact H|].
    apply nth_error_Some. congruence.
  - destruct (Nat.eq_dec j i) as [->|Hne].
    + rewrite H. exact H.
    + destruct (nth_error (sys_workers s) j) as [[b ph]|]; [|exact H].
      destruct ph; try exact H.
      * destruct (acquire_nonblocking (sys_app s)) as [app' [[]|e]];
          cbn [sys_workers]; rewrite nth_error_set_nth_other by exact Hne;
          exact H.
      * cbn [sys_workers]. rewrite nth_error_set_nth_other by exact Hne.
        exact H.
Qed.

Lemma sys_run_rejected (evs : list event) (s : Sys) (i : nat) (a : WorkerArgs) :
  nth_error (sys_workers s) i = Some (a, Rejected) ->
  nth_error (sys_workers (sys_run evs s)) i = Some (a, Rejected).
Proof.
  revert s. induction evs as [|ev evs IH]; intros s H; [exact H|].
  apply IH, sys_step_rejected, H.
Qed.

Lemma well_named_app (evs1 evs2 : list event) (s : Sys) :
  well_named (evs1 ++ evs2) s ->
  well_named evs1 s /\ well_named evs2 (sys_run evs1 s).
Proof.
  revert s. induction evs1 as [|ev evs1 IH]; intros s H.
  - split; [exact I | exact H].
  - destruct H as [H1 H2]. destruct (IH _ H2) as [H3 H4].
    split; [split; assumption | exact H4].
Qed.

(** X6: the work directory of an export is created by [on_export], before the
    thread tries the lock, and removed only in the [finally] block behind the
    lock: the directory of a worker that was turned away because another
    export was running is never removed.  Under every schedule of clicks and
    worker steps that follows the rejection, the worker stays rejected and its
    directory stays on disk. *)
Theorem rejected_export_leaks_its_workdir
    (app0 : App) (before after : list event) (i : nat) (a : WorkerArgs) :
  well_named (before ++ after) (mkSys app0 []) ->
  nth_error (sys_workers (sys_run before (mkSys app0 []))) i
  = Some (a, Rejected) ->
  let s := sys_run (before ++ after) (mkSys app0 []) in
  nth_error (sys_workers s) i = Some (a, Rejected)
  /\ In (w_workdir a) (tempdirs (sys_app s)).
Proof.
  intros Hn Hi s.
  assert (Hrej : nth_error (sys_workers s) i = Some (a, Rejected)).
  { unfold s, sys_run. rewrite fold_left_app.
    apply (sys_run_rejected after _ i a Hi). }
  split; [exact Hrej|].
  assert (Ht : tidy s).
  { apply sys_run_tidy; [|exact Hn].
    split; intros [|k]; cbn; intros; discriminate. }
  destruct Ht as [Hin _]. eapply Hin; [exact Hrej | discriminate].
Qed.

End Leak.

(** Two clicks on Export; the second worker finds the lock taken, and the
    first then runs to its end. *)
Lemma rejected_export_leaks_its_workdir_witness :
  let RT := scripted [] in
  let evs := [Click "" "/tmp/v2g_work_1"; Click "" "/tmp/v2g_work_2";
              Sched 0; Sched 1; Sched 0] in
  let s := sys_run evs (mkSys (ready_window "0" "5") []) in
  tempdirs (sys_app s) = ["/tmp/v2g_work_2"]
  /\ lock_held (sys_app s) = false
  /\ exists a, nth_error (sys_workers s) 1 = Some (a, Rejected)
               /\ In (w_workdir a) (tempdirs (sys_app s)).
Proof.
  intros RT evs s.
  split; [reflexivity|]. split; [reflexivity|].
  destruct (nth_error (sys_workers (sys_run (firstn 4 evs)
              (mkSys (ready_window "0" "5") []))) 1) as [[a ph]|] eqn:E;
    vm_compute in E; [|discriminate].
  injection E as <- <-.
  eexists.
  apply (@rejected_export_leaks_its_workdir RT (ready_window "0" "5")
           (firstn 4 evs) (skipn 4 evs) 1%nat).
  - cbn -[sys_step]. repeat split; vm_compute; intros H;
      repeat (destruct H as [H|H]; [discriminate|]); exact H.
  - reflexivity.
Defined.

(** ** The duration line *)

Lemma span_spec (p : ascii -> bool) (s : string) :
  (s = fst (span p s) ++ snd (span p s))%string
  /\ all_chars p (fst (span p s)) = true
  /\ match snd (span p s) with
     | String c _ => p c = false
     | EmptyString => True
     end.
Proof.
  induction s as [|c r IH]; simpl; [auto|].
  destruct (p c) eqn:Hc.
  - destruct (span p r) as [a b]. simpl in *. destruct IH as (E & Ha & Hb).
    rewrite Hc, Ha, <- E. auto.
  - simpl. rewrite Hc. auto.
Qed.

Lemma span_app (p : ascii -> bool) (a b : string) :
  all_chars p a = true ->
  span p (a ++ b) = ((a ++ fst (span p b))%string, snd (span p b)).
Proof.
  induction a as [|c a IH]; simpl; intros H.
  - destruct (span p b); reflexivity.
  - apply andb_true_iff in H. destruct H as [Hc Ha].
    rewrite Hc, (IH Ha). reflexivity.
Qed.

Lemma strip_prefix_spec (pre s r : string) :
  strip_prefix pre s = Some r <-> s = (pre ++ r)%string.
Proof.
  revert s. induction pre as [|a pre IH]; intros s; simpl.
  - split; [intros [= ->] | intros ->]; reflexivity.
  - destruct s as [|b s]; [split; discriminate|].
    destruct (Ascii.eqb_spec a b) as [->|Hne].
    + rewrite IH. split; [intros -> | intros [= ->]]; reflexivity.
    + split; [discriminate | intros [= H _]; congruence].
Qed.

(** A duration line in [text], as the pattern describes it: "Duration: ",
    digits, a colon, digits, a colon, and digits and dots. *)
Definition duration_line (text h m s : string) : Prop :=
  exists pre post,
    text = (pre ++ "Duration: " ++ h ++ ":" ++ m ++ ":" ++ s ++ post)%string
    /\ h <> "" /\ all_chars is_digit h = true
    /\ m <> "" /\ all_chars is_digit m = true
    /\ s <> "" /\ all_chars is_digit_or_dot s = true.

Lemma match_duration_sound (t h m s : string) :
  match_duration t = Some (h, m, s) ->
  exists post,
    t = ("Duration: " ++ h ++ ":" ++ m ++ ":" ++ s ++ post)%string
    /\ h <> "" /\ all_chars is_digit h = true
    /\ m <> "" /\ all_chars is_digit m = true
    /\ s <> "" /\ all_chars is_digit_or_dot s = true.
Proof.
  unfold match_duration.
  destruct (strip_prefix "Duration: " t) as [r|] eqn:Ep; [|discriminate].
  apply strip_prefix_spec in Ep.
  pose proof (span_spec is_digit r) as (E1 & A1 & _).
  destruct (span is_digit r) as [h1 r1]. cbn [fst snd] in *.
  destruct h1 as [|ch h1]; [discriminate|].
  destruct r1 as [|c1 r2]; [discriminate|].
  destruct (Ascii.eqb_spec c1 ":") as [->|Hne];
    [|destruct c1 as [[] [] [] [] [] [] [] []]; try discriminate; congruence].
  pose proof (span_spec is_digit r2) as (E2 & A2 & _).
  destruct (span is_digit r2) as [m1 r3]. cbn [fst snd] in *.
  destruct m1 as [|cm m1]; [discriminate|].
  destruct r3 as [|c3 r4]; [discriminate|].
  destruct (Ascii.eqb_spec c3 ":") as [->|Hne];
    [|destruct c3 as [[] [] [] [] [] [] [] []]; try discriminate; congruence].
  pose proof (span_spec is_digit_or_dot r4) as (E3 & A3 & _).
  destruct (span is_digit_or_dot r4) as [s1 r5]. cbn [fst snd] in *.
  destruct s1 as [|cs s1]; [discriminate|].
  intros [= <- <- <-]. exists r5.
  split; [|repeat split; try discriminate; assumption].
  rewrite Ep, E1, E2, E3. reflexivity.
Qed.

Lemma is_digit_colon : is_digit ":" = false.
Proof. reflexivity. Qed.

Lemma span_digits_colon (h rest : string) :
  all_chars is_digit h = true ->
  span is_digit (h ++ String ":" rest) = (h, String ":" rest).
Proof.
  intros H. rewrite (span_app _ _ _ H). cbn.
  f_equal. induction h as [|c h IH]; [reflexivity|]. cbn.
  apply andb_true_iff in H. destruct H as [_ H]. now rewrite (IH H).
Qed.

Lemma match_duration_complete (h m s post : string) :
  h <> "" -> all_chars is_digit h = true ->
  m <> "" -> all_chars is_digit m = true ->
  s <> "" -> all_chars is_digit_or_dot s = true ->
  match_duration ("Duration: " ++ h ++ ":" ++ m ++ ":" ++ s ++ post)
  = Some (h, m, (s ++ fst (span is_digit_or_dot post))%string).
Proof.
  intros Hh Ah Hm Am Hs As. unfold match_duration.
  assert (Ep : strip_prefix "Duration: "
                 ("Duration: " ++ h ++ ":" ++ m ++ ":" ++ s ++ post)
               = Some (h ++ ":" ++ m ++ ":" ++ s ++ post)%string)
    by (apply strip_prefix_spec; reflexivity).
  rewrite Ep.
  change (h ++ ":" ++ m ++ ":" ++ s ++ post)%string
    with (h ++ String ":" (m ++ String ":" (s ++ post)))%string.
  rewrite (span_digits_colon _ _ Ah).
  destruct h as [|ch h]; [congruence|].
  rewrite (span_digits_colon _ _ Am).
  destruct m as [|cm m]; [congruence|].
  rewrite (span_app _ _ _ As).
  destruct s as [|cs s]; [congruence|]. reflexivity.
Qed.

Lemma re_search_duration_sound (text h m s : string) :
  re_search_duration text = Some (h, m, s) -> duration_line text h m s.
Proof.
  induction text as [|c r IH].
  - cbn. discriminate.
  - cbn [re_search_duration].
    destruct (match_duration (String c r)) as [g|] eqn:Em.
    + intros [= ->]. destruct (match_duration_sound _ _ _ _ Em) as (post & E & H).
      exists "", post. split; [exact E | exact H].
    + intros H. destruct (IH H) as (pre & post & E & Hrest).
      exists (String c pre), post. split; [|exact Hrest].
      cbn. rewrite E. reflexivity.
Qed.

Lemma re_search_duration_here (t : string) (g : string * string * string) :
  match_duration t = Some g -> re_search_duration t = Some g.
Proof.
  intros H. destruct t; cbn [re_search_duration]; rewrite H; reflexivity.
Qed.

Lemma re_search_duration_complete (text h m s : string) :
  duration_line text h m s -> re_search_duration text <> None.
Proof.
  intros (pre & post & E & Hh & Ah & Hm & Am & Hs & As). subst text.
  induction pre as [|c pre IH].
  - change ("" ++ ?x)%string with x.
    rewrite (re_search_duration_here _ _
               (match_duration_complete h m s post Hh Ah Hm Am Hs As)).
    discriminate.
  - cbn [append re_search_duration].
    destruct (match_duration _); [discriminate | exact IH].
Qed.

(** ** [get_video_duration] *)

(** The number on the standard output of a command that exited with 0:
    [float(out.strip())]. *)
Definition printed_number (s : spawned) : option float :=
  match s with
  | Exited 0 (Some out) _ => float_of_str (strip out)
  | _ => None
  end.

(** Everything a command wrote, or the text of the exception that kept it
    from starting. *)
Definition output_text (s : spawned) : string :=
  match s with
  | Exited _ out err => (opt_or_empty out ++ opt_or_empty err)%string
  | SpawnError msg => msg
  end.

Section DurationFacts.
Context {RT : Runtime}.

Lemma duration_fallback_spec (path : string) (st : App) :
  exists r,
    duration_fallback path st
    = (set_procs (procs st ++ [info_cmd path]) st, Ok r)
    /\ r = match re_search_duration
                   (output_text (spawn (procs st) (info_cmd path))) with
           | Some g => duration_of_groups g
           | None => None
           end.
Proof.
  unfold duration_fallback, mbind, run_subprocess, ret.
  destruct (spawn (procs st) (info_cmd path)) as [rc o e|msg];
    cbn [output_text]; cbv beta iota; cbn [append];
    match goal with
    | |- context [re_search_duration ?t] => destruct (re_search_duration t)
    end; eexists; split; reflexivity.
Qed.

Lemma get_video_duration_cases (path : string) (st : App) :
  let st1 := set_procs (procs st ++ [probe_cmd path]) st in
  get_video_duration path st
  = match printed_number (spawn (procs st) (probe_cmd path)) with
    | Some d => (st1, Ok (Some d))
    | None => duration_fallback path st1
    end.
Proof.
  unfold get_video_duration, mbind at 1, run_subprocess.
  destruct (spawn (procs st) (probe_cmd path)) as [rc o e|msg];
    cbn [printed_number]; cbv beta iota zeta; [|reflexivity].
  destruct (Z.eqb_spec rc 0) as [->|Hrc]; cbn [andb].
  - destruct o as [out|]; cbn [opt_or_empty]; [|reflexivity].
    destruct (str_truthy (strip out)) eqn:Et.
    + destruct (float_of_str (strip out)); reflexivity.
    + unfold str_truthy in Et. apply negb_false_iff in Et.
      apply String.eqb_eq in Et. rewrite Et. reflexivity.
  - destruct rc; try congruence; reflexivity.
Qed.

(** X7: [get_video_duration] never raises and changes nothing but the list of
    commands run.  It asks [ffprobe] first; if that exits with 0 and what it
    printed, stripped, is something [float()] accepts, that number is the
    duration and [ffmpeg] is not run.  Otherwise it runs [ffmpeg -i] and looks for the first duration
    line in what that wrote: a duration it then returns was computed from the
    three fields of a duration line, and without such a line there is no
    duration. *)
Theorem get_video_duration_asks_ffprobe_first (path : string) (st : App) :
  let p1 := spawn (procs st) (probe_cmd path) in
  let p2 := spawn (procs st ++ [probe_cmd path]) (info_cmd path) in
  match printed_number p1 with
  | Some d =>
      get_video_duration path st
      = (set_procs (procs st ++ [probe_cmd path]) st, Ok (Some d))
  | None =>
      exists r,
        get_video_duration path st
        = (set_procs (procs st ++ [probe_cmd path; info_cmd path]) st, Ok r)
        /\ (forall d, r = Some d ->
              exists h m s,
                duration_line (output_text p2) h m s
                /\ duration_of_groups (h, m, s) = Some d)
        /\ ((forall h m s, ~ duration_line (output_text p2) h m s) ->
            r = None)
  end.
Proof.
  intros p1 p2.
  assert (Hfall : exists r,
    duration_fallback path (set_procs (procs st ++ [probe_cmd path]) st)
    = (set_procs (procs st ++ [probe_cmd path; info_cmd path]) st, Ok r)
    /\ (forall d, r = Some d ->
          exists h m s,
            duration_line (output_text p2) h m s
            /\ duration_of_groups (h, m, s) = Some d)
    /\ ((forall h m s, ~ duration_line (output_text p2) h m s) -> r = None)).
  { destruct (duration_fallback_spec path
                (set_procs (procs st ++ [probe_cmd path]) st)) as (r & E & Hr).
    exists r. cbn [procs set_procs] in E, Hr. fold p2 in Hr.
    split; [rewrite E; unfold set_procs; cbn; rewrite <- app_assoc;
            reflexivity|].
    destruct (re_search_duration (output_text p2)) as [[[h m] s]|] eqn:Es.
    - apply re_search_duration_sound in Es. split.
      + intros d Hd. exists h, m, s. split; [exact Es | congruence].
      + intros Hno. exfalso. exact (Hno h m s Es).
    - split; [intros d Hd; congruence | intros _; exact Hr]. }
  rewrite get_video_duration_cases. fold p1.
  destruct (printed_number p1); [reflexivity | exact Hfall].
Qed.

End DurationFacts.

(** ** Choosing the input file *)

Section WindowFacts.
Context {RT : Runtime} {TK : Toolkit}.

Lemma get_video_duration_returns (path : string) (st : App) :
  exists cmds d,
    get_video_duration path st = (set_procs (procs st ++ cmds) st, Ok d)
    /\ (cmds = [probe_cmd path] \/ cmds = [probe_cmd path; info_cmd path]).
Proof.
  rewrite get_video_duration_cases. cbv zeta.
  destruct (printed_number _) as [d|].
  - exists [probe_cmd path], (Some d). auto.
  - destruct (duration_fallback_spec path
                (set_procs (procs st ++ [probe_cmd path]) st)) as (r & E & _).
    exists [probe_cmd path; info_cmd path], r. split; [|auto].
    rewrite E. unfold set_procs. cbn. rewrite <- app_assoc. reflexivity.
Qed.

Ltac window_fields :=
  cbn [form file_label duration_label preview_image ffmpeg_ok input_path
       duration start_var end_var fps_var width_var method_var output_var
       log_text dialogs cursor_busy lock_held tempdirs procs set_duration
       set_procs set_log_text set_input_path set_end_var set_dialogs
       set_tempdirs set_output_var set_cursor_busy set_lock_held fst snd
       negb].

(** What [choose_file] and [on_preview] never touch: the fields of the export
    form other than the end time, the cursor, the lock and the tools flag. *)
Definition same_form (a a' : App) : Prop :=
  ffmpeg_ok a' = ffmpeg_ok a
  /\ start_var a' = start_var a
  /\ fps_var a' = fps_var a
  /\ width_var a' = width_var a
  /\ method_var a' = method_var a
  /\ output_var a' = output_var a
  /\ cursor_busy a' = cursor_busy a
  /\ lock_held a' = lock_held a.

(** X8: choosing a file.  A cancelled dialog changes nothing.  Otherwise the path
    is stored and logged and the duration is probed and stored, with one or
    two commands and no dialog; the end field is overwritten only if it was
    blank and a duration was found, and then holds [f"{duration:.3f}"]; the
    start field and the rest of the form keep what they held for the file
    chosen before.  The call raises exactly when the duration found cannot be
    formatted (NaN or an infinity), after the path and the duration have been
    stored, leaving the duration label and the end field as they were. *)
Theorem choose_file_keeps_the_form (path : string) (w : Window) :
  let res := choose_file path w in
  let a := form w in
  let a' := form (fst res) in
  (path = "" -> res = (w, Ok tt))
  /\ (path <> "" ->
      input_path a' = Some path
      /\ file_label (fst res) = path
      /\ same_form a a'
      /\ dialogs a' = dialogs a
      /\ tempdirs a' = tempdirs a
      /\ preview_image (fst res) = preview_image w
      /\ (exists cmds,
            procs a' = procs a ++ cmds
            /\ (cmds = [probe_cmd path]
                \/ cmds = [probe_cmd path; info_cmd path])
            /\ snd (get_video_duration path
                      (set_log_text (log_text a ++ [rstrip ("Selected: " ++ path)])
                         (set_input_path path a)))
               = Ok (duration a'))
      /\ match duration a' with
         | None =>
             snd res = Ok tt
             /\ duration_label (fst res) = "Unknown"
             /\ end_var a' = end_var a
         | Some d =>
             match format_time_seconds (Some d) with
             | Ok text =>
                 snd res = Ok tt
                 /\ duration_label (fst res)
                    = (text ++ " (" ++ float_fmt2 d ++ " s)")%string
                 /\ end_var a'
                    = (if String.eqb (strip (end_var a)) ""
                       then float_fmt3 d else end_var a)
             | Raise e =>
                 snd res = Raise e
                 /\ duration_label (fst res) = duration_label w
                 /\ end_var a' = end_var a
             end
         end).
Proof.
  intros res a a'. split.
  - intros ->. reflexivity.
  - intros Hp. unfold a', res, choose_file.
    assert (Ht : str_truthy path = true).
    { unfold str_truthy. apply negb_true_iff. now apply String.eqb_neq. }
    rewrite Ht. cbn [negb].
    cbv beta iota delta [wbind in_app set_file_label modify log
                         set_duration_label lift wret].
    cbn [form file_label duration_label preview_image].
    fold a.
    destruct (get_video_duration_returns path
                (set_log_text (log_text a ++ [rstrip ("Selected: " ++ path)])
                   (set_input_path path a))) as (cmds & d & E & Hc).
    cbn [log_text set_log_text set_input_path procs] in E |- *.
    rewrite E. cbv beta iota.
    destruct d as [d|].
    + destruct (format_time_seconds (Some d)) as [text|e] eqn:Ef;
        cbv beta iota.
      * unfold str_truthy. window_fields.
        destruct (String.eqb (strip (end_var a)) ""); window_fields;
          unfold same_form; window_fields; rewrite ?Ef;
          repeat match goal with |- _ /\ _ => split end; try reflexivity;
          exists cmds; (split; [reflexivity|]); (split; [exact Hc|]);
          reflexivity.
      * window_fields. unfold same_form; window_fields. rewrite ?Ef.
        repeat match goal with |- _ /\ _ => split end; try reflexivity;
          exists cmds; (split; [reflexivity|]); (split; [exact Hc|]);
          reflexivity.
    + window_fields. unfold same_form; window_fields.
      repeat match goal with |- _ /\ _ => split end; try reflexivity;
        exists cmds; (split; [reflexivity|]); (split; [exact Hc|]);
        reflexivity.
Qed.

(** ** The preview *)

(** What [on_preview] refuses: no Pillow, no input file, a start field that
    is no time. *)
Definition preview_refused (w : Window) : Prop :=
  pil_available = false
  \/ input_path (form w) = None
  \/ input_path (form w) = Some ""
  \/ parse_time (Some (start_var (form w))) = None.

Lemma filter_fresh (fresh : string) (l : list string) :
  ~ In fresh l ->
  filter (fun d => negb (String.eqb d fresh)) (l ++ [fresh]) = l.
Proof.
  intros H. rewrite filter_app. cbn. rewrite String.eqb_refl. cbn.
  rewrite app_nil_r. apply forallb_filter_id. apply forallb_forall.
  intros x Hx. apply negb_true_iff, String.eqb_neq. congruence.
Qed.

(** X9: the preview.  What it refuses costs one warning dialog and nothing else.
    Otherwise it shows no dialog at all: it runs the one command that extracts
    the frame at the start time into a fresh directory, logs the attempt and
    its outcome (a failed command and a frame that cannot be displayed are
    logged only), and has removed the directory when it returns.  It raises
    exactly when the start time cannot be formatted, before any command.  It
    never waits for or takes the export lock and leaves the export form
    alone. *)
Theorem on_preview_cleans_up (fresh : string) (w : Window) :
  ~ In fresh (tempdirs (form w)) ->
  let res := on_preview fresh w in
  let a := form w in
  let a' := form (fst res) in
  same_form a a' /\ end_var a' = end_var a /\ input_path a' = input_path a
  /\ (preview_refused w ->
      snd res = Ok tt
      /\ (exists d, d_kind d = Warning /\ dialogs a' = dialogs a ++ [d])
      /\ procs a' = procs a /\ log_text a' = log_text a
      /\ tempdirs a' = tempdirs a
      /\ preview_image (fst res) = preview_image w)
  /\ (forall input t,
        pil_available = true ->
        input_path a = Some input -> input <> "" ->
        parse_time (Some (start_var a)) = Some t ->
        dialogs a' = dialogs a
        /\ match format_time_seconds (Some t) with
           | Raise e => snd res = Raise e /\ procs a' = procs a
           | Ok ss =>
               let frame_path := path_join fresh "preview.jpg" in
               let c := frame_cmd ss input frame_path in
               snd res = Ok tt
               /\ procs a' = procs a ++ [c]
               /\ tempdirs a' = tempdirs a
               /\ exists line,
                    log_text a'
                    = log_text a
                      ++ [rstrip ("Extracting frame at " ++ float_str t
                                  ++ " s ..."); line]
                    /\ if exit_code (spawn (procs a) c) =? 0 then
                         match render (procs a ++ [c]) frame_path with
                         | Displayed img =>
                             line = "Preview displayed."
                             /\ preview_image (fst res) = Some img
                         | RenderError assigned msg =>
                             line = rstrip ("Preview error: " ++ msg)
                             /\ preview_image (fst res)
                                = match assigned with
                                  | Some img => Some img
                                  | None => preview_image w
                                  end
                         end
                       else
                         preview_image (fst res) = preview_image w
                         /\ exists msg, line = rstrip ("Preview failed: " ++ msg)
           end).
Proof.
  intros Hfresh res a a'. unfold a', res, on_preview.
  destruct w as [a0 fl dl img0]. cbn [form] in a, Hfresh |- *.
  subst a. unfold preview_refused. cbn [form].
  destruct pil_available eqn:Epil; cbn [negb].
  2:{ cbv beta iota delta [in_app showwarning messagebox modify].
      window_fields. unfold same_form. window_fields.
      repeat match goal with |- _ /\ _ => split end; try (reflexivity || assumption).
      - intros _.
        repeat match goal with |- _ /\ _ => split end; try (reflexivity || assumption).
        eexists. split; [|reflexivity]. reflexivity.
      - intros; discriminate. }
  destruct (input_path a0) as [[|c0 input0]|] eqn:Ein.
  1,3: cbv beta iota delta [in_app showwarning messagebox modify];
      window_fields; unfold same_form; window_fields;
      repeat match goal with |- _ /\ _ => split end; try (reflexivity || assumption);
      [ intros _;
        repeat match goal with |- _ /\ _ => split end; try (reflexivity || assumption);
        eexists; split; [|reflexivity]; reflexivity
      | intros input t _ Hi Hne; congruence ].
  destruct (parse_time (Some (start_var a0))) as [t0|] eqn:Et.
  2:{ cbv beta iota delta [in_app showwarning messagebox modify].
      window_fields. unfold same_form. window_fields.
      repeat match goal with |- _ /\ _ => split end; try (reflexivity || assumption).
      - intros _.
        repeat match goal with |- _ /\ _ => split end; try (reflexivity || assumption).
        eexists. split; [|reflexivity]. reflexivity.
      - intros; discriminate. }
  cbv beta iota delta [wbind in_app mkdtemp log modify rmtree
                       extract_frame_to_file mbind lift run_subprocess ret
                       set_preview_image wret].
  window_fields.
  destruct (format_time_seconds (Some t0)) as [ss|e] eqn:Ef; cbv beta iota.
  - window_fields.
    set (c := frame_cmd ss (String c0 input0) (path_join fresh "preview.jpg")).
    destruct (spawn (procs a0) c) as [rc o e|m] eqn:Es; cbv beta iota;
      cbn [exit_code].
    + destruct (Z.eqb_spec rc 0) as [Hz|Hz]; cbn [negb]; cbv beta iota;
        window_fields.
      * destruct (render (procs a0 ++ [c]) (path_join fresh "preview.jpg"))
          as [img|[img|] msg] eqn:Er; cbv beta iota; window_fields;
          unfold same_form; window_fields; rewrite ?filter_fresh by exact Hfresh;
          (repeat match goal with |- _ /\ _ => split end; try (reflexivity || assumption);
           [ intros [H|[H|[H|H]]]; discriminate
           | intros input t _ [= <-] _ [= <-]; rewrite Ef; cbv zeta; fold c;
             rewrite Es; cbn [exit_code]; rewrite Hz; cbn [Z.eqb];
             repeat match goal with |- _ /\ _ => split end; try (reflexivity || assumption);
             eexists; split; [rewrite <- app_assoc; reflexivity|];
             rewrite Er; split; reflexivity ]).
      * unfold same_form; window_fields; rewrite ?filter_fresh by exact Hfresh.
        repeat match goal with |- _ /\ _ => split end; try (reflexivity || assumption).
        -- intros [H|[H|[H|H]]]; discriminate.
        -- intros input t _ [= <-] _ [= <-]. rewrite Ef. cbv zeta. fold c.
           rewrite Es. cbn [exit_code].
           destruct (Z.eqb_spec rc 0) as [?|_]; [contradiction|].
           repeat match goal with |- _ /\ _ => split end; try (reflexivity || assumption).
           eexists. split; [rewrite <- app_assoc; reflexivity|].
           split; [reflexivity | eexists; reflexivity].
    + cbn [Z.eqb negb]. window_fields.
      unfold same_form; window_fields; rewrite ?filter_fresh by exact Hfresh.
      repeat match goal with |- _ /\ _ => split end; try (reflexivity || assumption).
      * intros [H|[H|[H|H]]]; discriminate.
      * intros input t _ [= <-] _ [= <-]. rewrite Ef. cbv zeta. fold c.
        rewrite Es. cbn [exit_code Z.eqb].
        repeat match goal with |- _ /\ _ => split end; try (reflexivity || assumption).
        eexists. split; [rewrite <- app_assoc; reflexivity|].
        split; [reflexivity | eexists; reflexivity].
  - window_fields. unfold same_form; window_fields.
    repeat match goal with |- _ /\ _ => split end; try (reflexivity || assumption).
    + intros [H|[H|[H|H]]]; discriminate.
    + intros input t _ [= <-] _ [= <-]. rewrite Ef.
      repeat match goal with |- _ /\ _ => split end; reflexivity.
Qed.

End WindowFacts.

(** A toolkit with Pillow that displays every frame. *)
Definition plain_toolkit : Toolkit :=
  {| pil_available := true;
     render := fun _ path => Displayed path;
     float_fmt2 := fun _ => "<float>" |}.

(** The frame at 1:30 of [in.mp4]. *)
Lemma on_preview_cleans_up_witness :
  let RT := scripted [] in
  let TK := plain_toolkit in
  let w := mkWindow (ready_window "1:30" "") "" "" None in
  let res := on_preview "/tmp/v2g_preview_1" w in
  snd res = Ok tt
  /\ tempdirs (form (fst res)) = []
  /\ procs (form (fst res))
     = [frame_cmd "00:01:30.000" "in.mp4" "/tmp/v2g_preview_1/preview.jpg"].
Proof.
  intros RT TK w res.
  destruct (@on_preview_cleans_up RT TK "/tmp/v2g_preview_1" w)
    as (_ & _ & _ & _ & H).
  - intros [].
  - specialize (H "in.mp4" float_90 eq_refl eq_refl ltac:(discriminate) eq_refl).
    destruct H as [_ H].
    change (format_time_seconds (Some float_90)) with (@Ok string "00:01:30.000")
      in H.
    cbv zeta in H. destruct H as (Hr & Hp & Ht & _).
    fold res in Hr, Hp, Ht. split; [exact Hr|]. split; [exact Ht | exact Hp].
Defined.

(** ** Which program is run *)

(** The program a command starts. *)
Definition program (c : cmd) : string := hd "" c.

Section Programs.
Context {RT : Runtime} {TK : Toolkit}.

Lemma worker_body_programs (a : WorkerArgs) (st : App) :
  exists cmds,
    procs (fst (worker_body a st)) = procs st ++ cmds
    /\ Forall (fun c => program c = "ffmpeg") cmds.
Proof.
  unfold worker_body, worker_start, run_method.
  destruct (String.eqb (method (w_opts a)) "palette").
  - unfold run_ffmpeg_palette.
    cbv beta iota zeta delta [mbind lift progress _thread_safe_log log modify
                              run_subprocess ret _set_ui_busy showinfo
                              showerror messagebox].
    destruct (format_time_seconds (Some (w_start a)));
      [|exists []; split; [cbn; now rewrite app_nil_r | constructor]].
    destruct (format_time_seconds (Some (w_end a)));
      [|exists []; split; [cbn; now rewrite app_nil_r | constructor]].
    cbv beta iota.
    match goal with
    | |- context [spawn ?p ?c] => destruct (spawn p c) as [rc1 o1 e1|m1]
    end; cbv beta iota;
      [|eexists [_]; split; [reflexivity | repeat constructor]].
    destruct (negb (rc1 =? 0)); cbv beta iota;
      [eexists [_]; split; [reflexivity | repeat constructor]|].
    match goal with
    | |- context [spawn ?p ?c] => destruct (spawn p c) as [rc2 o2 e2|m2]
    end; cbv beta iota;
      [|eexists [_; _]; split;
        [cbn; rewrite <- app_assoc; reflexivity | repeat constructor]].
    destruct (negb (rc2 =? 0)); eexists [_; _]; split;
      try (cbn; rewrite <- app_assoc; reflexivity); repeat constructor.
  - unfold run_ffmpeg_single.
    cbv beta iota zeta delta [mbind lift progress _thread_safe_log log modify
                              run_subprocess ret _set_ui_busy showinfo
                              showerror messagebox].
    destruct (format_time_seconds (Some (w_start a)));
      [|exists []; split; [cbn; now rewrite app_nil_r | constructor]].
    destruct (format_time_seconds (Some (w_end a)));
      [|exists []; split; [cbn; now rewrite app_nil_r | constructor]].
    cbv beta iota.
    match goal with
    | |- context [spawn ?p ?c] => destruct (spawn p c) as [rc1 o1 e1|m1]
    end; cbv beta iota;
      [|eexists [_]; split; [reflexivity | repeat constructor]].
    destruct (negb (rc1 =? 0)); eexists [_]; split;
      try reflexivity; repeat constructor.
Qed.

Lemma on_preview_programs (fresh : string) (w : Window) :
  exists cmds,
    procs (form (fst (on_preview fresh w))) = procs (form w) ++ cmds
    /\ Forall (fun c => program c = "ffmpeg") cmds.
Proof.
  unfold on_preview. destruct w as [a0 fl dl img0]. cbn [form].
  assert (Hnone : forall k title text,
    exists cmds,
      procs (form (fst (in_app (showwarning title text)
                          (mkWindow a0 fl dl img0)))) = procs a0 ++ cmds
      /\ Forall (fun c => program c = k) cmds).
  { intros. exists []. split; [cbn; now rewrite app_nil_r | constructor]. }
  destruct pil_available; cbn [negb]; [|apply Hnone].
  destruct (input_path a0) as [[|c0 input0]|]; try apply Hnone.
  destruct (parse_time (Some (start_var a0))) as [t0|]; [|apply Hnone].
  cbv beta iota delta [wbind in_app mkdtemp log modify rmtree
                       extract_frame_to_file mbind lift run_subprocess ret
                       set_preview_image wret].
  cbn [form file_label duration_label preview_image procs set_tempdirs
       set_log_text log_text tempdirs fst snd].
  destruct (format_time_seconds (Some t0)) as [ss|e]; cbv beta iota;
    [|exists []; split; [cbn; now rewrite app_nil_r | constructor]].
  match goal with
  | |- context [spawn ?p ?c] => destruct (spawn p c) as [rc o e|m]
  end; cbv beta iota.
  - destruct (negb (rc =? 0)); cbn [negb]; cbv beta iota;
      cbn [form file_label duration_label preview_image procs set_tempdirs
           set_log_text set_procs log_text tempdirs fst snd];
      [eexists [_]; split; [reflexivity | repeat constructor]|].
    match goal with
    | |- context [render ?p ?c] => destruct (render p c) as [img|[img|] msg]
    end; cbv beta iota;
      cbn [form file_label duration_label preview_image procs set_tempdirs
           set_log_text set_procs log_text tempdirs fst snd];
      eexists [_]; split; try reflexivity; repeat constructor.
  - cbn [negb Z.eqb]. cbv beta iota.
    cbn [form file_label duration_label preview_image procs set_tempdirs
         set_log_text set_procs log_text tempdirs fst snd].
    eexists [_]; split; [reflexivity | repeat constructor].
Qed.

(** X10: the commands that [find_ffmpeg_binaries] locates are run with
    [-version] when the window is built, and nowhere else.  Whatever the two
    commands are, the export worker and the preview start the program
    "ffmpeg" and the duration probe starts "ffprobe" and then "ffmpeg", by
    these bare names; [on_export] itself starts nothing.  So binaries found
    beside the script pass the check at start-up and are not the ones the
    export runs. *)
Theorem located_binaries_are_only_probed :
  (forall ffmpeg_cmd ffprobe_cmd st,
      exists cmds,
        procs (fst (VideoToGifGUI__init__ ffmpeg_cmd ffprobe_cmd st))
        = procs st ++ cmds
        /\ (cmds = [[ffmpeg_cmd; "-version"]]
            \/ cmds = [[ffmpeg_cmd; "-version"]; [ffprobe_cmd; "-version"]]))
  /\ (forall h,
        local_binaries_found h = true ->
        exists app,
          run_script h = Ok app
          /\ hd [] (procs app)
             = [os_path_join h (exe_dir h) (fst (binary_names h)); "-version"])
  /\ (forall answer fresh st,
        procs (fst (on_export answer fresh st)) = procs st)
  /\ (forall a st,
        exists cmds,
          procs (fst (_export_worker a st)) = procs st ++ cmds
          /\ Forall (fun c => program c = "ffmpeg") cmds)
  /\ (forall path st,
        exists cmds,
          procs (fst (get_video_duration path st)) = procs st ++ cmds
          /\ Forall (fun c => program c = "ffprobe" \/ program c = "ffmpeg")
                    cmds)
  /\ (forall fresh w,
        exists cmds,
          procs (form (fst (on_preview fresh w))) = procs (form w) ++ cmds
          /\ Forall (fun c => program c = "ffmpeg") cmds).
Proof.
  assert (Hinit : forall ffmpeg_cmd ffprobe_cmd st,
      exists cmds,
        procs (fst (VideoToGifGUI__init__ ffmpeg_cmd ffprobe_cmd st))
        = procs st ++ cmds
        /\ (cmds = [[ffmpeg_cmd; "-version"]]
            \/ cmds = [[ffmpeg_cmd; "-version"]; [ffprobe_cmd; "-version"]])).
  { intros ffmpeg_cmd ffprobe_cmd st.
    unfold VideoToGifGUI__init__, mbind at 1.
    rewrite check_ffmpeg_available_spec.
    destruct (exited_zero (spawn (procs st) [ffmpeg_cmd; "-version"]));
      [destruct (exited_zero _)|]; eexists; (split; [reflexivity|]); auto. }
  split; [exact Hinit|]. split; [|split; [|split; [|split]]].
  - intros h Hlocal. unfold run_script.
    rewrite (find_ffmpeg_binaries_local h Hlocal). cbn [bind].
    eexists. split; [reflexivity|].
    destruct (Hinit (os_path_join h (exe_dir h) (fst (binary_names h)))
                    (os_path_join h (exe_dir h) (snd (binary_names h)))
                    fresh_window) as (cmds & E & Hc).
    rewrite E. destruct Hc as [-> | ->]; reflexivity.
  - intros answer fresh st.
    destruct (on_export_spec answer fresh st) as (app' & o & E & _ & Hp & _).
    rewrite E. exact Hp.
  - intros a st. destruct (lock_held st) eqn:Hl.
    + rewrite (export_worker_busy a st Hl). exists [].
      split; [cbn; now rewrite app_nil_r | constructor].
    + rewrite (export_worker_free a st Hl).
      destruct (try_finally_worker a (worker_body a) (set_lock_held true st))
        as (_ & _ & _ & Hp & _).
      rewrite Hp. apply (worker_body_programs a (set_lock_held true st)).
  - intros path st.
    destruct (get_video_duration_returns path st) as (cmds & d & E & Hc).
    exists cmds. rewrite E. split; [reflexivity|].
    destruct Hc as [-> | ->];
      repeat (apply Forall_cons || apply Forall_nil); cbn; auto.
  - intros fresh w. apply on_preview_programs.
Qed.

End Programs.

(** ** The two ways through [parse_time] *)

Lemma split_single (sep : ascii) (s x : string) :
  split sep s = [x] -> x = s.
Proof.
  revert x. induction s as [|c r IH]; intros x.
  - cbn. intros [= <-]. reflexivity.
  - rewrite split_cons. destruct (Ascii.eqb c sep).
    + intros [= _ H]. now apply split_nonempty in H.
    + destruct (split sep r) as [|h t] eqn:E; [now apply split_nonempty in E|].
      cbn [hd tl]. intros [= <- ->]. rewrite (IH h eq_refl). reflexivity.
Qed.

Lemma floats_of_fields_length (parts : list string) (fs : list float) :
  floats_of_fields parts = Some fs -> List.length fs = List.length parts.
Proof.
  revert fs. induction parts as [|p rest IH]; intros fs; cbn.
  - intros [= <-]. reflexivity.
  - destruct (float_of_str p); [|discriminate].
    destruct (floats_of_fields rest) as [l|]; [|discriminate].
    intros [= <-]. cbn. now rewrite (IH l eq_refl).
Qed.

(** The seconds [parse_time] adds up from the fields of a clock text, the
    last field counted once, the one before it 60 times, and so on. *)
Definition clock_seconds (fields : list float) : float :=
  fst (fold_left accumulate_step (rev fields) (float_0, float_1)).

(** X11: a time [parse_time] returns came one of two ways, [t] being the
    stripped text: it is [float(t)], or [t] is no number for [float], has at
    least one colon, and the time is added up from its two or more fields.  The branch for a single field
    (lines 203 and 204) is never taken: a text without a colon that
    [float(t)] refused is refused again as its own only field. *)
Theorem parse_time_is_float_or_clock (t : string) (seconds : float) :
  parse_time (Some t) = Some seconds ->
  float_of_str (strip t) = Some seconds
  \/ (float_of_str (strip t) = None
      /\ exists fields,
           floats_of_fields (split ":" (strip t)) = Some fields
           /\ (2 <= List.length fields)%nat
           /\ seconds = clock_seconds fields).
Proof.
  unfold parse_time.
  destruct (String.eqb (strip t) ""); [discriminate|].
  destruct (float_of_str (strip t)) as [f|] eqn:Ef; [intros [= <-]; now left|].
  destruct (floats_of_fields (split ":" (strip t))) as [fields|] eqn:Es;
    [|discriminate].
  pose proof (floats_of_fields_length _ _ Es) as Hlen.
  destruct fields as [|p [|q rest]].
  - intros _. exfalso. destruct (split ":" (strip t)) eqn:E;
      [now apply split_nonempty in E | discriminate].
  - intros _. exfalso.
    destruct (split ":" (strip t)) as [|x [|y l]] eqn:E; try discriminate.
    apply split_single in E. subst x. cbn in Es. rewrite Ef in Es.
    discriminate.
  - intros [= <-]. right. split; [reflexivity|].
    exists (p :: q :: rest). split; [reflexivity|]. split; [cbn; lia|].
    reflexivity.
Qed.

(** One text of each kind. *)
Lemma parse_time_is_float_or_clock_witness :
  float_of_str (strip " 1.5 ")
  = Some (S754_finite false 6755399441055744 (-52))
  /\ exists fields,
       floats_of_fields (split ":" "1:30") = Some fields
       /\ (2 <= List.length fields)%nat.
Proof.
  split.
  - destruct (parse_time_is_float_or_clock " 1.5 "
                (S754_finite false 6755399441055744 (-52)) eq_refl)
      as [H|[H _]]; [exact H | discriminate H].
  - destruct (parse_time_is_float_or_clock "1:30"
                (S754_finite false 6333186975989760 (-46)) eq_refl)
      as [H|(_ & fields & H1 & H2 & _)]; [discriminate H|].
    exists fields. split; [exact H1 | exact H2].
Defined.

(** * Reading a clock text back *)

(** ** Rounding a quotient *)

(** A location as the two bits below the last digit. *)
Definition loc_code (l : location) : Z :=
  match l with
  | loc_Exact => 0
  | loc_Inexact Lt => 1
  | loc_Inexact Eq => 2
  | loc_Inexact Gt => 3
  end.

Lemma loc_code_range (l : location) : 0 <= loc_code l <= 3.
Proof. destruct l as [|[]]; cbn; lia. Qed.

Lemma shr_record_of_loc_code (q : Z) (l : location) :
  0 <= q ->
  shr_record_of_loc q l
  = Nat.iter 2 shr_1 (Build_shr_record (4 * q + loc_code l) false false).
Proof.
  intros Hq. cbn [Nat.iter nat_rect].
  pose proof (loc_code_range l) as Hc.
  rewrite shr_1_spec by lia.
  assert (H1 : (4 * q + loc_code l) / 2 = 2 * q + loc_code l / 2).
  { replace (4 * q + loc_code l) with (loc_code l + (2 * q) * 2) by lia.
    rewrite Z.div_add by lia. lia. }
  rewrite H1.
  assert (H0 : 0 <= loc_code l / 2) by (apply Z.div_pos; lia).
  rewrite shr_1_spec by lia.
  assert (H2 : (2 * q + loc_code l / 2) / 2 = q).
  { destruct l as [|[]]; cbn [loc_code];
      [change (0 / 2) with 0 | change (2 / 2) with 1 | change (1 / 2) with 0
       | change (3 / 2) with 1];
      [replace (2 * q + 0) with (0 + q * 2) by lia
      |replace (2 * q + 1) with (1 + q * 2) by lia
      |replace (2 * q + 0) with (0 + q * 2) by lia
      |replace (2 * q + 1) with (1 + q * 2) by lia];
      rewrite Z.div_add by lia; reflexivity. }
  rewrite H2.
  assert (H3 : Z.odd (2 * q + loc_code l / 2) = Z.odd (loc_code l / 2)).
  { rewrite Z.add_comm, Z.odd_add_mul_2. reflexivity. }
  assert (H4 : Z.odd (4 * q + loc_code l) = Z.odd (loc_code l)).
  { replace (4 * q) with (2 * (2 * q)) by lia.
    rewrite Z.add_comm, Z.odd_add_mul_2. reflexivity. }
  rewrite H3, H4. destruct l as [|[]]; reflexivity.
Qed.

Lemma digits_with_code (q : positive) (c : Z) :
  0 <= c <= 3 -> Zdigits2 (4 * Zpos q + c) = Zdigits2 (Zpos q) + 2.
Proof.
  intros Hc. pose proof (digits2_bounds q) as [Hlo Hhi].
  change (Zpos (digits2_pos q)) with (Zdigits2 (Zpos q)) in *.
  set (d := Zdigits2 (Zpos q)) in *.
  assert (Hd : 0 < d) by (unfold d; cbn; lia).
  apply digits_unique; [lia|].
  replace (d + 2 - 1) with (d - 1 + 2) by lia.
  rewrite !Z.pow_add_r by lia. change (2 ^ 2) with 4. lia.
Qed.

(** Rounding from a location is rounding the exact number that has the
    location as two more digits. *)
Lemma binary_round_aux_loc (s : bool) (q : positive) (e : Z) (l : location) :
  e <= fexp64 (Zdigits2 (Zpos q) + e) ->
  binary_round_aux prec emax s (Zpos q) e l
  = binary_round_aux prec emax s (4 * Zpos q + loc_code l) (e - 2) loc_Exact.
Proof.
  intros Hn. unfold binary_round_aux.
  assert (E : shr_fexp prec emax (Zpos q) e l
              = shr_fexp prec emax (4 * Zpos q + loc_code l) (e - 2) loc_Exact).
  { unfold shr_fexp.
    rewrite (digits_with_code q _ (loc_code_range l)).
    replace (Zdigits2 (Zpos q) + 2 + (e - 2)) with (Zdigits2 (Zpos q) + e)
      by lia.
    rewrite !fexp_eq.
    remember (fexp64 (Zdigits2 (Zpos q) + e) - e) as n eqn:En.
    replace (fexp64 (Zdigits2 (Zpos q) + e) - (e - 2)) with (n + 2) by lia.
    assert (Hn0 : 0 <= n) by lia.
    rewrite (shr_record_of_loc_code (Zpos q) l) by lia.
    cbn [shr_record_of_loc].
    unfold shr. destruct n as [|p|p]; try lia.
    - cbn [Z.add]. rewrite iter_pos_nat. f_equal. lia.
    - change (Zpos p + 2) with (Zpos (p + 2)). rewrite !iter_pos_nat.
      rewrite Pos2Nat.inj_add. change (Pos.to_nat 2) with 2%nat.
      rewrite Nat.iter_add. f_equal. lia. }
  rewrite E. reflexivity.
Qed.

Lemma new_location_code (D r : Z) :
  0 <= r < D ->
  let c := loc_code (new_location D r) in
  (c = 0 /\ r = 0) \/ (c = 1 /\ 0 < 2 * r < D) \/ (c = 2 /\ 2 * r = D)
  \/ (c = 3 /\ D < 2 * r).
Proof.
  intros Hr. cbv zeta. unfold new_location.
  destruct (Z.even D) eqn:Hev;
    [unfold new_location_even | unfold new_location_odd];
    destruct (Z.eqb_spec r 0) as [->|Hne]; cbn [loc_code]; auto.
  - destruct (Z.compare_spec (2 * r) D) as [H|H|H]; cbn [loc_code]; lia.
  - assert (Hodd : Z.odd D = true) by (rewrite <- Z.negb_even, Hev; reflexivity).
    apply Z.odd_spec in Hodd. destruct Hodd as [k Hk].
    destruct (Z.compare_spec (2 * r + 1) D) as [H|H|H]; cbn [loc_code]; lia.
Qed.

(** Rounding the quotient of [m] by [D], at exponent [e], stays between any
    two floats that enclose the exact quotient. *)
Lemma quotient_round_sandwich (s : bool) (m D e a b : Z) :
  0 < D -> 0 < m / D ->
  -scale <= e - 2 ->
  e <= fexp64 (Zdigits2 (m / D) + e) ->
  representable a -> representable b ->
  a * D <= m * 2 ^ (e + scale) <= b * D ->
  within s (binary_round_aux prec emax s (m / D) e (new_location D (m mod D)))
         a b.
Proof.
  intros HD Hq Hs Hn Ha Hb [Hlo Hhi].
  pose proof (Z.div_mod m D ltac:(lia)) as Hdm.
  pose proof (Z.mod_pos_bound m D HD) as Hr.
  set (r := m mod D) in *.
  destruct (m / D) as [|q|q] eqn:Eq; try lia.
  rewrite (binary_round_aux_loc s q e _ Hn).
  pose proof (new_location_code D r Hr) as Hc. cbv zeta in Hc.
  pose proof (loc_code_range (new_location D r)) as Hcr.
  set (c := loc_code (new_location D r)) in *.
  assert (Hq' : exists q', 4 * Zpos q + c = Zpos q').
  { destruct (4 * Zpos q + c) as [|q'|q'] eqn:E; try lia. now exists q'. }
  destruct Hq' as (q' & Eq').
  assert (Hd' : Zdigits2 (Zpos q') = Zdigits2 (Zpos q) + 2)
    by (rewrite <- Eq'; apply digits_with_code; exact Hcr).
  rewrite Eq'.
  assert (Hex : e - 2 <= fexp64 (Zdigits2 (Zpos q') + (e - 2))).
  { rewrite Hd'.
    replace (Zdigits2 (Zpos q) + 2 + (e - 2)) with (Zdigits2 (Zpos q) + e)
      by lia. lia. }
  destruct (binary_round_aux_result s q' (e - 2) Hs Hex)
    as (m1 & Hm1 & Hbig & Hres).
  set (e1 := fexp64 (Zdigits2 (Zpos q') + (e - 2))) in *.
  set (n := e1 - (e - 2)) in *.
  set (qq := Zpos q' / 2 ^ n) in *.
  assert (He1 : -1074 <= e1) by (unfold e1, fexp64; lia).
  assert (Hn2 : 2 <= n).
  { unfold n, e1. rewrite Hd'.
    replace (Zdigits2 (Zpos q) + 2 + (e - 2)) with (Zdigits2 (Zpos q) + e)
      by lia. lia. }
  set (u := 2 ^ (e - 2 + scale)) in *.
  set (g := 2 ^ (e1 + scale)) in *.
  assert (Hu : 0 < u) by (apply pow2_pos; lia).
  assert (Hpn : 0 < 2 ^ (n - 2)) by (apply pow2_pos; lia).
  assert (Hp2 : 2 ^ n = 4 * 2 ^ (n - 2)).
  { replace n with (2 + (n - 2)) at 1 by lia.
    rewrite Z.pow_add_r by lia. reflexivity. }
  assert (Hg : g = 2 ^ n * u).
  { unfold g, u. rewrite <- Z.pow_add_r by lia. f_equal. unfold n. lia. }
  assert (Hfull : 2 ^ (e + scale) = 4 * u).
  { unfold u. replace (e + scale) with (2 + (e - 2 + scale)) by lia.
    rewrite Z.pow_add_r by lia. reflexivity. }
  rewrite Hfull in Hlo, Hhi.
  pose proof (Z.div_mod (Zpos q') (2 ^ n) ltac:(lia)) as Hdq. fold qq in Hdq.
  pose proof (Z.mod_pos_bound (Zpos q') (2 ^ n) ltac:(lia)) as Hrem.
  set (rem := Zpos q' mod 2 ^ n) in *.
  assert (Hqq0 : 0 <= qq) by (apply Z.div_pos; lia).
  (* the quotient by the coarse spacing, on the mantissa without its code *)
  clearbody c r. subst m.
  set (P := 2 ^ (n - 2)) in *.
  assert (HgP : g = 4 * P * u) by (rewrite Hg, Hp2; ring).
  assert (Hg0 : 0 < g) by (rewrite HgP; apply Z.mul_pos_pos; lia).
  assert (HX : 4 * (qq * P) + rem = 4 * Zpos q + c)
    by (rewrite Hp2 in Hdq; lia).
  assert (HP0 : 0 <= qq * P) by (apply Z.mul_nonneg_nonneg; lia).
  assert (Hlow : qq * P <= Zpos q) by lia.
  assert (Hupp : Zpos q + 1 <= qq * P + P) by lia.
  assert (HuD : 0 < u * D) by (apply Z.mul_pos_pos; lia).
  assert (Hru : 0 <= r * u < D * u).
  { split; [apply Z.mul_nonneg_nonneg; lia|].
    apply Z.mul_lt_mono_pos_r; lia. }
  assert (Hbelow : qq * P * (u * D) <= Zpos q * (u * D))
    by (apply Z.mul_le_mono_nonneg_r; lia).
  assert (Hrange : a <= m1 * g <= b).
  { split.
    - apply Z.le_trans with (qq * g);
        [|apply Z.mul_le_mono_nonneg_r; lia].
      destruct (representable_grid a e1 Ha He1)
        as [(a' & Ha0 & ->)|[Hgt Hsmall]].
      + fold g. fold g in Hlo. apply Z.mul_le_mono_nonneg_r; [lia|].
        apply Z.lt_succ_r. apply Z.nle_gt. intros Hge.
        assert (A1 : Z.succ qq * (P * (u * D)) <= a' * (P * (u * D))).
        { apply Z.mul_le_mono_nonneg_r; [|exact Hge].
          apply Z.mul_nonneg_nonneg; lia. }
        assert (A2 : (Zpos q + 1) * (u * D) <= (qq * P + P) * (u * D))
          by (apply Z.mul_le_mono_nonneg_r; lia).
        rewrite HgP in Hlo. lia.
      + specialize (Hbig Hgt). fold g in Hsmall.
        assert (2 ^ 52 * g <= qq * g)
          by (apply Z.mul_le_mono_nonneg_r; lia).
        lia.
    - destruct Hm1 as [->|[-> Hne]].
      + apply Z.nlt_ge. intros Hlt.
        assert (B1 : (b + 1) * D <= qq * g * D)
          by (apply Z.mul_le_mono_nonneg_r; lia).
        rewrite HgP in B1. lia.
      + fold rem in Hne.
        assert (Hstrict : qq * P * (u * D) < Zpos q * (u * D) + r * u).
        { destruct (Z.eq_dec (qq * P) (Zpos q)) as [Heq|Hneq].
          - assert (Hr0 : 0 < r) by lia.
            assert (0 < r * u) by (apply Z.mul_pos_pos; lia).
            rewrite Heq. lia.
          - assert ((qq * P + 1) * (u * D) <= Zpos q * (u * D))
              by (apply Z.mul_le_mono_nonneg_r; lia).
            lia. }
        destruct (representable_grid b e1 Hb He1)
          as [(b' & Hb0 & ->)|[Hgt Hsmall]].
        * fold g. fold g in Hhi. apply Z.mul_le_mono_nonneg_r; [lia|].
          apply Z.le_succ_l. apply Z.nle_gt. intros Hge.
          assert (B1 : b' * (P * (u * D)) <= qq * (P * (u * D))).
          { apply Z.mul_le_mono_nonneg_r; [|exact Hge].
            apply Z.mul_nonneg_nonneg; lia. }
          rewrite HgP in Hhi. lia.
        * specialize (Hbig Hgt). fold g in Hsmall.
          assert (H1 : 2 ^ 52 * g <= qq * g)
            by (apply Z.mul_le_mono_nonneg_r; lia).
          assert (H2 : b * D <= qq * g * D)
            by (apply Z.mul_le_mono_nonneg_r; lia).
          rewrite HgP in H2. lia. }
  pose proof (representable_below_overflow b Hb) as Hov.
  unfold within.
  destruct (binary_round_aux prec emax s (Zpos q') (e - 2) loc_Exact)
    as [s'|s'| |s' mm ee]; cbn [rounds_to] in Hres.
  - destruct Hres as [-> Hz]. split; [reflexivity|]. left.
    split; [reflexivity|]. fold g in Hz. rewrite Hz in Hrange. exact Hrange.
  - destruct Hres as [_ Hinf]. fold g in Hinf. clear - Hinf Hov Hrange. lia.
  - contradiction.
  - destruct Hres as (-> & Hbd & Hvalue). split; [exact Hbd|]. right.
    exists mm, ee. split; [reflexivity|]. rewrite Hvalue. exact Hrange.
Qed.

(** ** Reading a decimal fraction *)

(** The float read for [p / D] stays between any two floats that enclose the
    quotient, for a numerator and a denominator of comparable sizes. *)
Lemma quotient_to_float_sandwich (p D : positive) (a b : Z) :
  -1021 <= Zdigits2 (Zpos p) - Zdigits2 (Zpos D) <= 53 ->
  representable a -> representable b ->
  a * Zpos D <= Zpos p * unit_ticks <= b * Zpos D ->
  between (let '(mz, ez, lz) :=
             SFdiv_core_binary prec emax (Zpos p) 0 (Zpos D) 0 in
           binary_round_aux prec emax false mz ez lz) a b.
Proof.
  intros Hd Ha Hb Hab. apply within_between.
  unfold SFdiv_core_binary. rewrite fexp_eq.
  pose proof (digits2_bounds p) as [Hplo Hphi].
  pose proof (digits2_bounds D) as [HDlo HDhi].
  change (Zpos (digits2_pos p)) with (Zdigits2 (Zpos p)) in *.
  change (Zpos (digits2_pos D)) with (Zdigits2 (Zpos D)) in *.
  set (d1 := Zdigits2 (Zpos p)) in *.
  set (d2 := Zdigits2 (Zpos D)) in *.
  assert (Hd1 : 0 < d1) by (unfold d1; cbn; lia).
  assert (Hd2 : 0 < d2) by (unfold d2; cbn; lia).
  replace (d1 + 0 - (d2 + 0)) with (d1 - d2) by lia.
  assert (He : Z.min (fexp64 (d1 - d2)) (0 - 0) = d1 - d2 - 53)
    by (unfold fexp64; lia).
  rewrite He.
  replace (0 - 0 - (d1 - d2 - 53)) with (53 + d2 - d1) by lia.
  destruct (53 + d2 - d1) as [|sp|sp] eqn:Es; try lia.
  - (* no shift: the numerator has 53 digits more than the denominator *)
    pose proof (Z.div_eucl_eq (Zpos p) (Zpos D) ltac:(lia)) as Heq.
    assert (Hq : fst (Z.div_eucl (Zpos p) (Zpos D)) = Zpos p / Zpos D)
      by reflexivity.
    assert (Hr : snd (Z.div_eucl (Zpos p) (Zpos D)) = Zpos p mod Zpos D)
      by reflexivity.
    destruct (Z.div_eucl (Zpos p) (Zpos D)) as [q r]. cbn [fst snd] in Hq, Hr.
    subst q r.
    assert (Hbig : 2 ^ 52 <= Zpos p / Zpos D).
    { apply Z.div_le_lower_bound; [lia|].
      pose proof (pow2_split (d2) (d1 - 1) ltac:(lia)) as Hs.
      replace (d1 - 1 - d2) with 52 in Hs by lia. nia. }
    assert (Hdq : 53 <= Zdigits2 (Zpos p / Zpos D)).
    { destruct (Zpos p / Zpos D) as [|q|q] eqn:Eq; try lia.
      pose proof (digits2_bounds q) as [_ Hqhi].
      change (Zpos (digits2_pos q)) with (Zdigits2 (Zpos q)) in *.
      destruct (Z.le_gt_cases 53 (Zdigits2 (Zpos q))) as [H|H]; [exact H|].
      assert (Hq0 : 0 < Zdigits2 (Zpos q)) by (cbn; lia).
      pose proof (pow2_le (Zdigits2 (Zpos q)) 52 ltac:(lia)). lia. }
    apply quotient_round_sandwich; try assumption; try lia.
    + unfold scale. lia.
    + unfold fexp64. lia.
    + replace (d1 - d2 - 53 + scale) with scale by lia. exact Hab.
  - rewrite Z.shiftl_mul_pow2 by lia.
    set (m := Zpos p * 2 ^ Zpos sp).
    assert (Hq : fst (Z.div_eucl m (Zpos D)) = m / Zpos D) by reflexivity.
    assert (Hr : snd (Z.div_eucl m (Zpos D)) = m mod Zpos D) by reflexivity.
    destruct (Z.div_eucl m (Zpos D)) as [q r]. cbn [fst snd] in Hq, Hr.
    subst q r.
    pose proof (pow2_pos (Zpos sp) ltac:(lia)) as Hps.
    assert (Hbig : 2 ^ 52 <= m / Zpos D).
    { apply Z.div_le_lower_bound; [lia|]. unfold m.
      assert (H1 : 2 ^ (d1 - 1) * 2 ^ Zpos sp <= Zpos p * 2 ^ Zpos sp)
        by (apply Z.mul_le_mono_nonneg_r; lia).
      rewrite <- Z.pow_add_r in H1 by lia.
      replace (d1 - 1 + Zpos sp) with (d2 + 52) in H1 by lia.
      rewrite Z.pow_add_r in H1 by lia. nia. }
    assert (Hdq : 53 <= Zdigits2 (m / Zpos D)).
    { destruct (m / Zpos D) as [|q|q] eqn:Eq; try lia.
      pose proof (digits2_bounds q) as [_ Hqhi].
      change (Zpos (digits2_pos q)) with (Zdigits2 (Zpos q)) in *.
      destruct (Z.le_gt_cases 53 (Zdigits2 (Zpos q))) as [H|H]; [exact H|].
      assert (Hq0 : 0 < Zdigits2 (Zpos q)) by (cbn; lia).
      pose proof (pow2_le (Zdigits2 (Zpos q)) 52 ltac:(lia)). lia. }
    apply quotient_round_sandwich; try assumption; try lia.
    + unfold scale. lia.
    + unfold fexp64. lia.
    + unfold m. rewrite <- Z.mul_assoc, <- Z.pow_add_r by (unfold scale; lia).
      replace (Zpos sp + (d1 - d2 - 53 + scale)) with scale by lia.
      exact Hab.
Qed.

(** A whole number below [2^53] is read exactly. *)
Lemma whole_to_float_exact (n : Z) :
  0 <= n < 2 ^ 53 ->
  between (decimal_to_float false n 0) (n * unit_ticks) (n * unit_ticks).
Proof.
  intros Hn. unfold decimal_to_float. destruct n as [|p|p]; try lia.
  - apply between_zero. lia.
  - cbn [Z.leb Z.compare]. change (Z.to_pos (10 ^ 0)) with 1%positive.
    rewrite Pos.mul_1_r.
    apply within_between, binary_round_sandwich;
      try (apply representable_int; lia).
    + unfold scale. lia.
    + rewrite Z.add_0_l. fold unit_ticks. lia.
Qed.

(** ** Digits, colons and a dot *)

(** The number the digits of [s] continue from [acc]. *)
Fixpoint dec (acc : Z) (s : string) : Z :=
  match s with
  | String c r =>
      match digit_val c with
      | Some d => dec (10 * acc + d) r
      | None => acc
      end
  | EmptyString => acc
  end.

Definition len (s : string) : Z := Z.of_nat (String.length s).

(** The characters of a clock text. *)
Definition clock_char (c : ascii) : bool :=
  is_digit_or_dot c || Ascii.eqb c ":".

Lemma clock_char_facts (c : ascii) :
  clock_char c = true ->
  isspace c = false /\ Ascii.eqb c "_" = false
  /\ Ascii.eqb (lower c) "i" = false /\ Ascii.eqb (lower c) "n" = false
  /\ c <> "-"%char /\ c <> "+"%char.
Proof.
  destruct c as [[] [] [] [] [] [] [] []]; cbn; intros H;
    try discriminate H; repeat split; discriminate.
Qed.

Lemma is_digit_clock_char (c : ascii) : is_digit c = true -> clock_char c = true.
Proof. unfold clock_char, is_digit_or_dot. intros ->. reflexivity. Qed.

Lemma is_digit_not_colon (c : ascii) :
  is_digit c = true -> Ascii.eqb c ":" = false /\ Ascii.eqb c "." = false.
Proof.
  destruct c as [[] [] [] [] [] [] [] []]; cbn; intros H;
    try discriminate H; split; reflexivity.
Qed.

Lemma is_digit_val (c : ascii) :
  is_digit c = true -> exists d, digit_val c = Some d /\ 0 <= d <= 9.
Proof.
  unfold is_digit, digit_val.
  destruct ((48 <=? code c) && (code c <=? 57)) eqn:E; [|discriminate].
  intros _. exists (code c - 48). split; [reflexivity | lia].
Qed.

(** *** Stripping changes nothing *)

Lemma rstrip_clock (s : string) :
  all_chars clock_char s = true -> rstrip s = s.
Proof.
  induction s as [|c r IH]; [reflexivity|]. cbn [all_chars]. intros H.
  apply andb_true_iff in H. destruct H as [Hc Hr].
  rewrite rstrip_cons, (IH Hr).
  destruct (clock_char_facts c Hc) as (Hsp & _). rewrite Hsp.
  destruct r; reflexivity.
Qed.

Lemma strip_clock (s : string) :
  all_chars clock_char s = true -> strip s = s.
Proof.
  intros H. unfold strip.
  assert (Hl : lstrip s = s).
  { destruct s as [|c r]; [reflexivity|]. cbn in H |- *.
    apply andb_true_iff in H. destruct H as [Hc _].
    destruct (clock_char_facts c Hc) as (-> & _). reflexivity. }
  rewrite Hl. apply rstrip_clock, H.
Qed.

Lemma num_space_clock_char (c : ascii) :
  clock_char c = true -> num_space c = false.
Proof.
  intros H. destruct (num_space c) eqn:E; [|reflexivity].
  apply num_space_isspace in E.
  destruct (clock_char_facts c H) as (Hsp & _). congruence.
Qed.

Lemma num_strip_clock (s : string) :
  all_chars clock_char s = true -> num_strip s = s.
Proof.
  intros H. unfold num_strip.
  assert (Hl : num_lstrip s = s).
  { destruct s as [|c r]; [reflexivity|]. cbn [all_chars] in H.
    apply andb_true_iff in H. destruct H as [Hc _].
    cbn [num_lstrip]. rewrite (num_space_clock_char c Hc). reflexivity. }
  rewrite Hl. clear Hl.
  induction s as [|c r IH]; [reflexivity|]. cbn [all_chars] in H.
  apply andb_true_iff in H. destruct H as [Hc Hr].
  cbn [num_rstrip]. rewrite (IH Hr), (num_space_clock_char c Hc).
  destruct r; reflexivity.
Qed.

(** *** Reading digits *)

Definition stops (rest : string) : Prop :=
  match rest with
  | EmptyString => True
  | String c _ => digit_val c = None /\ Ascii.eqb c "_" = false
  end.

Lemma digits_tail_digits (x rest : string) (acc cnt : Z) :
  all_chars is_digit x = true -> stops rest ->
  digits_tail acc cnt (x ++ rest) = (dec acc x, cnt + len x, rest).
Proof.
  intros Hx Hrest. revert acc cnt.
  induction x as [|c x IH]; intros acc cnt.
  - cbn [append dec]. unfold len. cbn [String.length Z.of_nat].
    rewrite Z.add_0_r.
    destruct rest as [|c r]; [reflexivity|]. destruct Hrest as [Hd Hu].
    cbn [digits_tail]. rewrite Hd, Hu. reflexivity.
  - cbn [all_chars] in Hx. apply andb_true_iff in Hx. destruct Hx as [Hc Hx].
    destruct (is_digit_val c Hc) as (d & Hd & _).
    cbn [append digits_tail dec]. rewrite Hd, (IH Hx).
    f_equal. f_equal. unfold len. cbn [String.length]. lia.
Qed.

Lemma digitpart_digits (c : ascii) (x rest : string) (acc cnt : Z) :
  all_chars is_digit (String c x) = true -> stops rest ->
  digitpart acc cnt (String c x ++ rest)
  = Some (dec acc (String c x), cnt + len (String c x), rest).
Proof.
  intros Hx Hrest. cbn [all_chars] in Hx.
  apply andb_true_iff in Hx. destruct Hx as [Hc Hx].
  destruct (is_digit_val c Hc) as (d & Hd & _).
  cbn [append digitpart dec]. rewrite Hd, (digits_tail_digits x rest _ _ Hx Hrest).
  do 3 f_equal. unfold len. cbn [String.length]. lia.
Qed.

Lemma floatnumber_digits (c : ascii) (x : string) :
  all_chars is_digit (String c x) = true ->
  floatnumber (String c x) = Some (dec 0 (String c x), 0).
Proof.
  intros Hx. unfold floatnumber, number.
  pose proof (digitpart_digits c x "" 0 0 Hx I) as H.
  assert (E : (String c x ++ "")%string = String c x).
  { clear. induction (String c x) as [|a s IH]; cbn; [reflexivity|].
    now rewrite IH. }
  rewrite E in H. rewrite H. reflexivity.
Qed.

Lemma floatnumber_fraction (c1 c2 : ascii) (x y : string) :
  all_chars is_digit (String c1 x) = true ->
  all_chars is_digit (String c2 y) = true ->
  floatnumber (String c1 x ++ "." ++ String c2 y)%string
  = Some (dec (dec 0 (String c1 x)) (String c2 y), - len (String c2 y)).
Proof.
  intros Hx Hy. unfold floatnumber, number.
  rewrite (digitpart_digits c1 x ("." ++ String c2 y) 0 0 Hx)
    by (split; reflexivity).
  cbn [append].
  pose proof (digitpart_digits c2 y "" (dec 0 (String c1 x)) 0 Hy I) as H.
  assert (E : (String c2 y ++ "")%string = String c2 y).
  { clear. induction (String c2 y) as [|a s IH]; cbn; [reflexivity|].
    now rewrite IH. }
  rewrite E in H. rewrite H. cbn [exponent]. f_equal; f_equal; lia.
Qed.

Lemma floatnumber_colon (c : ascii) (x rest : string) :
  all_chars is_digit (String c x) = true ->
  floatnumber (String c x ++ String ":" rest)%string = None.
Proof.
  intros Hx. unfold floatnumber, number.
  rewrite (digitpart_digits c x (String ":" rest) 0 0 Hx)
    by (split; reflexivity).
  reflexivity.
Qed.

(** [float()] on a text of digits, colons and dots that starts with a
    digit. *)
Lemma float_of_str_clock (c : ascii) (r : string) :
  is_digit c = true -> all_chars clock_char r = true ->
  float_of_str (String c r)
  = match floatnumber (String c r) with
    | Some (n, e10) => Some (decimal_to_float false n e10)
    | None => None
    end.
Proof.
  intros Hc Hr. unfold float_of_str.
  assert (Hall : all_chars clock_char (String c r) = true)
    by (cbn; rewrite (is_digit_clock_char c Hc), Hr; reflexivity).
  rewrite (num_strip_clock _ Hall).
  destruct (clock_char_facts c (is_digit_clock_char c Hc))
    as (_ & _ & Hi & Hn & Hm & Hp).
  assert (Hsign : match String c r with
                  | String "-" r0 => (true, r0)
                  | String "+" r0 => (false, r0)
                  | _ => (false, String c r)
                  end = (false, String c r)).
  { clear - Hc. destruct c as [[] [] [] [] [] [] [] []];
      try discriminate Hc; reflexivity. }
  rewrite Hsign. cbn [lowercase String.eqb]. rewrite Hi, Hn. reflexivity.
Qed.

(** *** Splitting at the colons *)

Lemma split_no_colon (x : string) :
  all_chars is_digit_or_dot x = true -> split ":" x = [x].
Proof.
  induction x as [|c x IH]; [reflexivity|]. cbn [all_chars]. intros H.
  apply andb_true_iff in H. destruct H as [Hc Hx].
  rewrite split_cons, (IH Hx).
  assert (E : Ascii.eqb c ":" = false).
  { clear - Hc. destruct c as [[] [] [] [] [] [] [] []];
      try discriminate Hc; reflexivity. }
  rewrite E. reflexivity.
Qed.

Lemma split_at_colon (x rest : string) :
  all_chars is_digit x = true ->
  split ":" (x ++ String ":" rest) = x :: split ":" rest.
Proof.
  induction x as [|c x IH]; [reflexivity|]. cbn [all_chars]. intros H.
  apply andb_true_iff in H. destruct H as [Hc Hx].
  cbn [append]. rewrite split_cons, (IH Hx).
  destruct (is_digit_not_colon c Hc) as [-> _]. reflexivity.
Qed.

(** [parse_time] on hours, minutes and seconds with a fraction. *)
Lemma parse_time_clock (c1 c2 c3 c4 : ascii) (x y zs zf : string) :
  all_chars is_digit (String c1 x) = true ->
  all_chars is_digit (String c2 y) = true ->
  all_chars is_digit (String c3 zs) = true ->
  all_chars is_digit (String c4 zf) = true ->
  parse_time (Some (String c1 x ++ ":" ++ String c2 y ++ ":"
                    ++ String c3 zs ++ "." ++ String c4 zf)%string)
  = Some (clock_seconds
            [decimal_to_float false (dec 0 (String c1 x)) 0;
             decimal_to_float false (dec 0 (String c2 y)) 0;
             decimal_to_float false
               (dec (dec 0 (String c3 zs)) (String c4 zf))
               (- len (String c4 zf))]).
Proof.
  intros Hx Hy Hzs Hzf.
  set (z := (String c3 zs ++ "." ++ String c4 zf)%string).
  set (t := (String c1 x ++ ":" ++ String c2 y ++ ":" ++ z)%string).
  assert (Hdc : forall s, all_chars is_digit s = true ->
                          all_chars clock_char s = true).
  { intros s. apply all_chars_impl, is_digit_clock_char. }
  assert (Hdd : forall s, all_chars is_digit s = true ->
                          all_chars is_digit_or_dot s = true).
  { intros s. apply all_chars_impl. intros c H. unfold is_digit_or_dot.
    rewrite H. reflexivity. }
  assert (Hz : all_chars is_digit_or_dot z = true).
  { unfold z. rewrite !all_chars_app, (Hdd _ Hzs), (Hdd _ Hzf). reflexivity. }
  assert (Hzc : all_chars clock_char z = true).
  { revert Hz. apply all_chars_impl. intros c H. unfold clock_char.
    rewrite H. reflexivity. }
  assert (Ht : all_chars clock_char t = true).
  { unfold t. rewrite !all_chars_app, (Hdc _ Hx), (Hdc _ Hy), Hzc.
    reflexivity. }
  unfold parse_time. rewrite (strip_clock t Ht).
  assert (Hne : String.eqb t "" = false) by reflexivity.
  rewrite Hne.
  assert (Hc1 : is_digit c1 = true).
  { cbn in Hx. apply andb_true_iff in Hx. apply Hx. }
  assert (Hc2 : is_digit c2 = true).
  { cbn in Hy. apply andb_true_iff in Hy. apply Hy. }
  assert (Hc3 : is_digit c3 = true).
  { cbn in Hzs. apply andb_true_iff in Hzs. apply Hzs. }
  assert (Hwhole : float_of_str t = None).
  { unfold t. change (String c1 x ++ ":" ++ String c2 y ++ ":" ++ z)%string
      with (String c1 (x ++ ":" ++ String c2 y ++ ":" ++ z))%string.
    rewrite float_of_str_clock; [|exact Hc1|].
    - change (String c1 (x ++ ":" ++ String c2 y ++ ":" ++ z))%string
        with (String c1 x ++ String ":" (String c2 y ++ ":" ++ z))%string.
      rewrite (floatnumber_colon c1 x _ Hx). reflexivity.
    - cbn in Ht. apply andb_true_iff in Ht. apply Ht. }
  rewrite Hwhole.
  assert (Hsplit : split ":" t = [String c1 x; String c2 y; z]).
  { unfold t.
    change (String c1 x ++ ":" ++ String c2 y ++ ":" ++ z)%string
      with (String c1 x ++ String ":" (String c2 y ++ String ":" z))%string.
    rewrite (split_at_colon _ _ Hx), (split_at_colon _ _ Hy),
      (split_no_colon z Hz). reflexivity. }
  rewrite Hsplit. cbn [floats_of_fields].
  rewrite (float_of_str_clock c1 x Hc1)
    by (cbn in Hx; apply andb_true_iff in Hx; apply Hdc, Hx).
  rewrite (floatnumber_digits c1 x Hx).
  rewrite (float_of_str_clock c2 y Hc2)
    by (cbn in Hy; apply andb_true_iff in Hy; apply Hdc, Hy).
  rewrite (floatnumber_digits c2 y Hy).
  assert (Hfz : float_of_str z
                = Some (decimal_to_float false
                          (dec (dec 0 (String c3 zs)) (String c4 zf))
                          (- len (String c4 zf)))).
  { unfold z.
    change (String c3 zs ++ "." ++ String c4 zf)%string
      with (String c3 (zs ++ "." ++ String c4 zf))%string.
    rewrite float_of_str_clock; [|exact Hc3|].
    - change (String c3 (zs ++ "." ++ String c4 zf))%string
        with (String c3 zs ++ "." ++ String c4 zf)%string.
      rewrite (floatnumber_fraction c3 c4 zs zf Hzs Hzf). reflexivity.
    - unfold z in Hzc. cbn in Hzc. apply andb_true_iff in Hzc. apply Hzc. }
  rewrite Hfz. reflexivity.
Qed.

(** ** The digits [format_time_seconds] writes *)

Lemma digit_char_digit (a : Z) :
  0 <= a <= 9 ->
  is_digit (digit_char a) = true /\ digit_val (digit_char a) = Some a.
Proof.
  intros H.
  assert (Ha : a = 0 \/ a = 1 \/ a = 2 \/ a = 3 \/ a = 4 \/ a = 5 \/ a = 6
               \/ a = 7 \/ a = 8 \/ a = 9) by lia.
  repeat (destruct Ha as [->|Ha]; [split; reflexivity|]).
  subst a. split; reflexivity.
Qed.

Lemma two_digits_digits (n : Z) :
  0 <= n < 100 ->
  all_chars is_digit (two_digits n) = true
  /\ forall acc, dec acc (two_digits n) = 100 * acc + n.
Proof.
  intros Hn.
  assert (H1 : 0 <= n / 10 <= 9) by (Z.div_mod_to_equations; lia).
  pose proof (Z.mod_pos_bound n 10 ltac:(lia)) as H2.
  destruct (digit_char_digit (n / 10) H1) as [D1 V1].
  destruct (digit_char_digit (n mod 10) ltac:(lia)) as [D2 V2].
  unfold two_digits. cbn [all_chars dec]. rewrite D1, D2, V1, V2.
  split; [reflexivity|]. intros acc.
  pose proof (Z.div_mod n 10 ltac:(lia)). lia.
Qed.

Lemma three_digits_digits (n : Z) :
  0 <= n < 1000 ->
  all_chars is_digit (three_digits n) = true
  /\ forall acc, dec acc (three_digits n) = 1000 * acc + n.
Proof.
  intros Hn.
  assert (H1 : 0 <= n / 100 <= 9) by (Z.div_mod_to_equations; lia).
  pose proof (Z.mod_pos_bound n 100 ltac:(lia)) as H2.
  destruct (digit_char_digit (n / 100) H1) as [D1 V1].
  destruct (two_digits_digits (n mod 100) ltac:(lia)) as [D2 V2].
  unfold three_digits. split.
  - cbn [all_chars]. rewrite D1. exact D2.
  - intros acc. cbn [dec]. rewrite V1, V2.
    pose proof (Z.div_mod n 100 ltac:(lia)). lia.
Qed.

(** [parse_time] on a text [format_time_seconds] can write: the sum of the
    three fields as they are read. *)
Lemma parse_time_time_text (h m s ms : Z) :
  0 <= h < 100 -> 0 <= m < 100 -> 0 <= s < 100 -> 0 <= ms < 1000 ->
  parse_time (Some (time_text h m s ms))
  = Some (clock_seconds [decimal_to_float false h 0;
                         decimal_to_float false m 0;
                         decimal_to_float false (1000 * s + ms) (-3)]).
Proof.
  intros Hh Hm Hs Hms.
  destruct (two_digits_digits h Hh) as [Dh Vh].
  destruct (two_digits_digits m Hm) as [Dm Vm].
  destruct (two_digits_digits s Hs) as [Ds Vs].
  destruct (three_digits_digits ms Hms) as [Dms Vms].
  unfold time_text.
  pose proof (parse_time_clock
                (digit_char (h / 10)) (digit_char (m / 10))
                (digit_char (s / 10)) (digit_char (ms / 100))
                (String (digit_char (h mod 10)) "")
                (String (digit_char (m mod 10)) "")
                (String (digit_char (s mod 10)) "")
                (two_digits (ms mod 100)) Dh Dm Ds Dms) as H.
  fold (two_digits h) (two_digits m) (two_digits s) (three_digits ms) in H.
  rewrite H, Vh, Vm, Vms, Vs.
  replace (100 * 0 + h) with h by lia.
  replace (100 * 0 + m) with m by lia.
  replace (1000 * (100 * 0 + s) + ms) with (1000 * s + ms) by lia.
  reflexivity.
Qed.

(** ** The value read back *)

(** A spacing of [2^-34] seconds: finer than a microsecond, and every
    multiple of it below [2^19] seconds is a float. *)
Definition grid : Z := 2 ^ (scale - 34).

Lemma grid_pos : 0 < grid.
Proof. apply pow2_pos. unfold scale. lia. Qed.

Lemma unit_grid : unit_ticks = 2 ^ 34 * grid.
Proof.
  unfold unit_ticks, grid.
  rewrite (pow2_split (scale - 34) scale) by (unfold scale; lia).
  f_equal; f_equal; lia.
Qed.

Lemma representable_on_grid (k : Z) :
  0 <= k < 2 ^ 53 -> representable (k * grid).
Proof.
  intros H. destruct (Z.eq_dec k 0) as [->|Hk]; [left; reflexivity|].
  right. exists k, (-34). split; [lia|]. split; [lia|].
  unfold grid. f_equal; f_equal; lia.
Qed.

Lemma float_1_ticks : nonneg float_1 /\ ticks float_1 = 1 * unit_ticks.
Proof.
  split; [split; [reflexivity | exact I]|].
  cbn [float_1 ticks]. unfold unit_ticks.
  rewrite (pow2_split (-52 + scale) scale) by (unfold scale; lia).
  replace (scale - (-52 + scale)) with 52 by lia.
  change (Zpos 4503599627370496) with (1 * 2 ^ 52). ring.
Qed.

Lemma float_60_ticks : nonneg float_60 /\ ticks float_60 = 60 * unit_ticks.
Proof.
  split; [split; [reflexivity | exact I]|].
  cbn [float_60 ticks]. unfold unit_ticks.
  rewrite (pow2_split (-47 + scale) scale) by (unfold scale; lia).
  replace (scale - (-47 + scale)) with 47 by lia.
  change (Zpos 8444249301319680) with (60 * 2 ^ 47). ring.
Qed.

Lemma float_3600_ticks : nonneg float_3600 /\ ticks float_3600 = 3600 * unit_ticks.
Proof.
  split; [split; [reflexivity | exact I]|].
  cbn [float_3600 ticks]. unfold unit_ticks.
  rewrite (pow2_split (-41 + scale) scale) by (unfold scale; lia).
  replace (scale - (-41 + scale)) with 41 by lia.
  change (Zpos 7916483719987200) with (3600 * 2 ^ 41). ring.
Qed.

(** The multipliers of the loop: 1.0, 60.0 and 3600.0. *)
Lemma multipliers :
  fmul float_1 float_60 = float_60
  /\ fmul (fmul float_1 float_60) float_60 = float_3600.
Proof. split; vm_compute; reflexivity. Qed.

(** Multiplying by a float that is a whole number of seconds. *)
Lemma fmul_whole (x c : float) (k a b : Z) :
  nonneg c -> ticks c = k * unit_ticks -> 0 <= k ->
  between x a b ->
  representable (k * a) -> representable (k * b) ->
  between (fmul x c) (k * a) (k * b).
Proof.
  intros Hc Ec Hk [Hx Hab] Ha Hb.
  apply (fmul_sandwich x c (k * a) (k * b) Hx Hc Ha Hb).
  rewrite Ec. fold unit_ticks. pose proof unit_ticks_pos as Hu.
  set (u := unit_ticks) in *. set (t := ticks x) in *.
  split.
  - replace (t * (k * u)) with (k * t * u) by ring.
    apply Z.mul_le_mono_nonneg_r; [lia|].
    apply Z.mul_le_mono_nonneg_l; lia.
  - replace (t * (k * u)) with (k * t * u) by ring.
    apply Z.mul_le_mono_nonneg_r; [lia|].
    apply Z.mul_le_mono_nonneg_l; lia.
Qed.

Lemma fadd_between (x y : float) (a b c d : Z) :
  between x a b -> between y c d ->
  representable (a + c) -> representable (b + d) ->
  between (fadd x y) (a + c) (b + d).
Proof.
  intros [Hx Hab] [Hy Hcd] Hl Hh.
  apply (fadd_sandwich x y (a + c) (b + d) Hx Hy Hl Hh). lia.
Qed.

(** The seconds added up from an hour and a minute field that are whole
    numbers and a seconds field between two points of the grid. *)
Lemma clock_seconds_between (fh fm fs : float) (h m ka kb : Z) :
  0 <= h < 100 -> 0 <= m < 60 -> 0 <= ka <= kb -> kb <= 60 * 2 ^ 34 ->
  between fh (h * unit_ticks) (h * unit_ticks) ->
  between fm (m * unit_ticks) (m * unit_ticks) ->
  between fs (ka * grid) (kb * grid) ->
  between (clock_seconds [fh; fm; fs])
          ((3600 * h + 60 * m) * unit_ticks + ka * grid)
          ((3600 * h + 60 * m) * unit_ticks + kb * grid).
Proof.
  intros Hh Hm Hk Hkb Bh Bm Bs.
  destruct multipliers as [E60 E3600].
  destruct float_1_ticks as [N1 T1].
  destruct float_60_ticks as [N60 T60].
  destruct float_3600_ticks as [N3600 T3600].
  unfold clock_seconds.
  cbn [rev app fold_left accumulate_step fst].
  rewrite E3600, E60.
  pose proof unit_grid as Hu. pose proof grid_pos as Hg.
  set (u := unit_ticks) in *. set (g := grid) in *.
  (* seconds *)
  assert (B1 : between (fmul fs float_1) (ka * g) (kb * g)).
  { pose proof (fmul_whole fs float_1 1 (ka * g) (kb * g) N1 T1 ltac:(lia) Bs)
      as H.
    rewrite !Z.mul_1_l in H.
    apply H; apply representable_on_grid; lia. }
  assert (S1 : between (fadd float_0 (fmul fs float_1)) (ka * g) (kb * g)).
  { pose proof (fadd_between float_0 (fmul fs float_1) 0 0 (ka * g) (kb * g)
                  (between_zero false 0 0 ltac:(lia)) B1) as H.
    rewrite !Z.add_0_l in H.
    apply H; apply representable_on_grid; lia. }
  (* minutes *)
  assert (B2 : between (fmul fm float_60) (60 * (m * u)) (60 * (m * u))).
  { apply (fmul_whole fm float_60 60 (m * u) (m * u) N60 T60 ltac:(lia) Bm);
      replace (60 * (m * u)) with (60 * m * u) by ring;
      apply representable_int; lia. }
  assert (Hgrid : forall n k, n * u + k * g = (n * 2 ^ 34 + k) * g).
  { intros n k. rewrite Hu. ring. }
  assert (S2 : between (fadd (fadd float_0 (fmul fs float_1))
                             (fmul fm float_60))
                       (ka * g + 60 * (m * u)) (kb * g + 60 * (m * u))).
  { apply (fadd_between _ _ _ _ _ _ S1 B2).
    - replace (ka * g + 60 * (m * u)) with ((60 * m * 2 ^ 34 + ka) * g)
        by (rewrite Hu; ring).
      apply representable_on_grid. lia.
    - replace (kb * g + 60 * (m * u)) with ((60 * m * 2 ^ 34 + kb) * g)
        by (rewrite Hu; ring).
      apply representable_on_grid. lia. }
  (* hours *)
  assert (B3 : between (fmul fh float_3600) (3600 * (h * u)) (3600 * (h * u))).
  { apply (fmul_whole fh float_3600 3600 (h * u) (h * u) N3600 T3600
             ltac:(lia) Bh);
      replace (3600 * (h * u)) with (3600 * h * u) by ring;
      apply representable_int; lia. }
  pose proof (fadd_between _ _ _ _ _ _ S2 B3) as S3.
  replace (ka * g + 60 * (m * u) + 3600 * (h * u))
    with ((3600 * h + 60 * m) * u + ka * g) in S3 by ring.
  replace (kb * g + 60 * (m * u) + 3600 * (h * u))
    with ((3600 * h + 60 * m) * u + kb * g) in S3 by ring.
  apply S3.
  - rewrite Hgrid. apply representable_on_grid. lia.
  - rewrite Hgrid. apply representable_on_grid. lia.
Qed.

(** The seconds field, read: between the two points of the grid around
    [n / 1000]. *)
Lemma seconds_field_between (n : Z) :
  0 <= n < 60000 ->
  between (decimal_to_float false n (-3))
          (n * 2 ^ 34 / 1000 * grid) ((n * 2 ^ 34 + 999) / 1000 * grid).
Proof.
  intros Hn. pose proof grid_pos as Hg. pose proof unit_grid as Hu.
  assert (Hka : 0 <= n * 2 ^ 34 / 1000 /\ 1000 * (n * 2 ^ 34 / 1000) <= n * 2 ^ 34
                /\ n * 2 ^ 34 / 1000 < 2 ^ 53)
    by (Z.div_mod_to_equations; lia).
  assert (Hkb : 0 <= (n * 2 ^ 34 + 999) / 1000
                /\ n * 2 ^ 34 <= 1000 * ((n * 2 ^ 34 + 999) / 1000)
                /\ (n * 2 ^ 34 + 999) / 1000 < 2 ^ 53)
    by (Z.div_mod_to_equations; lia).
  set (ka := n * 2 ^ 34 / 1000) in *.
  set (kb := (n * 2 ^ 34 + 999) / 1000) in *.
  destruct n as [|p|p]; try lia.
  - change ka with 0. change kb with 0. apply between_zero. lia.
  - unfold decimal_to_float.
    change (0 <=? -3) with false. cbv iota.
    change (10 ^ (- -3)) with (Zpos 1000).
    apply quotient_to_float_sandwich;
      try (apply representable_on_grid; lia).
    + change (Zdigits2 (Zpos 1000)) with 10.
      assert (0 < Zdigits2 (Zpos p)) by (cbn; lia).
      pose proof (digits_le (Zpos p) 16 ltac:(lia) ltac:(lia)). lia.
    + rewrite Hu. set (g := grid) in *. split.
      * replace (ka * g * 1000) with (1000 * ka * g) by ring.
        replace (Zpos p * (2 ^ 34 * g)) with (Zpos p * 2 ^ 34 * g) by ring.
        apply Z.mul_le_mono_nonneg_r; lia.
      * replace (kb * g * 1000) with (1000 * kb * g) by ring.
        replace (Zpos p * (2 ^ 34 * g)) with (Zpos p * 2 ^ 34 * g) by ring.
        apply Z.mul_le_mono_nonneg_r; lia.
Qed.

(** ** Formatting what was read *)

(** [format_time_seconds] on a non-negative float: the whole seconds are
    exact, and the milliseconds are taken from the exact fraction. *)
Lemma format_time_seconds_steps (x : float) :
  nonneg x ->
  exists frac,
    between frac (ticks x mod unit_ticks) (ticks x mod unit_ticks)
    /\ forall ms,
         int_of_float (fmul frac f1000) = Ok ms ->
         format_time_seconds (Some x)
         = Ok (clock_text (ticks x / unit_ticks) ms).
Proof.
  intros Hx. pose proof unit_ticks_pos as Hu.
  pose proof (ticks_nonneg x) as Ht0.
  set (fl := ticks x / unit_ticks).
  assert (Hfl : 0 <= fl) by (apply Z.div_pos; lia).
  pose proof (Z.div_mod (ticks x) unit_ticks ltac:(lia)) as Hdm. fold fl in Hdm.
  pose proof (Z.mod_pos_bound (ticks x) unit_ticks Hu) as Hrem.
  destruct (float_of_int_exact fl Hfl) as (ffl & Effl & Hffl & Htf).
  { replace (fl * 2 ^ scale) with (ticks x / unit_ticks * unit_ticks)
      by reflexivity.
    apply floor_representable, Hx. }
  fold unit_ticks in Htf.
  exists (fsub x ffl). split.
  - apply fsub_sandwich; try assumption; try (apply frac_representable, Hx);
      lia.
  - intros ms Ems. unfold format_time_seconds.
    rewrite (floor_ticks x Hx). fold unit_ticks fl.
    cbn [bind]. rewrite Effl. cbn [bind]. rewrite float_of_int_1000.
    cbn [bind]. rewrite Ems. reflexivity.
Qed.

(** The milliseconds of a fraction lie between the whole parts of any two
    floats that enclose a thousand times the fraction. *)
Lemma millis_between (frac : float) (t a b : Z) :
  between frac t t ->
  representable a -> representable b -> a <= 1000 * t <= b ->
  exists ms,
    int_of_float (fmul frac f1000) = Ok ms
    /\ a / unit_ticks <= ms <= b / unit_ticks.
Proof.
  intros [Hfrac Ht] Ha Hb Hab. pose proof unit_ticks_pos as Hu.
  destruct f1000_ticks as [Hk Ek].
  destruct (fmul_sandwich frac f1000 a b Hfrac Hk Ha Hb) as [Hp Hpt].
  - rewrite Ek. fold unit_ticks.
    replace (ticks frac) with t by lia.
    set (u := unit_ticks) in *.
    replace (t * (1000 * u)) with (1000 * t * u) by ring.
    split; apply Z.mul_le_mono_nonneg_r; lia.
  - exists (ticks (fmul frac f1000) / unit_ticks).
    split; [apply int_of_float_ticks; exact Hp|].
    split; apply Z.div_le_mono; lia.
Qed.

Lemma clock_fields (h m s : Z) :
  0 <= m < 60 -> 0 <= s < 60 ->
  (3600 * h + 60 * m + s) / 60 / 60 = h
  /\ ((3600 * h + 60 * m + s) / 60) mod 60 = m
  /\ (3600 * h + 60 * m + s) mod 60 = s.
Proof.
  intros Hm Hs.
  assert (E : (3600 * h + 60 * m + s) / 60 = 60 * h + m).
  { symmetry. apply Z.div_unique with s; lia. }
  rewrite E. split; [|split].
  - symmetry. apply Z.div_unique with m; lia.
  - symmetry. apply Z.mod_unique with h; lia.
  - symmetry. apply Z.mod_unique with (60 * h + m); lia.
Qed.

(** The round trip of a clock text through [parse_time] and
    [format_time_seconds], field by field: [ms'] is the millisecond field
    that comes back. *)
Lemma round_trip_millis (h m s ms : Z) :
  0 <= h < 100 -> 0 <= m < 60 -> 0 <= s < 60 -> 0 <= ms < 1000 ->
  exists x ms',
    parse_time (Some (time_text h m s ms)) = Some x
    /\ nonneg x
    /\ format_time_seconds (Some x) = Ok (time_text h m s ms')
    /\ (ms' = ms \/ (ms' = ms - 1 /\ 0 < ms))
    /\ (ms mod 125 = 0 -> ms' = ms).
Proof.
  intros Hh Hm Hs Hms.
  rewrite parse_time_time_text by lia.
  pose proof (whole_to_float_exact h ltac:(lia)) as Bh.
  pose proof (whole_to_float_exact m ltac:(lia)) as Bm.
  pose proof (seconds_field_between (1000 * s + ms) ltac:(lia)) as Bs.
  assert (Hk : s * 2 ^ 34 <= (1000 * s + ms) * 2 ^ 34 / 1000
               /\ (1000 * s + ms) * 2 ^ 34 / 1000
                  <= ((1000 * s + ms) * 2 ^ 34 + 999) / 1000
               /\ ((1000 * s + ms) * 2 ^ 34 + 999) / 1000 < (s + 1) * 2 ^ 34
               /\ ms * 2 ^ 34 - 999
                  <= 1000 * ((1000 * s + ms) * 2 ^ 34 / 1000 - s * 2 ^ 34)
               /\ 1000 * (((1000 * s + ms) * 2 ^ 34 + 999) / 1000 - s * 2 ^ 34)
                  <= ms * 2 ^ 34 + 999
               /\ (ms = 0 ->
                   (1000 * s + ms) * 2 ^ 34 / 1000 = s * 2 ^ 34
                   /\ ((1000 * s + ms) * 2 ^ 34 + 999) / 1000 = s * 2 ^ 34)
               /\ (ms mod 125 = 0 ->
                   1000 * ((1000 * s + ms) * 2 ^ 34 / 1000 - s * 2 ^ 34)
                   = ms * 2 ^ 34))
    by (Z.div_mod_to_equations; lia).
  set (ka := (1000 * s + ms) * 2 ^ 34 / 1000) in *.
  set (kb := ((1000 * s + ms) * 2 ^ 34 + 999) / 1000) in *.
  destruct Hk as (Hk1 & Hk2 & Hk3 & Hk4 & Hk5 & Hk6 & Hk7).
  pose proof (clock_seconds_between _ _ _ h m ka kb Hh Hm ltac:(lia)
                ltac:(lia) Bh Bm Bs) as [Nx Hx].
  set (x := clock_seconds
              [decimal_to_float false h 0; decimal_to_float false m 0;
               decimal_to_float false (1000 * s + ms) (-3)]) in *.
  exists x.
  pose proof unit_ticks_pos as Hu. pose proof grid_pos as Hg.
  pose proof unit_grid as Hug.
  assert (He : 0 < 2 ^ (-43 + scale)) by (apply pow2_pos; unfold scale; lia).
  assert (Hge : grid = 512 * 2 ^ (-43 + scale)).
  { unfold grid.
    rewrite (pow2_split (-43 + scale) (scale - 34)) by (unfold scale; lia).
    f_equal; f_equal; lia. }
  set (u := unit_ticks) in *. set (g := grid) in *.
  set (e := 2 ^ (-43 + scale)) in *.
  set (T := 3600 * h + 60 * m + s).
  set (fa := ka - s * 2 ^ 34). set (fb := kb - s * 2 ^ 34).
  set (w := ticks x - T * u).
  assert (Hfa : fa * g <= w).
  { unfold w, T, fa. rewrite Hug.
    replace ((ka - s * 2 ^ 34) * g)
      with ((3600 * h + 60 * m) * (2 ^ 34 * g) + ka * g
            - (3600 * h + 60 * m + s) * (2 ^ 34 * g)) by ring.
    rewrite <- Hug. lia. }
  assert (Hfb : w <= fb * g).
  { unfold w, T, fb. rewrite Hug.
    replace ((kb - s * 2 ^ 34) * g)
      with ((3600 * h + 60 * m) * (2 ^ 34 * g) + kb * g
            - (3600 * h + 60 * m + s) * (2 ^ 34 * g)) by ring.
    rewrite <- Hug. lia. }
  assert (Hfa0 : 0 <= fa * g) by (apply Z.mul_nonneg_nonneg; unfold fa; lia).
  assert (Hfb1 : fb * g <= (2 ^ 34 - 1) * g)
    by (apply Z.mul_le_mono_nonneg_r; unfold fb; lia).
  assert (Hw : 0 <= w < u) by lia.
  assert (Hdiv : ticks x / u = T).
  { symmetry. apply Z.div_unique with w; [lia | unfold w; ring]. }
  assert (Hmod : ticks x mod u = w).
  { symmetry. apply Z.mod_unique with T; [lia | unfold w; ring]. }
  destruct (format_time_seconds_steps x Nx) as (frac & Bf & Hfmt).
  fold u in Bf, Hfmt. rewrite Hmod in Bf. rewrite Hdiv in Hfmt.
  assert (Hlo : (ms * 2 ^ 34 - 999) * g <= 1000 * w).
  { apply Z.le_trans with (1000 * fa * g);
      [apply Z.mul_le_mono_nonneg_r; unfold fa; lia | lia]. }
  assert (Hhi : 1000 * w <= (ms * 2 ^ 34 + 999) * g).
  { apply Z.le_trans with (1000 * fb * g);
      [lia | apply Z.mul_le_mono_nonneg_r; unfold fb; lia]. }
  assert (Hmsu : ms * u = ms * 2 ^ 34 * g) by (rewrite Hug; ring).
  assert (Hms' : exists ms',
             int_of_float (fmul frac f1000) = Ok ms'
             /\ (ms' = ms \/ (ms' = ms - 1 /\ 0 < ms))
             /\ (ms mod 125 = 0 -> ms' = ms)).
  { destruct (Z.eq_dec ms 0) as [Hz|Hnz].
    - destruct (Hk6 Hz) as [Ea Eb].
      assert (Hw0 : w = 0) by (unfold fa, fb in *; rewrite Ea in Hfa;
                                rewrite Eb in Hfb; lia).
      destruct (millis_between frac w 0 0 Bf) as (ms' & E & Hb);
        try (left; reflexivity); [lia|].
      assert (Hsame : ms' = ms)
        by (fold u in Hb; rewrite Z.div_0_l in Hb by lia; lia).
      exists ms'. split; [exact E|]. split; [left; exact Hsame|].
      intros _. exact Hsame.
    - destruct (Z.le_gt_cases (ms * u) (1000 * w)) as [Hup|Hdown].
      + (* at or above the millisecond *)
        assert (Hrb : representable (((ms + 1) * 2 ^ 43 - 1) * e)).
        { right. exists ((ms + 1) * 2 ^ 43 - 1), (-43).
          split; [lia|]. split; [lia | reflexivity]. }
        assert (Hue : u = 2 ^ 43 * e) by (rewrite Hug, Hge; ring).
        assert (Hbv : ((ms + 1) * 2 ^ 43 - 1) * e = u * ms + (u - e))
          by (rewrite Hue; ring).
        destruct (millis_between frac w (ms * u) (((ms + 1) * 2 ^ 43 - 1) * e)
                    Bf (representable_int ms ltac:(lia)) Hrb)
          as (ms' & E & Hb).
        { split; [exact Hup|]. rewrite Hbv. lia. }
        fold u in Hb.
        assert (E1 : ms * u / u = ms) by (apply Z.div_mul; lia).
        assert (E2 : ((ms + 1) * 2 ^ 43 - 1) * e / u = ms).
        { symmetry. apply Z.div_unique with (u - e); [lia | exact Hbv]. }
        rewrite E1, E2 in Hb.
        assert (Hsame : ms' = ms) by lia.
        exists ms'. split; [exact E|]. split; [left; exact Hsame|].
        intros _. exact Hsame.
      + (* just below the millisecond *)
        destruct (millis_between frac w ((ms - 1) * u) (ms * u) Bf
                    (representable_int (ms - 1) ltac:(lia))
                    (representable_int ms ltac:(lia)))
          as (ms' & E & Hb); [lia|].
        exists ms'. split; [exact E|].
        fold u in Hb.
        assert (E1 : (ms - 1) * u / u = ms - 1) by (apply Z.div_mul; lia).
        assert (E2 : ms * u / u = ms) by (apply Z.div_mul; lia).
        rewrite E1, E2 in Hb. split; [lia|].
        intros H125. exfalso.
        assert (Hex : 1000 * fa * g = ms * u).
        { rewrite Hmsu. unfold fa. rewrite (Hk7 H125). reflexivity. }
        assert (H1000 : 1000 * fa * g <= 1000 * w).
        { rewrite <- Z.mul_assoc. apply Z.mul_le_mono_nonneg_l; lia. }
        lia. }
  destruct Hms' as (ms' & E & Hcases & Hexact).
  exists ms'. split; [reflexivity|]. split; [exact Nx|].
  split; [|split; [exact Hcases | exact Hexact]].
  rewrite (Hfmt ms' E). f_equal. unfold clock_text, time_text.
  destruct (clock_fields h m s Hm Hs) as (E1 & E2 & E3). fold T in E1, E2, E3.
  rewrite E1, E2, E3.
  rewrite (format_d_two_digits h) by lia.
  rewrite (format_d_two_digits m) by lia.
  rewrite (format_d_two_digits s) by lia.
  rewrite (format_d_three_digits ms') by lia.
  reflexivity.
Qed.

(** X12: a text [format_time_seconds] can write for less than a hundred hours,
    read back by [parse_time] and formatted again: the hours, minutes and
    seconds come back as they were; the milliseconds come back as they were
    or one less, and unchanged when they are 000.  (The decimal fraction is
    read as the nearest float, which may lie just below it, and the
    milliseconds are cut off, not rounded.) *)
Theorem clock_text_round_trip (h m s ms : Z) :
  0 <= h < 100 -> 0 <= m < 60 -> 0 <= s < 60 -> 0 <= ms < 1000 ->
  exists x ms',
    parse_time (Some (time_text h m s ms)) = Some x
    /\ nonneg x
    /\ format_time_seconds (Some x) = Ok (time_text h m s ms')
    /\ (ms' = ms \/ (ms' = ms - 1 /\ 0 < ms)).
Proof.
  intros Hh Hm Hs Hms.
  destruct (round_trip_millis h m s ms Hh Hm Hs Hms)
    as (x & ms' & Hp & Hn & Hf & Hc & _).
  exists x, ms'. split; [exact Hp|]. split; [exact Hn|].
  split; [exact Hf | exact Hc].
Qed.

(** One text that loses a millisecond, and one that does not. *)
Lemma clock_text_round_trip_witness :
  (exists x, parse_time (Some "00:00:01.001") = Some x
             /\ format_time_seconds (Some x) = Ok "00:00:01.000")
  /\ (exists x, parse_time (Some "01:02:03.500") = Some x
                /\ format_time_seconds (Some x) = Ok "01:02:03.500").
Proof.
  split.
  - destruct (clock_text_round_trip 0 0 1 1) as (x & ms' & Hp & _ & Hf & Hc);
      try lia.
    exists x. split; [exact Hp|].
    vm_compute in Hp. injection Hp as <-. vm_compute. reflexivity.
  - destruct (clock_text_round_trip 1 2 3 500) as (x & ms' & Hp & _ & Hf & Hc);
      try lia.
    exists x. split; [exact Hp|].
    vm_compute in Hp. injection Hp as <-. vm_compute. reflexivity.
Defined.

(** C1: a well-formed time text HH:MM:SS.mmm, parsed by [parse_time] and
    formatted by [format_time_seconds], comes back as the original text or as
    the text one millisecond before it: the hour, minute and second fields
    come back as they were, and the millisecond field unchanged or one less.
    It comes back as the original text at least when the milliseconds are a
    multiple of 125, 000 among them, which a float holds exactly. *)
Theorem round_trip_up_to_a_millisecond (h m s ms : Z) :
  0 <= h < 100 -> 0 <= m < 60 -> 0 <= s < 60 -> 0 <= ms < 1000 ->
  exists x back,
    parse_time (Some (time_text h m s ms)) = Some x
    /\ format_time_seconds (Some x) = Ok back
    /\ (back = time_text h m s ms
        \/ (0 < ms /\ back = time_text h m s (ms - 1)))
    /\ (ms mod 125 = 0 -> back = time_text h m s ms).
Proof.
  intros Hh Hm Hs Hms.
  destruct (round_trip_millis h m s ms Hh Hm Hs Hms)
    as (x & ms' & Hp & _ & Hf & Hc & Hexact).
  exists x, (time_text h m s ms'). split; [exact Hp|]. split; [exact Hf|].
  split.
  - destruct Hc as [->|[-> Hpos]]; [left; reflexivity|].
    right. split; [exact Hpos | reflexivity].
  - intros H125. rewrite (Hexact H125). reflexivity.
Qed.

(** Half past three seconds after 01:02: the text comes back as it was. *)
Lemma round_trip_up_to_a_millisecond_witness :
  exists x,
    parse_time (Some "01:02:03.500") = Some x
    /\ format_time_seconds (Some x) = Ok "01:02:03.500".
Proof.
  destruct (round_trip_up_to_a_millisecond 1 2 3 500)
    as (x & back & Hp & Hf & _ & Hexact); try lia.
  exists x. split; [exact Hp|]. rewrite Hf, (Hexact eq_refl). reflexivity.
Defined.

(** One second and a millisecond comes back as one second: the float nearest
    to 1.001 lies below it, and the milliseconds are cut off. *)
Lemma millisecond_lost_in_round_trip :
  time_text 0 0 1 1 = "00:00:01.001"
  /\ exists x,
       parse_time (Some "00:00:01.001") = Some x
       /\ format_time_seconds (Some x) = Ok "00:00:01.000"
       /\ format_time_seconds (Some x) <> Ok "00:00:01.001".
Proof.
  split; [reflexivity|]. eexists. split; [vm_compute; reflexivity|].
  split; [vm_compute; reflexivity | vm_compute; discriminate].
Qed.

(** ** The output file and the save dialog *)

Definition no_slash (c : ascii) : bool := negb (Ascii.eqb c "/").
Definition plain (c : ascii) : bool :=
  negb (Ascii.eqb c "/") && negb (Ascii.eqb c ".").

Lemma basename_no_slash (name : string) :
  all_chars no_slash name = true -> basename name = name.
Proof.
  destruct name as [|c r]; [reflexivity|]. intros H.
  cbn [basename]. fold no_slash. rewrite H. reflexivity.
Qed.

Lemma basename_after_slash (dir name : string) :
  all_chars no_slash name = true ->
  basename (dir ++ String "/" name) = name.
Proof.
  intros H. induction dir as [|c dir IH].
  - cbn [append basename all_chars]. cbn [Ascii.eqb Bool.eqb negb andb].
    apply basename_no_slash, H.
  - cbn [append basename]. fold no_slash.
    assert (E : all_chars no_slash (String c (dir ++ String "/" name)) = false).
    { cbn [all_chars]. rewrite all_chars_app. cbn [all_chars].
      unfold no_slash at 3. cbn [Ascii.eqb Bool.eqb negb].
      rewrite andb_false_r. apply andb_false_r. }
    rewrite E. exact IH.
Qed.

Lemma before_last_dot_plain (ext : string) :
  all_chars plain ext = true -> before_last_dot ext = None.
Proof.
  induction ext as [|c r IH]; [reflexivity|]. cbn [all_chars]. intros H.
  apply andb_true_iff in H. destruct H as [Hc Hr].
  cbn [before_last_dot]. rewrite (IH Hr).
  unfold plain in Hc. apply andb_true_iff in Hc. destruct Hc as [_ Hc].
  apply negb_true_iff in Hc. rewrite Hc. reflexivity.
Qed.

Lemma before_last_dot_append (stem ext : string) :
  all_chars plain ext = true ->
  before_last_dot (stem ++ String "." ext) = Some stem.
Proof.
  intros H. induction stem as [|c stem IH].
  - cbn [append before_last_dot]. rewrite (before_last_dot_plain ext H).
    reflexivity.
  - cbn [append before_last_dot]. rewrite IH. reflexivity.
Qed.

Section SaveDialog.
Context {RT : Runtime}.

Ltac explode_goal :=
  repeat match goal with
         | |- context [match ?x with _ => _ end] => destruct x eqn:?
         end.

Ltac disjunct_holds :=
  first [ reflexivity | assumption
        | do 2 eexists; repeat split; first [reflexivity | eassumption] ].

Ltac pick_disjunct :=
  first [ solve [disjunct_holds] | left; solve [disjunct_holds]
        | right; pick_disjunct ].

Lemma on_export_ignores_answer (answer answer' fresh : string) (a : App) :
  strip (output_var a) <> "" ->
  on_export answer fresh a = on_export answer' fresh a.
Proof.
  intros Hout. apply String.eqb_neq in Hout.
  unfold on_export.
  cbv beta zeta delta [mbind ret showerror showwarning messagebox modify
                       mkdtemp log].
  rewrite Hout.
  explode_goal; reflexivity.
Qed.

(** X13: the save dialog and the output field.  [choose_output] proposes the
    input file's name with its extension replaced by [.gif] and without its
    directory; a cancelled dialog changes nothing, and an answer is stored in
    the output field as it is and logged.  [on_export] consults its own save
    dialog only if the output field is blank: with a non-blank field the
    dialog's answer plays no part, and with a blank field a cancelled dialog
    ends a valid export request silently, with no worker, no message, no log
    line and no directory. *)
Theorem save_dialog_only_for_blank_output :
  (forall dir stem ext a,
      all_chars no_slash stem = true ->
      all_chars (Ascii.eqb ".") stem = false ->
      all_chars plain ext = true ->
      input_path a = Some (dir ++ "/" ++ stem ++ "." ++ ext)%string ->
      initial_file a = (stem ++ ".gif")%string)
  /\ (forall ask a,
        ask (initial_file a) = "" -> choose_output ask a = (a, Ok tt))
  /\ (forall ask a path,
        ask (initial_file a) = path -> path <> "" ->
        choose_output ask a
        = (set_log_text (log_text a ++ [rstrip ("Output set: " ++ path)])
             (set_output_var path a), Ok tt))
  /\ (forall answer answer' fresh a,
        strip (output_var a) <> "" ->
        on_export answer fresh a = on_export answer' fresh a)
  /\ (forall fresh a,
        ~ invalid_input a -> strip (output_var a) = "" ->
        let res := on_export "" fresh a in
        snd res = Ok None
        /\ dialogs (fst res) = dialogs a
        /\ log_text (fst res) = log_text a
        /\ tempdirs (fst res) = tempdirs a
        /\ output_var (fst res) = output_var a).
Proof.
  split; [|split; [|split; [|split]]].
  - intros dir stem ext a Hstem Hdots Hext Hin.
    unfold initial_file. rewrite Hin.
    assert (Hname : all_chars no_slash (stem ++ String "." ext) = true).
    { rewrite all_chars_app. rewrite Hstem. cbn [all_chars andb].
      unfold no_slash at 1. cbn [Ascii.eqb Bool.eqb negb andb].
      revert Hext. clear. induction ext as [|c r IH]; [reflexivity|].
      cbn [all_chars]. intros H. apply andb_true_iff in H.
      destruct H as [Hc Hr]. rewrite (IH Hr).
      unfold plain in Hc. apply andb_true_iff in Hc. destruct Hc as [Hc _].
      unfold no_slash. rewrite Hc. reflexivity. }
    change (dir ++ "/" ++ stem ++ "." ++ ext)%string
      with (dir ++ String "/" (stem ++ String "." ext))%string.
    rewrite (basename_after_slash dir _ Hname).
    destruct (dir ++ String "/" (stem ++ String "." ext))%string eqn:E.
    { destruct dir; discriminate E. }
    unfold splitext_root. rewrite (before_last_dot_append stem ext Hext).
    rewrite Hdots. reflexivity.
  - intros ask a H. unfold choose_output. rewrite H. reflexivity.
  - intros ask a path H Hne. unfold choose_output. rewrite H.
    assert (Ht : str_truthy path = true).
    { unfold str_truthy. apply negb_true_iff. now apply String.eqb_neq. }
    rewrite Ht. reflexivity.
  - intros answer answer' fresh a. apply on_export_ignores_answer.
  - intros fresh a Hvalid Hout res. unfold res, on_export, invalid_input in *.
    unfold resolved_end in Hvalid.
    cbv beta zeta delta [mbind ret showerror showwarning messagebox modify
                         mkdtemp log].
    rewrite Hout. cbn [String.eqb].
    explode_goal; cbn;
      try (repeat split; reflexivity);
      exfalso; apply Hvalid;
      repeat match goal with
             | H : negb _ = true |- _ => apply negb_true_iff in H
             end;
      pick_disjunct.
Qed.

End SaveDialog.

(** ** Clock texts of whole numbers *)

(** A field of digits: at least one. *)
Definition digit_field (f : string) : Prop :=
  f <> "" /\ all_chars is_digit f = true.

(** The float a field of digits is read as. *)
Definition whole (f : string) : float := decimal_to_float false (dec 0 f) 0.

Lemma dec_nonneg (s : string) (acc : Z) : 0 <= acc -> 0 <= dec acc s.
Proof.
  revert acc. induction s as [|c r IH]; intros acc H; cbn [dec]; [exact H|].
  unfold digit_val.
  destruct ((48 <=? code c) && (code c <=? 57)) eqn:E; [|exact H].
  apply IH. lia.
Qed.

Lemma float_of_str_digit_field (f : string) :
  digit_field f -> float_of_str f = Some (whole f).
Proof.
  intros [Hne Hd]. destruct f as [|c r]; [congruence|].
  assert (Hc : is_digit c = true /\ all_chars is_digit r = true)
    by (cbn in Hd; now apply andb_true_iff in Hd).
  destruct Hc as [Hc Hr].
  rewrite (float_of_str_clock c r Hc)
    by (revert Hr; apply all_chars_impl, is_digit_clock_char).
  rewrite (floatnumber_digits c r Hd). reflexivity.
Qed.

Lemma split_digit_fields (f : string) (rest : list string) :
  Forall digit_field (f :: rest) ->
  split ":" (String.concat ":" (f :: rest)) = f :: rest.
Proof.
  revert f. induction rest as [|g rest IH]; intros f H.
  - cbn [String.concat]. apply split_no_colon.
    inversion H as [|? ? [_ Hd] _]; subst. revert Hd.
    apply all_chars_impl. intros c Hc. unfold is_digit_or_dot.
    rewrite Hc. reflexivity.
  - inversion H as [|? ? [_ Hd] Hrest]; subst.
    change (String.concat ":" (f :: g :: rest))
      with (f ++ String ":" (String.concat ":" (g :: rest)))%string.
    rewrite (split_at_colon _ _ Hd), (IH g Hrest). reflexivity.
Qed.

Lemma floats_of_digit_fields (fields : list string) :
  Forall digit_field fields ->
  floats_of_fields fields = Some (map whole fields).
Proof.
  induction 1 as [|f rest Hf _ IH]; [reflexivity|].
  cbn [floats_of_fields map]. rewrite (float_of_str_digit_field f Hf), IH.
  reflexivity.
Qed.

Lemma concat_clock_chars (fields : list string) :
  Forall digit_field fields ->
  all_chars clock_char (String.concat ":" fields) = true.
Proof.
  induction 1 as [|f rest [_ Hd] Hrest IH]; [reflexivity|].
  assert (Hf : all_chars clock_char f = true)
    by (revert Hd; apply all_chars_impl, is_digit_clock_char).
  destruct rest as [|g rest]; [exact Hf|].
  change (String.concat ":" (f :: g :: rest))
    with (f ++ String ":" (String.concat ":" (g :: rest)))%string.
  rewrite all_chars_app, Hf. cbn [all_chars andb].
  rewrite IH. reflexivity.
Qed.

(** [parse_time] on two or more fields of digits. *)
Lemma parse_time_digit_fields (f g : string) (rest : list string) :
  Forall digit_field (f :: g :: rest) ->
  parse_time (Some (String.concat ":" (f :: g :: rest)))
  = Some (clock_seconds (map whole (f :: g :: rest))).
Proof.
  intros H. pose proof (concat_clock_chars _ H) as Hall.
  unfold parse_time. rewrite (strip_clock _ Hall).
  inversion H as [|? ? [Hne Hd] Hrest]; subst.
  destruct f as [|c r]; [congruence|].
  change (String.concat ":" (String c r :: g :: rest))
    with (String c r ++ String ":" (String.concat ":" (g :: rest)))%string
    in *.
  cbn [append String.eqb].
  assert (Hc : is_digit c = true)
    by (cbn in Hd; apply andb_true_iff in Hd; apply Hd).
  assert (Hwhole : float_of_str
                     (String c (r ++ String ":" (String.concat ":" (g :: rest))))
                   = None).
  { rewrite float_of_str_clock; [|exact Hc|].
    - change (String c (r ++ String ":" (String.concat ":" (g :: rest))))
        with (String c r ++ String ":" (String.concat ":" (g :: rest)))%string.
      rewrite (floatnumber_colon c r _ Hd). reflexivity.
    - cbn [append all_chars] in Hall. apply andb_true_iff in Hall.
      apply Hall. }
  rewrite Hwhole.
  change (String c (r ++ String ":" (String.concat ":" (g :: rest))))
    with (String.concat ":" (String c r :: g :: rest)).
  rewrite (split_digit_fields _ _ H), (floats_of_digit_fields _ H).
  reflexivity.
Qed.

(** *** Floats with the same value *)

Lemma same_ticks (x y : float) :
  nonneg x -> nonneg y -> ticks x = ticks y -> 0 < ticks x -> x = y.
Proof.
  intros [Vx Hx] [Vy Hy] E Hpos.
  destruct x as [sx|sx| |[] m e]; try contradiction; cbn [ticks] in Hpos;
    try lia.
  destruct y as [sy|sy| |[] m' e']; try contradiction; cbn [ticks] in E;
    try lia.
  destruct (nonneg_exponent _ _ _ Vx) as (He & Hm & Hc).
  destruct (nonneg_exponent _ _ _ Vy) as (He' & Hm' & Hc').
  pose proof (digits2_bounds m) as [Hlo Hhi].
  pose proof (digits2_bounds m') as [Hlo' Hhi'].
  change (Zpos (digits2_pos m)) with (Zdigits2 (Zpos m)) in *.
  change (Zpos (digits2_pos m')) with (Zdigits2 (Zpos m')) in *.
  set (d := Zdigits2 (Zpos m)) in *. set (d' := Zdigits2 (Zpos m')) in *.
  assert (Hd : 0 < d) by (unfold d; cbn; lia).
  assert (Hd' : 0 < d') by (unfold d'; cbn; lia).
  assert (Hs : 0 <= e + scale /\ 0 <= e' + scale) by (unfold scale; lia).
  pose proof (pow2_pos (e + scale) ltac:(lia)) as Hp.
  pose proof (pow2_pos (e' + scale) ltac:(lia)) as Hp'.
  assert (Hbin : forall dd ee mm,
             0 < dd -> 0 <= ee + scale ->
             2 ^ (dd - 1) <= mm < 2 ^ dd ->
             2 ^ (dd - 1 + (ee + scale)) <= mm * 2 ^ (ee + scale)
             < 2 ^ (dd + (ee + scale))).
  { intros dd ee mm H1 H2 [H3 H4].
    rewrite (Z.pow_add_r 2 (dd - 1) (ee + scale)) by lia.
    rewrite (Z.pow_add_r 2 dd (ee + scale)) by lia.
    pose proof (pow2_pos (ee + scale) H2).
    split; [apply Z.mul_le_mono_nonneg_r; lia
           | apply Zmult_lt_compat_r; lia]. }
  pose proof (Hbin d e (Zpos m) Hd ltac:(lia) (conj Hlo Hhi)) as B.
  pose proof (Hbin d' e' (Zpos m') Hd' ltac:(lia) (conj Hlo' Hhi')) as B'.
  rewrite E in B.
  assert (Hde : d + e = d' + e').
  { destruct (Z.lt_trichotomy (d + e) (d' + e')) as [Hlt|[Heq|Hgt]];
      [|exact Heq|].
    - pose proof (pow2_le (d + (e + scale)) (d' - 1 + (e' + scale))
                    ltac:(lia)). lia.
    - pose proof (pow2_le (d' + (e' + scale)) (d - 1 + (e + scale))
                    ltac:(lia)). lia. }
  assert (Hee : e = e') by (rewrite Hc, Hc'; fold d d'; rewrite Hde; reflexivity).
  subst e'. f_equal. apply Pos2Z.inj.
  apply Z.mul_cancel_r with (2 ^ (e + scale)); lia.
Qed.

(** *** The value *)

Lemma clock_seconds_whole (fh fm fs : float) (h m s : Z) :
  0 <= h < 2 ^ 40 -> 0 <= m < 2 ^ 40 -> 0 <= s < 2 ^ 40 ->
  between fh (h * unit_ticks) (h * unit_ticks) ->
  between fm (m * unit_ticks) (m * unit_ticks) ->
  between fs (s * unit_ticks) (s * unit_ticks) ->
  between (clock_seconds [fm; fs])
          ((60 * m + s) * unit_ticks) ((60 * m + s) * unit_ticks)
  /\ between (clock_seconds [fh; fm; fs])
             ((3600 * h + 60 * m + s) * unit_ticks)
             ((3600 * h + 60 * m + s) * unit_ticks).
Proof.
  intros Hh Hm Hs Bh Bm Bs.
  destruct multipliers as [E60 E3600].
  destruct float_1_ticks as [N1 T1].
  destruct float_60_ticks as [N60 T60].
  destruct float_3600_ticks as [N3600 T3600].
  unfold clock_seconds.
  cbn [rev app fold_left accumulate_step fst].
  rewrite E3600, E60.
  set (u := unit_ticks) in *.
  assert (B1 : between (fmul fs float_1) (s * u) (s * u)).
  { pose proof (fmul_whole fs float_1 1 (s * u) (s * u) N1 T1 ltac:(lia) Bs)
      as H.
    rewrite !Z.mul_1_l in H.
    apply H; apply representable_int; lia. }
  assert (S1 : between (fadd float_0 (fmul fs float_1)) (s * u) (s * u)).
  { pose proof (fadd_between float_0 (fmul fs float_1) 0 0 (s * u) (s * u)
                  (between_zero false 0 0 ltac:(lia)) B1) as H.
    rewrite !Z.add_0_l in H.
    apply H; apply representable_int; lia. }
  assert (B2 : between (fmul fm float_60) (60 * (m * u)) (60 * (m * u))).
  { apply (fmul_whole fm float_60 60 (m * u) (m * u) N60 T60 ltac:(lia) Bm);
      replace (60 * (m * u)) with (60 * m * u) by ring;
      apply representable_int; lia. }
  assert (S2 : between (fadd (fadd float_0 (fmul fs float_1))
                             (fmul fm float_60))
                       ((60 * m + s) * u) ((60 * m + s) * u)).
  { pose proof (fadd_between _ _ _ _ _ _ S1 B2) as H.
    replace (s * u + 60 * (m * u)) with ((60 * m + s) * u) in H by ring.
    apply H; apply representable_int; lia. }
  split; [exact S2|].
  assert (B3 : between (fmul fh float_3600) (3600 * (h * u)) (3600 * (h * u))).
  { apply (fmul_whole fh float_3600 3600 (h * u) (h * u) N3600 T3600
             ltac:(lia) Bh);
      replace (3600 * (h * u)) with (3600 * h * u) by ring;
      apply representable_int; lia. }
  pose proof (fadd_between _ _ _ _ _ _ S2 B3) as H.
  replace ((60 * m + s) * u + 3600 * (h * u))
    with ((3600 * h + 60 * m + s) * u) in H by ring.
  apply H; apply representable_int; lia.
Qed.

Lemma float_of_int_between (x : float) (n : Z) :
  0 <= n < 2 ^ 53 ->
  between x (n * unit_ticks) (n * unit_ticks) ->
  (n = 0 -> x = S754_zero false) ->
  float_of_int n = Ok x.
Proof.
  intros Hn [Nx Hx] Hzero. pose proof unit_ticks_pos as Hu.
  destruct (float_of_int_exact n ltac:(lia)) as (f & Ef & Nf & Hf).
  { fold unit_ticks. apply representable_int. exact Hn. }
  fold unit_ticks in Hf.
  destruct (Z.eq_dec n 0) as [->|Hnz].
  - rewrite (Hzero eq_refl). reflexivity.
  - rewrite Ef. f_equal. apply same_ticks; try assumption; [lia|].
    assert (0 < n * unit_ticks) by (apply Z.mul_pos_pos; lia). lia.
Qed.

(** X14: a clock text of two or three fields of digits, of any width and with
    values below [2^40], is read exactly: [parse_time] returns the float of
    sixty times the first field plus the second, or of 3600 times the first
    plus sixty times the second plus the third.  No field is checked against
    a range: minutes and seconds of 60 and more are carried over. *)
Theorem whole_clock_text_is_exact (x y z : string) :
  digit_field x -> digit_field y -> digit_field z ->
  dec 0 x < 2 ^ 40 -> dec 0 y < 2 ^ 40 -> dec 0 z < 2 ^ 40 ->
  (exists f,
      float_of_int (60 * dec 0 y + dec 0 z) = Ok f
      /\ parse_time (Some (y ++ ":" ++ z)%string) = Some f)
  /\ (exists f,
        float_of_int (3600 * dec 0 x + 60 * dec 0 y + dec 0 z) = Ok f
        /\ parse_time (Some (x ++ ":" ++ y ++ ":" ++ z)%string) = Some f).
Proof.
  intros Fx Fy Fz Hx Hy Hz.
  pose proof (dec_nonneg x 0 ltac:(lia)) as Hx0.
  pose proof (dec_nonneg y 0 ltac:(lia)) as Hy0.
  pose proof (dec_nonneg z 0 ltac:(lia)) as Hz0.
  set (h := dec 0 x) in *. set (m := dec 0 y) in *. set (s := dec 0 z) in *.
  pose proof (whole_to_float_exact h ltac:(lia)) as Bh.
  pose proof (whole_to_float_exact m ltac:(lia)) as Bm.
  pose proof (whole_to_float_exact s ltac:(lia)) as Bs.
  destruct (clock_seconds_whole _ _ _ h m s ltac:(lia) ltac:(lia) ltac:(lia)
              Bh Bm Bs) as [B2 B3].
  assert (Hzero : forall n, n = 0 -> decimal_to_float false n 0 = S754_zero false)
    by (intros n ->; reflexivity).
  split.
  - exists (clock_seconds [whole y; whole z]). split.
    + apply float_of_int_between; [lia | exact B2|].
      intros H0. unfold whole. fold m s.
      rewrite (Hzero m), (Hzero s) by lia. reflexivity.
    + change (y ++ ":" ++ z)%string with (String.concat ":" [y; z]).
      apply parse_time_digit_fields.
      repeat (apply Forall_cons; [assumption|]). apply Forall_nil.
  - exists (clock_seconds [whole x; whole y; whole z]). split.
    + apply float_of_int_between; [lia | exact B3|].
      intros H0. unfold whole. fold h m s.
      rewrite (Hzero h), (Hzero m), (Hzero s) by lia. reflexivity.
    + change (x ++ ":" ++ y ++ ":" ++ z)%string
        with (String.concat ":" [x; y; z]).
      apply parse_time_digit_fields.
      repeat (apply Forall_cons; [assumption|]). apply Forall_nil.
Qed.

(** Ninety minutes, written as 0:90:00. *)
Lemma whole_clock_text_is_exact_witness :
  exists f,
    float_of_int 5400 = Ok f /\ parse_time (Some "0:90:00") = Some f.
Proof.
  destruct (whole_clock_text_is_exact "0" "90" "00") as [_ (f & Hf & Hp)];
    try (split; [discriminate | reflexivity]);
    try (vm_compute; reflexivity).
  exists f. split; [exact Hf | exact Hp].
Defined.
